(** * prometheus-example-app: a shallow embedding of [main.go]

    The program is one Go file: five synthetic HTTP handlers, a
    [hashRandomData] helper, two Prometheus collectors and a [ServeMux]
    that wires them together.  The embedding follows the file top to
    bottom.  The parts of the Go standard library and of
    [client_golang] that the handlers call ([strconv.Atoi],
    [crypto/sha256], [fmt]'s [%x] and [%d], the Go 1.22 [ServeMux]
    routing, [promhttp]'s two instrumentation wrappers) are embedded in
    modules named after their packages, at the level of detail the
    handlers depend on.

    Conventions.
    - Go's [int] is the 64-bit two's-complement integer (the program is
      built for a 64-bit target); it is a [Z] and every operation that
      can overflow is followed by [wrap64].
    - A Go [string] is a sequence of bytes: Rocq's [string].  A [[]byte]
      is a [list byte].
    - What the environment decides (the bytes delivered by
      [crypto/rand], the wall-clock readings) is an explicit input.
    - A run-time panic is a result of its own: [None] where a value is
      expected, [Panicked] for a request. *)

From Stdlib Require Import ZArith Ascii String List Lia Bool.
From Stdlib Require Import Strings.Byte Numbers.DecimalString.
From Stdlib Require Numbers.DecimalPos Sorting.Permutation.
From stdpp Require Import gmap strings list fin_maps.

Local Open Scope Z_scope.

(* ===================================================================== *)
(** ** Go integers *)
(* ===================================================================== *)

Definition MaxInt64 : Z := 2 ^ 63 - 1.
Definition MinInt64 : Z := - 2 ^ 63.

(** Two's-complement wrap-around of a mathematical integer into [int]. *)
Definition wrap64 (z : Z) : Z := (z + 2 ^ 63) mod 2 ^ 64 - 2 ^ 63.

(** Wrap-around into [uint64] and [uint32]. *)
Definition wrapU64 (z : Z) : Z := z mod 2 ^ 64.
Definition wrapU32 (z : Z) : Z := z mod 2 ^ 32.

(** The numeric value of a byte of a string. *)
Definition byteVal (c : ascii) : Z := Z.of_N (N_of_ascii c).

(* ===================================================================== *)
(** ** Package [strconv] *)
(* ===================================================================== *)

Module strconv.

(** [NumError.Err]: the two errors [Atoi] can report. *)
Inductive NumError := ErrSyntax | ErrRange.

(** The digit loop of [Atoi]'s fast path:
    [ch -= '0'; if ch > 9 { return 0, syntaxError }; n = n*10 + int(ch)].
    [ch] is a byte, so the subtraction wraps modulo 256. *)
Fixpoint atoiDigits (s : string) (n : Z) : option Z :=
  match s with
  | EmptyString => Some n
  | String c s' =>
      let ch := (byteVal c - 48) mod 256 in
      if 9 <? ch then None else atoiDigits s' (n * 10 + ch)
  end.

Definition isSign (c : ascii) : bool :=
  (byteVal c =? 45) || (byteVal c =? 43).

(** [lower(c) = c | ('x' - 'X')]. *)
Definition lower (c : Z) : Z := Z.lor c 32.

(** The digit value [ParseUint] assigns to a byte, [None] for the
    [default] branch of its switch (base 10, so no underscores). *)
Definition digitOf (c : Z) : option Z :=
  if (48 <=? c) && (c <=? 57) then Some (c - 48)
  else if (97 <=? lower c) && (lower c <=? 122) then Some (lower c - 97 + 10)
  else None.

(** The loop of [ParseUint(s, 10, 0)]: [cutoff = maxUint64/10 + 1],
    [maxVal = 1<<64 - 1]. *)
Definition cutoff : Z := (2 ^ 64 - 1) / 10 + 1.
Definition maxVal : Z := 2 ^ 64 - 1.

Fixpoint parseUintLoop (s : string) (n : Z) : Z * option NumError :=
  match s with
  | EmptyString => (n, None)
  | String c s' =>
      match digitOf (byteVal c) with
      | None => (0, Some ErrSyntax)
      | Some d =>
          if 10 <=? d then (0, Some ErrSyntax)
          else if cutoff <=? n then (maxVal, Some ErrRange)
          else
            let n' := wrapU64 (n * 10) in
            let n1 := wrapU64 (n' + d) in
            if (n1 <? n') || (maxVal <? n1) then (maxVal, Some ErrRange)
            else parseUintLoop s' n1
      end
  end.

Definition ParseUint (s : string) : Z * option NumError :=
  match s with
  | EmptyString => (0, Some ErrSyntax)
  | _ => parseUintLoop s 0
  end.

(** [ParseInt(s, 10, 0)]. *)
Definition ParseInt (s : string) : Z * option NumError :=
  match s with
  | EmptyString => (0, Some ErrSyntax)
  | String c rest =>
      let neg := byteVal c =? 45 in
      let s1 := if (byteVal c =? 43) || neg then rest else s in
      match ParseUint s1 with
      | (_, Some ErrSyntax) => (0, Some ErrSyntax)
      | (un, _) =>
          let cutoff := 2 ^ 63 in
          if negb neg && (cutoff <=? un) then (cutoff - 1, Some ErrRange)
          else if neg && (cutoff <? un) then (- cutoff, Some ErrRange)
          else
            let n := wrap64 un in
            ((if neg then wrap64 (- n) else n), None)
      end
  end.

(** [Atoi]: the fast path for strings of 1 to 18 bytes, [ParseInt]
    for the rest.  The returned pair is Go's [(int, error)]; the
    second component is [None] for a [nil] error. *)
Definition Atoi (s : string) : Z * option NumError :=
  let sLen := Z.of_nat (String.length s) in
  if (0 <? sLen) && (sLen <? 19) then
    match s with
    | EmptyString => (0, Some ErrSyntax)
    | String c rest =>
        let s1 := if isSign c then rest else s in
        if isSign c && (Z.of_nat (String.length s1) <? 1) then (0, Some ErrSyntax)
        else
          match atoiDigits s1 0 with
          | None => (0, Some ErrSyntax)
          | Some n => ((if byteVal c =? 45 then - n else n), None)
          end
    end
  else ParseInt s.

(** [Itoa], which is also what [%d] prints for an [int]. *)
Definition Itoa (n : Z) : string := NilZero.string_of_int (Z.to_int n).

End strconv.

(* ===================================================================== *)
(** ** Package [crypto/sha256] *)
(* ===================================================================== *)

Module sha256.

Definition chunk : nat := 64.
Definition Size : nat := 32.

(** [uint8(z)]: conversion of an integer to a byte. *)
Definition byteOfZ (z : Z) : byte :=
  match Byte.of_N (Z.to_N (z mod 256)) with
  | Some b => b
  | None => "000"%byte
  end.

Definition byteToZ (b : byte) : Z := Z.of_N (Byte.to_N b).

(** The eight working words [h[0..7]] of a digest. *)
Record regs := Regs {
  r0 : Z; r1 : Z; r2 : Z; r3 : Z; r4 : Z; r5 : Z; r6 : Z; r7 : Z }.

Definition init : regs :=
  Regs 0x6A09E667 0xBB67AE85 0x3C6EF372 0xA54FF53A
       0x510E527F 0x9B05688C 0x1F83D9AB 0x5BE0CD19.

Definition _K : list Z :=
  [ 0x428A2F98; 0x71374491; 0xB5C0FBCF; 0xE9B5DBA5;
    0x3956C25B; 0x59F111F1; 0x923F82A4; 0xAB1C5ED5;
    0xD807AA98; 0x12835B01; 0x243185BE; 0x550C7DC3;
    0x72BE5D74; 0x80DEB1FE; 0x9BDC06A7; 0xC19BF174;
    0xE49B69C1; 0xEFBE4786; 0x0FC19DC6; 0x240CA1CC;
    0x2DE92C6F; 0x4A7484AA; 0x5CB0A9DC; 0x76F988DA;
    0x983E5152; 0xA831C66D; 0xB00327C8; 0xBF597FC7;
    0xC6E00BF3; 0xD5A79147; 0x06CA6351; 0x14292967;
    0x27B70A85; 0x2E1B2138; 0x4D2C6DFC; 0x53380D13;
    0x650A7354; 0x766A0ABB; 0x81C2C92E; 0x92722C85;
    0xA2BFE8A1; 0xA81A664B; 0xC24B8B70; 0xC76C51A3;
    0xD192E819; 0xD6990624; 0xF40E3585; 0x106AA070;
    0x19A4C116; 0x1E376C08; 0x2748774C; 0x34B0BCB5;
    0x391C0CB3; 0x4ED8AA4A; 0x5B9CCA4F; 0x682E6FF3;
    0x748F82EE; 0x78A5636F; 0x84C87814; 0x8CC70208;
    0x90BEFFFA; 0xA4506CEB; 0xBEF9A3F7; 0xC67178F2 ].

(** [bits.RotateLeft32(v, -n)]: rotation to the right by [n]. *)
Definition rotr (n v : Z) : Z :=
  Z.lor (Z.shiftr v n) (wrapU32 (Z.shiftl v (32 - n))).

(** [^e] on a [uint32]. *)
Definition not32 (e : Z) : Z := Z.lxor e (2 ^ 32 - 1).

Definition add32 (a b : Z) : Z := wrapU32 (a + b).

(** [w[i]] for [i < 16]: four bytes of the block, big-endian. *)
Definition beWord (p : list byte) (j : nat) : Z :=
  let b k := byteToZ (nth (j + k) p "000"%byte) in
  Z.lor (Z.lor (Z.lor (Z.shiftl (b 0%nat) 24) (Z.shiftl (b 1%nat) 16))
               (Z.shiftl (b 2%nat) 8)) (b 3%nat).

(** [w[i]] for [16 <= i < 64], appended to the words computed so far. *)
Fixpoint schedule (n : nat) (w : list Z) : list Z :=
  match n with
  | O => w
  | S n' =>
      let i := length w in
      let v1 := nth (i - 2) w 0 in
      let t1 := Z.lxor (Z.lxor (rotr 17 v1) (rotr 19 v1)) (Z.shiftr v1 10) in
      let v2 := nth (i - 15) w 0 in
      let t2 := Z.lxor (Z.lxor (rotr 7 v2) (rotr 18 v2)) (Z.shiftr v2 3) in
      let wi := add32 (add32 (add32 t1 (nth (i - 7) w 0)) t2) (nth (i - 16) w 0) in
      schedule n' (w ++ [wi])
  end.

(** One of the 64 rounds. *)
Definition round (s : regs) (kw : Z * Z) : regs :=
  let '(Regs a b c d e f g h) := s in
  let t1 := add32 (add32 (add32 (add32 h
              (Z.lxor (Z.lxor (rotr 6 e) (rotr 11 e)) (rotr 25 e)))
              (Z.lxor (Z.land e f) (Z.land (not32 e) g))) (fst kw)) (snd kw) in
  let t2 := add32 (Z.lxor (Z.lxor (rotr 2 a) (rotr 13 a)) (rotr 22 a))
                  (Z.lxor (Z.lxor (Z.land a b) (Z.land a c)) (Z.land b c)) in
  Regs (add32 t1 t2) a b c (add32 d t1) e f g.

(** The body of [blockGeneric]'s outer loop, for one 64-byte block. *)
Definition block1 (s : regs) (p : list byte) : regs :=
  let w := schedule 48 (map (fun i => beWord p (i * 4)) (seq 0 16)) in
  let t := fold_left round (combine _K w) s in
  Regs (add32 (r0 s) (r0 t)) (add32 (r1 s) (r1 t)) (add32 (r2 s) (r2 t))
       (add32 (r3 s) (r3 t)) (add32 (r4 s) (r4 t)) (add32 (r5 s) (r5 t))
       (add32 (r6 s) (r6 t)) (add32 (r7 s) (r7 t)).

(** [blockGeneric]: [for len(p) >= chunk { ...; p = p[chunk:] }], with
    [n] the number of whole blocks in [p]. *)
Fixpoint blockGeneric (n : nat) (s : regs) (p : list byte) : regs :=
  match n with
  | O => s
  | S n' => blockGeneric n' (block1 s (firstn chunk p)) (skipn chunk p)
  end.

Definition block (s : regs) (p : list byte) : regs :=
  blockGeneric (length p / chunk) s p.

(** The [digest] struct: the working words, the first [nx] bytes of
    the buffer [x], and the number of bytes written ([uint64]). *)
Record digest := Digest { h : regs; x : list byte; len : Z }.

Definition New : digest := Digest init [] 0.

Definition Write (d : digest) (p : list byte) : digest :=
  let len' := wrapU64 (len d + Z.of_nat (length p)) in
  let '(h1, x1, p1) :=
    if (0 <? length (x d))%nat then
      let n := Nat.min (chunk - length (x d)) (length p) in
      let x' := x d ++ firstn n p in
      if (length x' =? chunk)%nat then (block (h d) x', [], skipn n p)
      else (h d, x', skipn n p)
    else (h d, x d, p) in
  let '(h2, p2) :=
    if (chunk <=? length p1)%nat then
      let n := (length p1 / chunk * chunk)%nat in
      (block h1 (firstn n p1), skipn n p1)
    else (h1, p1) in
  let x2 := if (0 <? length p2)%nat then p2 else x1 in
  Digest h2 x2 len'.

(** [binary.BigEndian.PutUint64] and [PutUint32]. *)
Definition be64 (v : Z) : list byte :=
  map (fun k => byteOfZ (Z.shiftr v (8 * Z.of_nat (7 - k)))) (seq 0 8).
Definition be32 (v : Z) : list byte :=
  map (fun k => byteOfZ (Z.shiftr v (8 * Z.of_nat (3 - k)))) (seq 0 4).

(** [checkSum]: pad to 56 bytes modulo 64, append the length in bits,
    write, and serialise the eight words. *)
Definition checkSum (d : digest) : list byte :=
  let l := len d in
  let t := if l mod 64 <? 56 then 56 - l mod 64 else 64 + 56 - l mod 64 in
  let padlen :=
    "128"%byte :: repeat "000"%byte (Z.to_nat t - 1) ++ be64 (wrapU64 (Z.shiftl l 3)) in
  let d' := Write d padlen in
  let s := h d' in
  be32 (r0 s) ++ be32 (r1 s) ++ be32 (r2 s) ++ be32 (r3 s) ++
  be32 (r4 s) ++ be32 (r5 s) ++ be32 (r6 s) ++ be32 (r7 s).

(** [Sum(nil)]: the checksum of a copy of [d]; [d] itself is unchanged. *)
Definition Sum (d : digest) : list byte := checkSum d.

End sha256.

(* ===================================================================== *)
(** ** Package [fmt] *)
(* ===================================================================== *)

Module fmt.

(** [ldigits = "0123456789abcdefx"]. *)
Definition ldigits : list ascii :=
  ["0"; "1"; "2"; "3"; "4"; "5"; "6"; "7"; "8"; "9";
   "a"; "b"; "c"; "d"; "e"; "f"; "x"]%char.

Definition digit (i : Z) : ascii := nth (Z.to_nat i) ldigits "000"%char.

(** [%x] applied to a byte slice: [digits[c>>4], digits[c&0xF]] for
    every byte [c]. *)
Fixpoint Sprintf_x (b : list byte) : string :=
  match b with
  | [] => EmptyString
  | c :: b' =>
      let v := sha256.byteToZ c in
      String (digit (Z.shiftr v 4)) (String (digit (Z.land v 15)) (Sprintf_x b'))
  end.

End fmt.

(* ===================================================================== *)
(** ** [hashRandomData] (main.go, lines 125-139) *)
(* ===================================================================== *)

(** The random source is the stream of bytes [crypto/rand] delivers:
    [rnd k] is the [k]-th byte handed out.  [rand.Read(buffer)] fills
    the whole buffer, so the read after [reads] earlier ones yields
    bytes [1024*reads .. 1024*reads + 1023] of the stream. *)
Definition RandSource := nat -> byte.

Definition bufferLen : nat := 1024.

Definition randRead (rnd : RandSource) (reads : nat) : list byte :=
  map (fun j => rnd (reads * bufferLen + j)%nat) (seq 0 bufferLen).

(** The variables of [hashRandomData] that the loop changes, and the
    number of [rand.Read] calls made so far. *)
Record hashState := HashState {
  hasher : sha256.digest;
  bytesProcessed : Z;
  h : list byte;
  reads : nat
}.

Definition hashInit : hashState :=
  {| hasher := sha256.New; bytesProcessed := 0; h := []; reads := 0 |}.

(** The loop body, lines 132-135. *)
Definition hashStep (rnd : RandSource) (st : hashState) : hashState :=
  let buffer := randRead rnd (reads st) in
  let hasher' := sha256.Write (hasher st) buffer in
  {| hasher := hasher';
     bytesProcessed := wrap64 (bytesProcessed st + Z.of_nat (length buffer));
     h := sha256.Sum hasher';
     reads := S (reads st) |}.

(** [for bytesProcessed < bytesToProcess { ... }].  The loop's guard is
    tested before fuel is spent, so [None] means exactly that [fuel]
    iterations did not make the guard false. *)
Fixpoint hashLoop (fuel : nat) (rnd : RandSource) (bytesToProcess : Z)
    (st : hashState) : option hashState :=
  if bytesProcessed st <? bytesToProcess then
    match fuel with
    | O => None
    | S fuel' => hashLoop fuel' rnd bytesToProcess (hashStep rnd st)
    end
  else Some st.

(** [hashRandomData]: [None] when [fuel] iterations do not end the loop. *)
Definition hashRandomData (fuel : nat) (rnd : RandSource) (bytesToProcess : Z)
    : option string :=
  match hashLoop fuel rnd bytesToProcess hashInit with
  | Some st => Some (fmt.Sprintf_x (h st))
  | None => None
  end.

(* ===================================================================== *)
(** ** Packages [strings], [path] and [net/url] *)
(* ===================================================================== *)

Module Strings.

Definition slash : ascii := "/"%char.

(** The bytes before the first ['/'] and the rest, which is empty or
    starts with that ['/']: [s[:i], s[i:]] for
    [i = strings.IndexByte(s, '/')], or [i = len(s)] when [i < 0]. *)
Fixpoint cutAtSlash (s : string) : string * string :=
  match s with
  | EmptyString => (EmptyString, EmptyString)
  | String c s' =>
      if Ascii.eqb c slash then (EmptyString, s)
      else let '(a, b) := cutAtSlash s' in (String c a, b)
  end.

(** [strings.Split(s, "/")]. *)
Fixpoint splitSlash (s : string) : list string :=
  match s with
  | EmptyString => [EmptyString]
  | String c s' =>
      if Ascii.eqb c slash then EmptyString :: splitSlash s'
      else
        match splitSlash s' with
        | e :: es => String c e :: es
        | [] => [String c EmptyString]
        end
  end.

(** [strings.HasSuffix(s, "/")]. *)
Fixpoint endsWithSlash (s : string) : bool :=
  match s with
  | EmptyString => false
  | String c EmptyString => Ascii.eqb c slash
  | String _ s' => endsWithSlash s'
  end.

(** [strings.Count(s, "/")]. *)
Fixpoint countSlash (s : string) : nat :=
  match s with
  | EmptyString => O
  | String c s' => ((if Ascii.eqb c slash then 1 else 0) + countSlash s')%nat
  end.

(** [strings.Join(elems, "/")]. *)
Fixpoint joinSlash (elems : list string) : string :=
  match elems with
  | [] => EmptyString
  | [e] => e
  | e :: es => e +:+ "/" +:+ joinSlash es
  end.

End Strings.

Module url.

(** [ishex] and [unhex]. *)
Definition unhex (c : ascii) : option Z :=
  let v := byteVal c in
  if (48 <=? v) && (v <=? 57) then Some (v - 48)
  else if (97 <=? v) && (v <=? 102) then Some (v - 97 + 10)
  else if (65 <=? v) && (v <=? 70) then Some (v - 65 + 10)
  else None.

(** [PathUnescape]: every [%XX] becomes the byte it names; [None] is
    the [EscapeError] for a [%] not followed by two hex digits. *)
Fixpoint PathUnescape (s : string) : option string :=
  match s with
  | EmptyString => Some EmptyString
  | String c s' =>
      if Ascii.eqb c "%"%char then
        match s' with
        | String a (String b s'') =>
            match unhex a, unhex b, PathUnescape s'' with
            | Some hi, Some lo, Some t =>
                Some (String (ascii_of_N (Z.to_N (hi * 16 + lo))) t)
            | _, _, _ => None
            end
        | _ => None
        end
      else
        match PathUnescape s' with
        | Some t => Some (String c t)
        | None => None
        end
  end.

(** The fields of [url.URL] the mux reads: the decoded [Path], the
    result of [EscapedPath()], and [RawQuery]. *)
Record URL := { Path : string; EscapedPath : string; RawQuery : string }.

End url.

Module path.

(** [path.Clean] on a rooted path (one that starts with ['/']), the
    only kind [cleanPath] passes to it: empty and [.] elements are
    dropped, [..] removes the element before it if there is one, and
    the result is the elements that remain, each preceded by ['/']
    (["/"] when none remains). *)
Definition cleanElem (stack : list string) (e : string) : list string :=
  if String.eqb e "" || String.eqb e "." then stack
  else if String.eqb e ".." then removelast stack
  else stack ++ [e].

Definition Clean (p : string) : string :=
  "/" +:+ Strings.joinSlash (fold_left cleanElem (Strings.splitSlash p) []).

End path.

(* ===================================================================== *)
(** ** Package [net/http]: requests, patterns and the [ServeMux] *)
(* ===================================================================== *)

Module http.

Definition StatusOK : Z := 200.
Definition StatusNotFound : Z := 404.
Definition StatusInternalServerError : Z := 500.

(** The request fields the program depends on.  Headers and the body
    are read by no handler and by no routing decision (no pattern
    names a host), so they are not part of the model.  The model
    covers the requests the mux routes; a request for the target [*]
    is answered before any routing. *)
Record Request := { Method : string; URL : url.URL }.

(** A segment of a parsed pattern: a literal, a single wildcard
    [{name}], or the anonymous multi wildcard that a trailing slash
    stands for.  (No pattern of main.go has a method, a host, [{$}] or
    a named [{name...}] wildcard.) *)
Inductive segment := Lit (s : string) | Wild (name : string) | Multi.

Record pattern := Pattern { str : string; segments : list segment }.

(** [pathUnescape]: the segment unescaped, if possible. *)
Definition pathUnescape (p : string) : string :=
  match url.PathUnescape p with
  | Some u => u
  | None => p
  end.

(** [firstSegment]: the first segment of a path and the rest; a path
    that consists of only a slash gives [("/", "")]. *)
Definition firstSegment (p : string) : string * string :=
  if String.eqb p "/" then ("/", "")
  else
    match p with
    | EmptyString => (EmptyString, EmptyString)
    | String _ p' =>
        let '(seg, rest) := Strings.cutAtSlash p' in (pathUnescape seg, rest)
    end.

(** The segments [matchPath] sees as it walks a path: [firstSegment]
    applied until the path is empty.  Every call removes at least one
    byte, so [String.length p] rounds are enough. *)
Fixpoint segmentsFrom (fuel : nat) (p : string) : list string :=
  match fuel with
  | O => []
  | S fuel' =>
      if String.eqb p "" then []
      else let '(seg, rest) := firstSegment p in seg :: segmentsFrom fuel' rest
  end.

Definition pathSegments (p : string) : list string :=
  segmentsFrom (String.length p) p.

(** [p.lastSegment().multi]. *)
Definition lastIsMulti (p : pattern) : bool :=
  match last (segments p) with
  | Some Multi => true
  | _ => false
  end.

(** [cleanPath]: the canonical form of a path, a trailing slash kept. *)
Definition cleanPath (p : string) : string :=
  match p with
  | EmptyString => "/"
  | String c _ =>
      let p := if Ascii.eqb c Strings.slash then p else "/" +:+ p in
      let np := path.Clean p in
      if Strings.endsWithSlash p && negb (String.eqb np "/") then
        if ((String.length p =? String.length np + 1)%nat && String.prefix np p)
        then p else np +:+ "/"
      else np
  end.

Section RoutingTree.

(** The type of what is registered with a pattern. *)
Context {H : Type}.

(** A [routingNode] is represented by the registered patterns whose
    path from the root ends at or passes through the node, each
    with the segments still to be matched below the node.  The
    empty list is the [nil] node. *)
Definition routingNode : Type := list (list segment * (pattern * H)).

(** [n.pattern, n.handler]: set when a pattern ends at the node. *)
Fixpoint leaf (n : routingNode) : option (pattern * H) :=
  match n with
  | [] => None
  | ([], e) :: _ => Some e
  | _ :: n' => leaf n'
  end.

(** [n.emptyChild]: the child for a single wildcard. *)
Fixpoint emptyChild (n : routingNode) : routingNode :=
  match n with
  | [] => []
  | (Wild _ :: segs, e) :: n' => (segs, e) :: emptyChild n'
  | _ :: n' => emptyChild n'
  end.

Fixpoint literalChild (key : string) (n : routingNode) : routingNode :=
  match n with
  | [] => []
  | (Lit s :: segs, e) :: n' =>
      if String.eqb s key then (segs, e) :: literalChild key n'
      else literalChild key n'
  | _ :: n' => literalChild key n'
  end.

(** [n.findChild(key)]: the empty key names the wildcard child. *)
Definition findChild (key : string) (n : routingNode) : routingNode :=
  if String.eqb key "" then emptyChild n else literalChild key n.

(** [n.multiChild]: the child for a multi wildcard, a leaf. *)
Fixpoint multiChild (n : routingNode) : option (pattern * H) :=
  match n with
  | [] => None
  | (Multi :: _, e) :: _ => Some e
  | _ :: n' => multiChild n'
  end.

(** [matchPath]: literal child first, then the single wildcard
    (which does not match a trailing slash), then the multi
    wildcard.  [segs] is the rest of the path, as segments. *)
Fixpoint matchPath (segs : list string) (n : routingNode) (matches : list string)
    : option (pattern * H * list string) :=
  match segs with
  | [] =>
      match leaf n with
      | Some e => Some (e, matches)
      | None => None
      end
  | seg :: rest =>
      match matchPath rest (findChild seg n) matches with
      | Some r => Some r
      | None =>
          match
            (if String.eqb seg "/" then None
             else matchPath rest (emptyChild n) (matches ++ [seg]))
          with
          | Some r => Some r
          | None =>
              match multiChild n with
              | Some e => Some (e, matches)
              | None => None
              end
          end
      end
  end.

(** The root of the tree built by [mux.Handle] for the patterns
    registered; [match] descends through the empty host and the
    empty method, the only ones registered. *)
Definition treeOf (regs : list (pattern * H)) : routingNode :=
  map (fun e => (segments (fst e), e)) regs.

Definition treeMatch (regs : list (pattern * H)) (p : string)
    : option (pattern * H * list string) :=
  matchPath (pathSegments p) (treeOf regs) [].

(** [exactMatch]. *)
Definition exactMatch (n : option (pattern * H * list string)) (p : string) : bool :=
  match n with
  | None => false
  | Some (pat, _, _) =>
      if negb (lastIsMulti pat) then true
      else if negb (Strings.endsWithSlash p) && (0 <? String.length p)%nat then false
      else (length (segments pat) =? Strings.countSlash p)%nat
  end.

(** What [findHandler] hands back: a registered handler with the
    matched pattern and the wildcard matches; the mux's own
    [RedirectHandler] (a permanent redirect) for the URL with the given
    [Path] and [RawQuery]; or its not-found handler. *)
Inductive found :=
| Matched (pat : pattern) (h : H) (matches : list string)
| Redirect (location : string) (rawQuery : string)
| NotFound.

(** [matchOrRedirect]: [u] is [None] for the call that passes a nil
    URL; the redirect target is given by its [Path] and [RawQuery]. *)
Definition matchOrRedirect (regs : list (pattern * H)) (p : string)
    (u : option url.URL)
    : option (pattern * H * list string) * option (string * string) :=
  let n := treeMatch regs p in
  match u with
  | Some u =>
      if negb (exactMatch n p) && negb (Strings.endsWithSlash p) then
        let p' := p +:+ "/" in
        if exactMatch (treeMatch regs p') p' then
          (None, Some (cleanPath (url.Path u) +:+ "/", url.RawQuery u))
        else (n, None)
      else (n, None)
  | None => (n, None)
  end.

Definition ofMatch (n : option (pattern * H * list string)) : found :=
  match n with
  | Some (pat, h, ms) => Matched pat h ms
  | None => NotFound
  end.

(** [findHandler].  No registered pattern names a method, so
    [matchingMethods] is empty and an unmatched request gets the
    not-found handler. *)
Definition findHandler (regs : list (pattern * H)) (r : Request) : found :=
  let escapedPath := url.EscapedPath (URL r) in
  if String.eqb (Method r) "CONNECT" then
    match matchOrRedirect regs escapedPath (Some (URL r)) with
    | (_, Some (loc, q)) => Redirect loc q
    | (_, None) => ofMatch (fst (matchOrRedirect regs escapedPath None))
    end
  else
    let p := cleanPath escapedPath in
    match matchOrRedirect regs p (Some (URL r)) with
    | (_, Some (loc, q)) => Redirect loc q
    | (n, None) =>
        if negb (String.eqb p escapedPath) then
          Redirect p (url.RawQuery (URL r))
        else ofMatch n
    end.

End RoutingTree.

Arguments found : clear implicits.
Arguments routingNode : clear implicits.

(** [r.PathValue(name)]: [r.matches[i]] for the index [i] that
    [patIndex] gives the wildcard called [name] among the wildcards of
    the matched pattern, and the empty string when the pattern has no
    such wildcard.  [None] is the run-time panic of [r.matches[i]] for
    an index out of range: [matchPath] records no match for a wildcard
    that [findChild] reached through an empty segment, so a pattern can
    be matched with fewer matches than it has wildcards. *)
Fixpoint patIndex (segs : list segment) (name : string) (i : nat) : option nat :=
  match segs with
  | [] => None
  | Wild s :: segs' =>
      if String.eqb s "" then patIndex segs' name i
      else if String.eqb name s then Some i
      else patIndex segs' name (S i)
  | _ :: segs' => patIndex segs' name i
  end.

Definition PathValue (pat : pattern) (matches : list string) (name : string)
    : option string :=
  match patIndex (segments pat) name 0 with
  | Some i => matches !! i
  | None => Some EmptyString
  end.

End http.

(* ===================================================================== *)
(** ** Packages [time], [prometheus] and [promhttp] *)
(* ===================================================================== *)

Module time.

(** A [Duration] is an [int64] count of nanoseconds. *)
Definition Second : Z := 1000000000.

(** How long [Sleep(d)] pauses: it returns at once for a negative or
    zero duration. *)
Definition Sleep (d : Z) : Z := Z.max d 0.

End time.

Module prometheus.

(** A vector of counters, keyed by the values of its labels in the
    order the labels were declared; a missing key is a child that
    was never touched. *)
Abbreviation CounterVec := (gmap (list string) nat).

(** A vector of histograms; a child is represented by the
    observations made on it (durations, in nanoseconds), latest first. *)
Abbreviation HistogramVec := (gmap (list string) (list Z)).

(** [vec.With(labels).Inc()]. *)
Definition Inc (labels : list string) (vec : CounterVec) : CounterVec :=
  <[labels := S (default O (vec !! labels))]> vec.

(** [vec.With(labels).Observe(v)]. *)
Definition Observe (labels : list string) (v : Z) (vec : HistogramVec) : HistogramVec :=
  <[labels := v :: default [] (vec !! labels)]> vec.

(** The sum of a counter vector over all its label combinations. *)
Definition total (vec : CounterVec) : nat :=
  map_fold (fun _ v acc => (v + acc)%nat) O vec.

(** The number of observations in a histogram vector, over all its
    label combinations. *)
Definition observations (vec : HistogramVec) : nat :=
  map_fold (fun _ obs acc => (length obs + acc)%nat) O vec.

End prometheus.

Module promhttp.

(** [sanitizeMethod]: the ten methods it knows, in either case, and
    ["unknown"] for the rest. *)
Definition knownMethods : list (string * string) :=
  [("GET", "get"); ("PUT", "put"); ("HEAD", "head"); ("POST", "post");
   ("DELETE", "delete"); ("CONNECT", "connect"); ("OPTIONS", "options");
   ("NOTIFY", "notify"); ("TRACE", "trace"); ("PATCH", "patch")].

Fixpoint sanitizeMethodIn (known : list (string * string)) (m : string) : string :=
  match known with
  | [] => "unknown"
  | (upper, lower) :: known' =>
      if String.eqb m upper || String.eqb m lower then lower
      else sanitizeMethodIn known' m
  end.

Definition sanitizeMethod (m : string) : string := sanitizeMethodIn knownMethods m.

(** [sanitizeCode]: a status of 0 counts as 200, the statuses from 100
    to 599 print in decimal, anything else is ["unknown"]. *)
Definition sanitizeCode (s : Z) : string :=
  if s =? 0 then "200"
  else if (100 <=? s) && (s <=? 599) then strconv.Itoa s
  else "unknown".

End promhttp.

(* ===================================================================== *)
(** ** main.go *)
(* ===================================================================== *)

(** The package-level collectors, lines 20-39.  [version] is the gauge
    that [main] sets to 1. *)
Record Collectors := {
  version : Z;
  httpRequestsTotal : prometheus.CounterVec;      (* labels: code, method *)
  httpRequestDuration : prometheus.HistogramVec   (* labels: code, handler, method *)
}.

(** The collectors when the server starts to listen. *)
Definition startup : Collectors :=
  {| version := 1; httpRequestsTotal := ∅; httpRequestDuration := ∅ |}.

(** What a response body is: text, or the exposition of the collectors
    as they were when [/metrics] gathered them. *)
Inductive Body :=
| Text (s : string)
| Exposition (snapshot : Collectors).

(** What a handler did: the status passed to [WriteHeader], the body
    written, the durations passed to [time.Sleep] and the targets
    passed to [hashRandomData], both in call order. *)
Record Result := {
  status : Z;
  body : Body;
  slept : list Z;
  hashed : list Z
}.

(** The request as a handler sees it: the request, and the pattern and
    wildcard matches the mux stored in it. *)
Record Ctx := { req : http.Request; pat : http.pattern; matches : list string }.

(** The clock readings of one request: what [%s] prints for
    [time.Since(start)] in [hashHandler], and the [time.Since(now)]
    that [InstrumentHandlerDuration] observes, in nanoseconds. *)
Record Env := { elapsed : string; sinceNow : Z }.

(** A handler gives the collectors as it leaves them and, when it
    returns, what it did.  [None] is a handler that panics: in this
    program only [r.PathValue] can, in the first statements of a
    handler, before anything is written or done; the panic passes
    through the instrumentation to the server, which recovers from it
    and closes the connection without a response. *)
Definition Handler : Type := Ctx -> Env -> Collectors -> Collectors * option Result.

(** Lines 55-58. *)
Definition foundHandler : Handler := fun r env c =>
  (c, Some {| status := http.StatusOK;
              body := Text "Hello from example application.";
              slept := []; hashed := [] |}).

(** Lines 59-61. *)
Definition notfoundHandler : Handler := fun r env c =>
  (c, Some {| status := http.StatusNotFound; body := Text "";
              slept := []; hashed := [] |}).

(** Lines 62-64. *)
Definition internalErrorHandler : Handler := fun r env c =>
  (c, Some {| status := http.StatusInternalServerError; body := Text "";
              slept := []; hashed := [] |}).

(** The idiom of lines 68-71, 79-82 and 84-87:
    [v, _ := strconv.Atoi(str); if v < 1 { v = 5 }]. *)
Definition atoiOr5 (str : string) : Z :=
  let v := fst (strconv.Atoi str) in
  if v <? 1 then 5 else v.

(** Lines 66-75.  [time.Duration(waitSec) * time.Second] is a product
    of two [int64] values. *)
Definition waitHandler : Handler := fun r env c =>
  (c, waitSecStr ← http.PathValue (pat r) (matches r) "waitSec";
      let waitSec := atoiOr5 waitSecStr in
      Some {| status := http.StatusOK;
              body := Text ("Waited for " +:+ waitSecStr +:+ " seconds.");
              slept := [wrap64 (waitSec * time.Second)];
              hashed := [] |}).

(** Lines 77-97.  The hashes are only printed to standard output,
    which is not part of the model; the calls are recorded by their
    targets, [mb * 1024 * 1024] evaluated left to right in [int]. *)
Definition hashHandler : Handler := fun r env c =>
  (c, iterationsStr ← http.PathValue (pat r) (matches r) "iterations";
      let iterations := atoiOr5 iterationsStr in
      mbStr ← http.PathValue (pat r) (matches r) "mb";
      let mb := atoiOr5 mbStr in
      Some {| status := http.StatusOK;
              body := Text ("Hashing " +:+ strconv.Itoa mb +:+ " mb, " +:+
                            strconv.Itoa iterations +:+ " times took " +:+ elapsed env);
              slept := [];
              hashed := repeat (wrap64 (wrap64 (mb * 1024) * 1024))
                               (Z.to_nat iterations) |}).

(** [promhttp.HandlerFor(r, promhttp.HandlerOpts{})], line 113: the
    three collectors are registered with [r] (lines 50-53). *)
Definition metricsHandler : Handler := fun r env c =>
  (c, Some {| status := http.StatusOK; body := Exposition c;
              slept := []; hashed := [] |}).

(** [promhttp.InstrumentHandlerCounter(httpRequestsTotal, next)]: after
    [next] has returned, the child for the status it wrote and the
    request's method is incremented.  The increment is an ordinary
    statement after the call of [next], not a deferred one: when [next]
    panics it is not reached. *)
Definition InstrumentHandlerCounter (next : Handler) : Handler := fun r env c =>
  let '(c', res) := next r env c in
  match res with
  | Some done =>
      ({| version := version c';
          httpRequestsTotal :=
            prometheus.Inc [promhttp.sanitizeCode (status done);
                            promhttp.sanitizeMethod (http.Method (req r))]
                           (httpRequestsTotal c');
          httpRequestDuration := httpRequestDuration c' |}, res)
  | None => (c', None)
  end.

(** [promhttp.InstrumentHandlerDuration(
       httpRequestDuration.MustCurryWith(prometheus.Labels{"handler": handler}),
       next)]; the observation, too, comes after the call of [next]. *)
Definition InstrumentHandlerDuration (handler : string) (next : Handler) : Handler :=
  fun r env c =>
  let '(c', res) := next r env c in
  match res with
  | Some done =>
      ({| version := version c';
          httpRequestsTotal := httpRequestsTotal c';
          httpRequestDuration :=
            prometheus.Observe [promhttp.sanitizeCode (status done); handler;
                                promhttp.sanitizeMethod (http.Method (req r))]
                               (sinceNow env) (httpRequestDuration c') |}, res)
  | None => (c', None)
  end.

(** Lines 99-102. *)
Definition foundChain : Handler :=
  InstrumentHandlerDuration "found" (InstrumentHandlerCounter foundHandler).

(** The patterns of lines 105-113, parsed. *)
Definition patRoot := http.Pattern "/" [http.Multi].
Definition patErr := http.Pattern "/err" [http.Lit "err"].
Definition patInternalErr := http.Pattern "/internal-err" [http.Lit "internal-err"].
Definition patWaitSec := http.Pattern "/wait/{waitSec}" [http.Lit "wait"; http.Wild "waitSec"].
Definition patWait := http.Pattern "/wait/" [http.Lit "wait"; http.Multi].
Definition patHashMbIterations :=
  http.Pattern "/hash/{mb}/{iterations}" [http.Lit "hash"; http.Wild "mb"; http.Wild "iterations"].
Definition patHashMb := http.Pattern "/hash/{mb}" [http.Lit "hash"; http.Wild "mb"].
Definition patHash := http.Pattern "/hash/" [http.Lit "hash"; http.Multi].
Definition patMetrics := http.Pattern "/metrics" [http.Lit "metrics"].

(** Lines 104-113: the registrations, in order. *)
Definition mux : list (http.pattern * Handler) :=
  [ (patRoot, foundChain);
    (patErr, InstrumentHandlerCounter notfoundHandler);
    (patInternalErr, InstrumentHandlerCounter internalErrorHandler);
    (patWaitSec, InstrumentHandlerCounter waitHandler);
    (patWait, InstrumentHandlerCounter waitHandler);
    (patHashMbIterations, InstrumentHandlerCounter hashHandler);
    (patHashMb, InstrumentHandlerCounter hashHandler);
    (patHash, InstrumentHandlerCounter hashHandler);
    (patMetrics, metricsHandler) ].

(** What the server does with one request: a registered handler runs
    and returns, or it panics and the connection is closed without a
    response; or the mux answers itself, with a redirect to the given
    path and query or with its 404 page. *)
Inductive Outcome :=
| Served (p : http.pattern) (res : Result)
| Panicked (p : http.pattern)
| Redirected (location : string) (rawQuery : string)
| NotFoundPage.

(** [mux.ServeHTTP]: find the handler and run it. *)
Definition ServeHTTP (r : http.Request) (env : Env) (c : Collectors)
    : Collectors * Outcome :=
  match http.findHandler mux r with
  | http.Matched p h ms =>
      let '(c', res) := h {| req := r; pat := p; matches := ms |} env c in
      (c', match res with
           | Some done => Served p done
           | None => Panicked p
           end)
  | http.Redirect loc q => (c, Redirected loc q)
  | http.NotFound => (c, NotFoundPage)
  end.

(** The collectors after a sequence of requests has completed. *)
Fixpoint serveAll (rs : list (http.Request * Env)) (c : Collectors) : Collectors :=
  match rs with
  | [] => c
  | (r, env) :: rs' => serveAll rs' (fst (ServeHTTP r env c))
  end.

(** A request for a path that needs no escaping, without a query. *)
Definition request (method p : string) : http.Request :=
  {| http.Method := method;
     http.URL := {| url.Path := p; url.EscapedPath := p; url.RawQuery := "" |} |}.

Definition env0 : Env := {| elapsed := "1.5s"; sinceNow := 1500000000 |}.

(* ===================================================================== *)
(** ** Vocabulary of the statements *)
(* ===================================================================== *)

(** A random source that delivers only zero bytes, and one that
    delivers the bytes 0, 1, 2, ... in turn; used for examples. *)
Definition zeroSource : RandSource := fun _ => "000"%byte.
Definition countingSource : RandSource := fun k => sha256.byteOfZ (Z.of_nat k).

(** The digest to which the first [k] chunks of the random stream have
    been written, in order. *)
Definition hasherAfter (rnd : RandSource) (k : nat) : sha256.digest :=
  fold_left sha256.Write (map (randRead rnd) (seq 0 k)) sha256.New.

(** The relation between the state in which the loop of
    [hashRandomData] is entered and the state [j] iterations later:
    [j] more chunks were read and written to the hasher, and [h] is the
    sum taken after the last of them (nothing changed if [j = 0]). *)
Definition advanced (rnd : RandSource) (j : nat) (st st' : hashState) : Prop :=
  reads st' = (reads st + j)%nat /\
  hasher st' =
    fold_left sha256.Write (map (randRead rnd) (seq (reads st) j)) (hasher st) /\
  (j = O -> st' = st) /\
  (j <> O -> h st' = sha256.Sum (hasher st')).

(** Lowercase hexadecimal digits, and strings made of them. *)
Definition isLowerHex (c : ascii) : bool :=
  let v := byteVal c in
  ((48 <=? v) && (v <=? 57)) || ((97 <=? v) && (v <=? 102)).

Fixpoint allChars (P : ascii -> bool) (s : string) : bool :=
  match s with
  | EmptyString => true
  | String c s' => P c && allChars P s'
  end.

(** The matching of one pattern against the segments of a path, as
    the [ServeMux] documentation defines it: a literal matches the
    segment equal to it, a wildcard any one segment that is not the
    trailing slash, and a trailing slash in the pattern whatever is
    left of the path, provided something is. *)
Fixpoint segmentsMatch (pat : list http.segment) (segs : list string) : bool :=
  match pat, segs with
  | [], [] => true
  | http.Lit s :: pat', seg :: segs' => String.eqb s seg && segmentsMatch pat' segs'
  | http.Wild _ :: pat', seg :: segs' =>
      negb (String.eqb seg "/") && segmentsMatch pat' segs'
  | http.Multi :: _, _ :: _ => true
  | _, _ => false
  end.

Definition patternMatches (p : http.pattern) (path : string) : bool :=
  segmentsMatch (http.segments p) (http.pathSegments path).

(** No pattern registered in [mux] other than ["/"] matches the path. *)
Definition matchesNoOther (path : string) : bool :=
  forallb (fun e : http.pattern * Handler =>
             String.eqb (http.str (fst e)) "/" || negb (patternMatches (fst e) path))
          mux.

(** The request's path is in the form the mux does not redirect away
    from: equal to its cleaned form, or, for a [CONNECT] request (whose
    path is not cleaned), starting with a slash. *)
Definition canonical (r : http.Request) : bool :=
  let p := url.EscapedPath (http.URL r) in
  if String.eqb (http.Method r) "CONNECT" then String.prefix "/" p
  else String.eqb (http.cleanPath p) p.

(** The handler, run for the request as the mux dispatched it,
    returns rather than panics.  Whether it does depends neither on the
    clock nor on the collectors. *)
Definition returns (h : Handler) (ctx : Ctx) : bool :=
  match snd (h ctx env0 startup) with
  | Some _ => true
  | None => false
  end.

(** The request is dispatched to a handler registered for a pattern
    other than ["/metrics"], and the handler returns. *)
Definition counted (r : http.Request) : bool :=
  match http.findHandler mux r with
  | http.Matched p h ms =>
      negb (String.eqb (http.str p) "/metrics") &&
      returns h {| req := r; pat := p; matches := ms |}
  | _ => false
  end.

(** What [foundHandler] writes. *)
Definition hello : Result :=
  {| status := 200; body := Text "Hello from example application.";
     slept := []; hashed := [] |}.

(* ===================================================================== *)
(** ** Package [flag] and the start of [main] (main.go, lines 43-48, 115-120) *)
(* ===================================================================== *)

Module flag.

(** [strconv.ParseBool], which a boolean flag uses for [-name=value]. *)
Definition ParseBool (str : string) : option bool :=
  if existsb (String.eqb str) ["1"; "t"; "T"; "true"; "TRUE"; "True"] then Some true
  else if existsb (String.eqb str) ["0"; "f"; "F"; "false"; "FALSE"; "False"] then Some false
  else None.

(** The search of [parseOne] for the first [=] of a flag, which cannot
    be its first byte: the name, and the value if there is one. *)
Fixpoint cutAtEquals (s : string) : string * option string :=
  match s with
  | EmptyString => (EmptyString, None)
  | String c s' =>
      if Ascii.eqb c "=" then (EmptyString, Some s')
      else let '(name, value) := cutAtEquals s' in (String c name, value)
  end.

Definition nameAndValue (name : string) : string * option string :=
  match name with
  | EmptyString => (EmptyString, None)
  | String c rest => let '(n, v) := cutAtEquals rest in (String c n, v)
  end.

(** What is left of an argument once its one or two leading minus signs
    are removed; [None] when the argument is not a flag (it is shorter
    than two bytes or does not start with a minus sign) or is the
    terminator [--]. *)
Definition flagText (s : string) : option string :=
  match s with
  | String c1 (String c2 rest) =>
      if negb (Ascii.eqb c1 "-") then None
      else if Ascii.eqb c2 "-" then
        match rest with
        | EmptyString => None
        | _ => Some rest
        end
      else Some (String c2 rest)
  | _ => None
  end.

Definition badSyntax (name : string) : bool :=
  match name with
  | EmptyString => true
  | String c _ => Ascii.eqb c "-" || Ascii.eqb c "="
  end.

End flag.

(** The two variables that the flags of [main] set. *)
Record Config := { bind : string; enableH2c : bool }.

(** Lines 43-47: the values before parsing. *)
Definition defaults : Config := {| bind := ":8080"; enableH2c := false |}.

(** [flagset.Parse(os.Args[1:])] for the flag set of lines 45-47, with
    [flag.ExitOnError]: the configuration when parsing ends, or the
    status with which the process exits (0 after [-h] or [-help], 2
    after an error).  Parsing ends at the first argument that is not a
    flag and at [--]; a string flag takes its value from [-name=value]
    or from the next argument, a boolean flag only from [-name=value]. *)
Fixpoint Parse (args : list string) (cfg : Config) : Z + Config :=
  match args with
  | [] => inr cfg
  | s :: rest =>
      match flag.flagText s with
      | None => inr cfg
      | Some text =>
          if flag.badSyntax text then inl 2
          else
            let '(name, value) := flag.nameAndValue text in
            if String.eqb name "bind" then
              match value with
              | Some v => Parse rest {| bind := v; enableH2c := enableH2c cfg |}
              | None =>
                  match rest with
                  | v :: rest' => Parse rest' {| bind := v; enableH2c := enableH2c cfg |}
                  | [] => inl 2
                  end
              end
            else if String.eqb name "h2c" then
              match value with
              | Some v =>
                  match flag.ParseBool v with
                  | Some b => Parse rest {| bind := bind cfg; enableH2c := b |}
                  | None => inl 2
                  end
              | None => Parse rest {| bind := bind cfg; enableH2c := true |}
              end
            else if String.eqb name "help" || String.eqb name "h" then inl 0
            else inl 2
      end
  end.

(** Lines 115-120: the server that [main] starts.  [h2cHandler] tells
    whether its handler is [h2c.NewHandler(mux, ...)] rather than [mux]. *)
Record Server := { Addr : string; h2cHandler : bool }.

Definition serverFor (args : list string) : Z + Server :=
  match Parse args defaults with
  | inl code => inl code
  | inr cfg => inr {| Addr := bind cfg; h2cHandler := enableH2c cfg |}
  end.

(* ===================================================================== *)
(** ** Vocabulary of the further statements *)
(* ===================================================================== *)

(** Decimal numerals: non-empty strings of the digits [0] to [9], and
    the number such a string denotes. *)
Definition isDigit (c : ascii) : bool := (48 <=? byteVal c) && (byteVal c <=? 57).

Fixpoint decimalFrom (s : string) (acc : Z) : Z :=
  match s with
  | EmptyString => acc
  | String c s' => decimalFrom s' (acc * 10 + (byteVal c - 48))
  end.

Definition decimalValue (s : string) : Z := decimalFrom s 0.

Definition isDecimal (s : string) : bool :=
  negb (String.eqb s "") && allChars isDigit s.

(** Path segments that the mux passes on as they are: non-empty, and
    free of the slash, of the percent sign that starts an escape, and of
    the dot that path cleaning gives a meaning to. *)
Definition plainChar (c : ascii) : bool :=
  negb (Ascii.eqb c "/") && negb (Ascii.eqb c "%") && negb (Ascii.eqb c ".").

Definition isPlain (s : string) : bool :=
  negb (String.eqb s "") && allChars plainChar s.

(** A request with the given method, escaped path, decoded path and
    query. *)
Definition requestFor (method escaped decoded query : string) : http.Request :=
  {| http.Method := method;
     http.URL := {| url.Path := decoded; url.EscapedPath := escaped;
                    url.RawQuery := query |} |}.

(** The path made of the given segments, each preceded by a slash. *)
Fixpoint joinPath (segs : list string) : string :=
  match segs with
  | [] => EmptyString
  | seg :: segs' => String "/" (seg +:+ joinPath segs')
  end.

(** [sha256.Sum256]: the checksum of a message given at once. *)
Definition Sum256 (data : list byte) : list byte :=
  sha256.Sum (sha256.Write sha256.New data).

(** The first [n] bytes that the random source delivers. *)
Definition streamPrefix (rnd : RandSource) (n : nat) : list byte :=
  map rnd (seq 0 n).

(** The status that the handler registered for a pattern writes. *)
Definition statusOf (p : http.pattern) : Z :=
  if String.eqb (http.str p) "/err" then 404
  else if String.eqb (http.str p) "/internal-err" then 500
  else 200.

(** The labels under which a request is counted, if it is counted: it
    must reach a handler registered for a pattern other than
    ["/metrics"], and the handler must return. *)
Definition counterLabels (r : http.Request) : option (list string) :=
  match http.findHandler mux r with
  | http.Matched p h ms =>
      if String.eqb (http.str p) "/metrics" then None
      else if returns h {| req := r; pat := p; matches := ms |} then
        Some [promhttp.sanitizeCode (statusOf p);
              promhttp.sanitizeMethod (http.Method r)]
      else None
  | _ => None
  end.

(** The labels under which the duration of a request is observed, if it
    is: it must reach the chain registered for ["/"]. *)
Definition durationLabels (r : http.Request) : option (list string) :=
  match http.findHandler mux r with
  | http.Matched p _ _ =>
      if String.eqb (http.str p) "/" then
        Some ["200"; "found"; promhttp.sanitizeMethod (http.Method r)]
      else None
  | _ => None
  end.

(** Strings without a slash, and the elements that [path.Clean] keeps:
    not empty, and without a slash. *)
Definition slashFree (s : string) : bool :=
  allChars (fun c => negb (Ascii.eqb c Strings.slash)) s.

Definition goodElem (s : string) : bool := negb (String.eqb s "") && slashFree s.

(** The values [sanitizeMethod] can return. *)
Definition sanitizedMethods : list string :=
  map snd promhttp.knownMethods ++ ["unknown"].

(* ===================================================================== *)
(** * Properties *)
(* ===================================================================== *)

(** ** The library models on known values *)

Example Atoi_decimal :
  strconv.Atoi "42" = (42, None) /\ strconv.Atoi "-7" = (-7, None) /\
  strconv.Atoi "+3" = (3, None) /\ strconv.Atoi "007" = (7, None).
Proof. repeat split. Qed.

Example Atoi_syntax_errors :
  strconv.Atoi "" = (0, Some strconv.ErrSyntax) /\
  strconv.Atoi "abc" = (0, Some strconv.ErrSyntax) /\
  strconv.Atoi "12a" = (0, Some strconv.ErrSyntax) /\
  strconv.Atoi "-" = (0, Some strconv.ErrSyntax) /\
  strconv.Atoi "1_000" = (0, Some strconv.ErrSyntax).
Proof. repeat split. Qed.

Example Atoi_range_errors :
  strconv.Atoi "9223372036854775807" = (MaxInt64, None) /\
  strconv.Atoi "9223372036854775808" = (MaxInt64, Some strconv.ErrRange) /\
  strconv.Atoi "-9223372036854775808" = (MinInt64, None) /\
  strconv.Atoi "-9223372036854775809" = (MinInt64, Some strconv.ErrRange).
Proof. repeat split. Qed.

(** The test vectors of FIPS 180-2 for the empty message, for ["abc"]
    and for the 56-byte message, the last written in two parts. *)
Example sha256_empty :
  fmt.Sprintf_x (sha256.Sum sha256.New) =
  "e3b0c44298fc1c149afbf4c8996fb92427ae41e4649b934ca495991b7852b855".
Proof. vm_compute. reflexivity. Qed.

Example sha256_abc :
  fmt.Sprintf_x (sha256.Sum (sha256.Write sha256.New (list_byte_of_string "abc"))) =
  "ba7816bf8f01cfea414140de5dae2223b00361a396177a9cb410ff61f20015ad".
Proof. vm_compute. reflexivity. Qed.

Example sha256_two_writes :
  fmt.Sprintf_x
    (sha256.Sum
       (sha256.Write
          (sha256.Write sha256.New
             (list_byte_of_string "abcdbcdecdefdefgefghfghighijhijkijkljklm"))
          (list_byte_of_string "klmnlmnomnopnopq"))) =
  "248d6a61d20638b8e5c026930c3e6039a33ce45964ff2167f6ecedd419db06c1".
Proof. vm_compute. reflexivity. Qed.

Example cleanPath_examples :
  map http.cleanPath [""; "/"; "/a/b/"; "/a//b"; "//"; "/wait/."; "/a/../b/"; "/.."] =
  ["/"; "/"; "/a/b/"; "/a/b"; "/"; "/wait"; "/b/"; "/"].
Proof. reflexivity. Qed.

Example pathSegments_examples :
  map http.pathSegments ["/"; "/a/b/"; "/wait/%35"; "/a%2Fb/c"; "/x%zz"] =
  [["/"]; ["a"; "b"; "/"]; ["wait"; "5"]; ["a/b"; "c"]; ["x%zz"]].
Proof. reflexivity. Qed.

(** ** Go integers *)

Lemma wrap64_id (z : Z) : MinInt64 <= z <= MaxInt64 -> wrap64 z = z.
Proof.
  unfold wrap64, MinInt64, MaxInt64. intros Hz.
  rewrite Z.mod_small by lia. lia.
Qed.

Lemma wrap64_range (z : Z) : MinInt64 <= wrap64 z <= MaxInt64.
Proof.
  unfold wrap64, MinInt64, MaxInt64.
  pose proof (Z.mod_pos_bound (z + 2 ^ 63) (2 ^ 64) ltac:(lia)). lia.
Qed.

(** ** The hasher *)

Section Hasher.

Variable rnd : RandSource.

Lemma randRead_length (k : nat) : length (randRead rnd k) = bufferLen.
Proof. unfold randRead. now rewrite length_map, length_seq. Qed.

Lemma hashStep_bytesProcessed (st : hashState) :
  bytesProcessed (hashStep rnd st) = wrap64 (bytesProcessed st + 1024).
Proof. unfold hashStep. cbn [bytesProcessed]. now rewrite randRead_length. Qed.

Lemma hashStep_reads (st : hashState) : reads (hashStep rnd st) = S (reads st).
Proof. reflexivity. Qed.

Lemma hashStep_h (st : hashState) :
  h (hashStep rnd st) = sha256.Sum (hasher (hashStep rnd st)).
Proof. reflexivity. Qed.

Lemma hashLoop_done (fuel : nat) (N : Z) (st : hashState) :
  N <= bytesProcessed st -> hashLoop fuel rnd N st = Some st.
Proof.
  intros HN. destruct fuel; cbn [hashLoop];
    destruct (Z.ltb_spec (bytesProcessed st) N); auto; lia.
Qed.

Lemma hashLoop_step (fuel : nat) (N : Z) (st : hashState) :
  bytesProcessed st < N ->
  hashLoop (S fuel) rnd N st = hashLoop fuel rnd N (hashStep rnd st).
Proof.
  intros HN. cbn [hashLoop].
  destruct (Z.ltb_spec (bytesProcessed st) N); auto; lia.
Qed.

Lemma hashLoop_out_of_fuel (N : Z) (st : hashState) :
  bytesProcessed st < N -> hashLoop O rnd N st = None.
Proof.
  intros HN. cbn [hashLoop].
  destruct (Z.ltb_spec (bytesProcessed st) N); auto; lia.
Qed.

(** Once the loop has ended within some fuel, more fuel changes nothing. *)
Lemma hashLoop_more_fuel (N : Z) (fuel : nat) :
  forall (st st' : hashState) (extra : nat),
    hashLoop fuel rnd N st = Some st' ->
    hashLoop (fuel + extra) rnd N st = Some st'.
Proof.
  induction fuel as [|fuel IH]; intros st st' extra Hrun.
  - destruct (Z.lt_ge_cases (bytesProcessed st) N) as [Hlt|Hge].
    + rewrite hashLoop_out_of_fuel in Hrun by assumption. discriminate.
    + rewrite hashLoop_done in Hrun by assumption.
      rewrite hashLoop_done by assumption. assumption.
  - destruct (Z.lt_ge_cases (bytesProcessed st) N) as [Hlt|Hge].
    + rewrite hashLoop_step in Hrun by assumption.
      change (S fuel + extra)%nat with (S (fuel + extra)).
      rewrite hashLoop_step by assumption. now apply IH.
    + rewrite hashLoop_done in Hrun by assumption.
      rewrite hashLoop_done by assumption. assumption.
Qed.

(** Below the overflow threshold the loop ends, having read just
    enough chunks to reach the target. *)
Lemma hashLoop_runs (N : Z) (HN : N <= 2 ^ 63 - 1024) (n : nat) :
  forall st : hashState,
    MinInt64 <= bytesProcessed st ->
    N <= bytesProcessed st + 1024 * Z.of_nat n ->
    exists (st' : hashState) (j : nat),
      hashLoop n rnd N st = Some st' /\ (j <= n)%nat /\
      bytesProcessed st' = bytesProcessed st + 1024 * Z.of_nat j /\
      reads st' = (reads st + j)%nat /\
      N <= bytesProcessed st' /\
      (j <> O -> bytesProcessed st' < N + 1024).
Proof.
  induction n as [|n IH]; intros st Hlo Hreach.
  - exists st, O. rewrite hashLoop_done by lia.
    repeat split; auto; try lia; congruence.
  - destruct (Z.lt_ge_cases (bytesProcessed st) N) as [Hlt|Hge].
    + assert (Hb : bytesProcessed (hashStep rnd st) = bytesProcessed st + 1024).
      { rewrite hashStep_bytesProcessed. apply wrap64_id.
        unfold MinInt64, MaxInt64 in *. lia. }
      destruct (IH (hashStep rnd st)) as (st' & j & Hrun & Hj & Hbp & Hrd & Hge' & Hlt').
      { rewrite Hb. unfold MinInt64 in *. lia. }
      { rewrite Hb. lia. }
      exists st', (S j). rewrite hashLoop_step by assumption.
      split; [assumption|]. split; [lia|].
      split; [rewrite Hbp, Hb; lia|].
      split; [rewrite Hrd, hashStep_reads; lia|].
      split; [assumption|].
      intros _. destruct j as [|j]; [|apply Hlt'; discriminate].
      rewrite Hbp, Hb. lia.
    + exists st, O. rewrite hashLoop_done by lia.
      repeat split; auto; try lia; congruence.
Qed.

(** Whenever the loop ends, whatever the target, it has read some
    number of chunks, written them to the hasher in order, and summed
    after the last one. *)
Lemma hashLoop_sound (N : Z) (fuel : nat) :
  forall st st' : hashState,
    hashLoop fuel rnd N st = Some st' ->
    N <= bytesProcessed st' /\ exists j : nat, advanced rnd j st st'.
Proof.
  induction fuel as [|fuel IH]; intros st st' Hrun.
  - destruct (Z.lt_ge_cases (bytesProcessed st) N) as [Hlt|Hge].
    + rewrite hashLoop_out_of_fuel in Hrun by assumption. discriminate.
    + rewrite hashLoop_done in Hrun by assumption. injection Hrun as <-.
      split; [assumption|]. exists O. unfold advanced.
      rewrite Nat.add_0_r. repeat split; auto; congruence.
  - destruct (Z.lt_ge_cases (bytesProcessed st) N) as [Hlt|Hge].
    + rewrite hashLoop_step in Hrun by assumption.
      destruct (IH _ _ Hrun) as (Hge' & j & Hrd & Hh & Hzero & Hsum).
      split; [assumption|]. exists (S j). unfold advanced.
      split; [rewrite Hrd, hashStep_reads; lia|].
      split; [rewrite Hh; reflexivity|].
      split; [discriminate|]. intros _.
      destruct j as [|j]; [rewrite (Hzero eq_refl); apply hashStep_h|].
      apply Hsum. discriminate.
    + rewrite hashLoop_done in Hrun by assumption. injection Hrun as <-.
      split; [assumption|]. exists O. unfold advanced.
      rewrite Nat.add_0_r. repeat split; auto; congruence.
Qed.

(** With a target within 1023 of [MaxInt64] the counter wraps around
    before it can reach the target: it stays a multiple of 1024, and
    no multiple of 1024 that an [int] can hold is that large. *)
Lemma hashLoop_never_ends (N : Z) (HN : 2 ^ 63 - 1024 < N) (fuel : nat) :
  forall st : hashState,
    MinInt64 <= bytesProcessed st <= MaxInt64 ->
    bytesProcessed st mod 1024 = 0 ->
    hashLoop fuel rnd N st = None.
Proof.
  assert (Hmult : forall b, MinInt64 <= b <= MaxInt64 -> b mod 1024 = 0 -> b <= 2 ^ 63 - 1024).
  { intros b Hb Hm. unfold MinInt64, MaxInt64 in Hb.
    pose proof (Z.div_mod b 1024 ltac:(lia)) as Hd. rewrite Hm in Hd.
    assert (b / 1024 < 2 ^ 53) by (apply Z.div_lt_upper_bound; lia).
    lia. }
  induction fuel as [|fuel IH]; intros st Hb Hm.
  - apply hashLoop_out_of_fuel. specialize (Hmult _ Hb Hm). lia.
  - rewrite hashLoop_step by (specialize (Hmult _ Hb Hm); lia).
    apply IH.
    + rewrite hashStep_bytesProcessed. apply wrap64_range.
    + rewrite hashStep_bytesProcessed. unfold wrap64.
      pose proof (Z.div_mod (bytesProcessed st + 1024 + 2 ^ 63) (2 ^ 64) ltac:(lia)) as Hq.
      pose proof (Z.div_mod (bytesProcessed st) 1024 ltac:(lia)) as Hk.
      rewrite Hm in Hk.
      set (q := (bytesProcessed st + 1024 + 2 ^ 63) / 2 ^ 64) in *.
      set (k := bytesProcessed st / 1024) in *.
      replace ((bytesProcessed st + 1024 + 2 ^ 63) mod 2 ^ 64 - 2 ^ 63)
        with ((k + 1 - 2 ^ 54 * q) * 1024) by lia.
      apply Z.mod_mul. lia.
Qed.

End Hasher.

(** The checksum is 32 bytes long, whatever was written. *)
Lemma Sum_length (d : sha256.digest) : length (sha256.Sum d) = sha256.Size.
Proof.
  unfold sha256.Sum, sha256.checkSum. cbv zeta.
  rewrite !length_app. reflexivity.
Qed.

Lemma Sprintf_x_length (b : list byte) :
  String.length (fmt.Sprintf_x b) = (2 * length b)%nat.
Proof.
  induction b as [|c b IH]; [reflexivity|].
  cbn [fmt.Sprintf_x String.length length]. rewrite IH. lia.
Qed.

Lemma hex_digits_of_byte (c : byte) :
  isLowerHex (fmt.digit (Z.shiftr (sha256.byteToZ c) 4)) &&
  isLowerHex (fmt.digit (Z.land (sha256.byteToZ c) 15)) = true.
Proof. destruct c; reflexivity. Qed.

Lemma Sprintf_x_lower_hex (b : list byte) :
  allChars isLowerHex (fmt.Sprintf_x b) = true.
Proof.
  induction b as [|c b IH]; [reflexivity|].
  cbn [fmt.Sprintf_x allChars]. rewrite IH, andb_true_r.
  apply hex_digits_of_byte.
Qed.

(** Fuel that suffices for a target: the number of chunks it takes. *)
Lemma enough_fuel (N : Z) :
  0 <= N -> N <= 1024 * Z.of_nat (Z.to_nat ((N + 1023) / 1024)).
Proof.
  intros HN. rewrite Z2Nat.id by (apply Z.div_pos; lia).
  pose proof (Z.div_mod (N + 1023) 1024 ltac:(lia)).
  pose proof (Z.mod_pos_bound (N + 1023) 1024 ltac:(lia)). lia.
Qed.

(** Below the overflow threshold [hashRandomData] returns. *)
Lemma hashRandomData_returns (rnd : RandSource) (N : Z) :
  N <= 2 ^ 63 - 1024 ->
  exists (fuel : nat) (s : string), hashRandomData fuel rnd N = Some s.
Proof.
  intros Hmax.
  destruct (hashLoop_runs rnd N Hmax (Z.to_nat ((Z.max N 0 + 1023) / 1024)) hashInit)
    as (st & j & Hrun & _).
  { cbn. unfold MinInt64. lia. }
  { cbn [bytesProcessed hashInit]. pose proof (enough_fuel (Z.max N 0)). lia. }
  exists (Z.to_nat ((Z.max N 0 + 1023) / 1024)), (fmt.Sprintf_x (h st)).
  unfold hashRandomData. now rewrite Hrun.
Qed.

(** C6 (as amended).  For every target [N] with [1 <= N <= 2^63 - 1024]
    the loop of [hashRandomData] ends; when it ends the number of bytes
    processed is [1024 * ceil(N / 1024)], which is at least [N] and
    exceeds it by less than the buffer size, and that many bytes were
    read from the random source.  More fuel gives the same final state. *)
Theorem hashRandomData_terminates_below_overflow (rnd : RandSource) (N : Z) :
  1 <= N -> N <= 2 ^ 63 - 1024 ->
  exists (fuel : nat) (st : hashState),
    (forall extra : nat, hashLoop (fuel + extra) rnd N hashInit = Some st) /\
    bytesProcessed st = 1024 * ((N + 1023) / 1024) /\
    N <= bytesProcessed st < N + 1024 /\
    bytesProcessed st = 1024 * Z.of_nat (reads st).
Proof.
  intros Hpos Hmax.
  set (n := Z.to_nat ((N + 1023) / 1024)).
  assert (Hn : N <= 1024 * Z.of_nat n) by (apply enough_fuel; lia).
  destruct (hashLoop_runs rnd N Hmax n hashInit) as (st & j & Hrun & Hj & Hbp & Hrd & Hge & Hlt).
  { cbn. unfold MinInt64. lia. }
  { cbn [bytesProcessed hashInit]. lia. }
  cbn [bytesProcessed reads hashInit] in Hbp, Hrd.
  assert (Hj0 : j <> O) by (intros ->; cbn in Hbp; lia).
  specialize (Hlt Hj0).
  exists n, st. split; [|split; [|split]].
  - intros extra. now apply hashLoop_more_fuel.
  - assert (Hdiv : (N + 1023) / 1024 = Z.of_nat j).
    { symmetry.
      apply (Z.div_unique (N + 1023) 1024 (Z.of_nat j) (N + 1023 - 1024 * Z.of_nat j)); lia. }
    rewrite Hdiv, Hbp. lia.
  - lia.
  - rewrite Hbp, Hrd. reflexivity.
Qed.

Lemma hashRandomData_terminates_below_overflow_witness :
  1 <= 1025 /\ 1025 <= 2 ^ 63 - 1024 /\
  exists (fuel : nat) (st : hashState),
    (forall extra : nat, hashLoop (fuel + extra) zeroSource 1025 hashInit = Some st) /\
    bytesProcessed st = 1024 * ((1025 + 1023) / 1024) /\
    1025 <= bytesProcessed st < 1025 + 1024 /\
    bytesProcessed st = 1024 * Z.of_nat (reads st).
Proof.
  split; [lia|]. split; [lia|].
  apply (hashRandomData_terminates_below_overflow zeroSource 1025); lia.
Defined.

(** C6, the claim as stated, fails at the target [MaxInt64]: the byte
    counter wraps around to [MinInt64] before it reaches the target, so
    no number of iterations ends the loop. *)
Lemma hashRandomData_diverges_at_MaxInt64 :
  ~ exists (fuel : nat) (st : hashState),
      hashLoop fuel zeroSource MaxInt64 hashInit = Some st.
Proof.
  intros (fuel & st & Hrun).
  rewrite (hashLoop_never_ends zeroSource MaxInt64) in Hrun.
  - discriminate.
  - unfold MaxInt64. lia.
  - cbn. unfold MinInt64, MaxInt64. lia.
  - reflexivity.
Qed.

(** C7.  For every target [N >= 1] and every content of the random
    stream: whenever [hashRandomData] returns, its value is the
    lowercase hexadecimal encoding of the SHA-256 sum taken after the
    last chunk was written (the hasher holding all chunks read, in
    order), a string of exactly 64 lowercase hexadecimal characters;
    and it does return for every [N] up to [2^63 - 1024]. *)
Theorem hashRandomData_hex_digest (rnd : RandSource) (N : Z) :
  1 <= N ->
  (N <= 2 ^ 63 - 1024 -> exists (fuel : nat) (s : string), hashRandomData fuel rnd N = Some s) /\
  (forall (fuel : nat) (s : string),
     hashRandomData fuel rnd N = Some s ->
     exists st : hashState,
       hashLoop fuel rnd N hashInit = Some st /\
       (0 < reads st)%nat /\
       hasher st = hasherAfter rnd (reads st) /\
       s = fmt.Sprintf_x (sha256.Sum (hasher st)) /\
       String.length s = 64%nat /\
       allChars isLowerHex s = true).
Proof.
  intros Hpos. split.
  - apply hashRandomData_returns.
  - intros fuel s Hret. unfold hashRandomData in Hret.
    destruct (hashLoop fuel rnd N hashInit) as [st|] eqn:Hrun; [|discriminate].
    injection Hret as <-.
    destruct (hashLoop_sound rnd N fuel _ _ Hrun) as (Hge & j & Hrd & Hh & Hzero & Hsum).
    assert (Hj : j <> O).
    { intros ->. rewrite (Hzero eq_refl) in Hge. cbn in Hge. lia. }
    cbn [reads hasher hashInit] in Hrd, Hh. cbn [Nat.add] in Hrd.
    exists st. split; [reflexivity|]. split; [lia|].
    split; [rewrite Hrd; exact Hh|].
    rewrite (Hsum Hj). split; [reflexivity|]. split.
    + rewrite Sprintf_x_length, Sum_length. reflexivity.
    + apply Sprintf_x_lower_hex.
Qed.

Lemma hashRandomData_hex_digest_witness :
  1 <= 1025 /\
  hashRandomData 2 countingSource 1025 =
    Some "10fc3c51a152e90e5b90319b601d92ccf37290ef53c35ff92507687d8a911a08" /\
  (forall (fuel : nat) (s : string),
     hashRandomData fuel countingSource 1025 = Some s ->
     String.length s = 64%nat /\ allChars isLowerHex s = true).
Proof.
  split; [lia|]. split; [vm_compute; reflexivity|].
  intros fuel s Hret.
  destruct (hashRandomData_hex_digest countingSource 1025 ltac:(lia)) as [_ Hfmt].
  destruct (Hfmt fuel s Hret) as (st & _ & _ & _ & _ & Hlen & Hhex).
  split; assumption.
Defined.

(** C10.  For every target [N <= 0] the loop body of [hashRandomData]
    never runs: nothing is read or hashed, and the value returned is the
    empty string, whatever the fuel. *)
Theorem hashRandomData_nonpositive (rnd : RandSource) (N : Z) (fuel : nat) :
  N <= 0 ->
  hashLoop fuel rnd N hashInit = Some hashInit /\
  reads hashInit = O /\
  hashRandomData fuel rnd N = Some EmptyString.
Proof.
  intros HN.
  assert (Hrun : hashLoop fuel rnd N hashInit = Some hashInit)
    by (apply hashLoop_done; cbn; lia).
  split; [assumption|]. split; [reflexivity|].
  unfold hashRandomData. rewrite Hrun. reflexivity.
Qed.

Lemma hashRandomData_nonpositive_witness :
  -1048576 <= 0 /\
  hashLoop 0 zeroSource (-1048576) hashInit = Some hashInit /\
  reads hashInit = O /\
  hashRandomData 0 zeroSource (-1048576) = Some EmptyString.
Proof.
  split; [lia|]. apply (hashRandomData_nonpositive zeroSource (-1048576) 0). lia.
Defined.

(** ** The routing tree *)

Section Routing.

Context {H : Type}.
Implicit Types (n : http.routingNode H) (e : http.pattern * H).

Lemma leaf_In n e : http.leaf n = Some e -> In ([], e) n.
Proof.
  induction n as [|[[|sg segs] e'] n IH]; cbn; intros Hl; try discriminate.
  - injection Hl as ->. now left.
  - right. now apply IH.
Qed.

Lemma multiChild_In n e :
  http.multiChild n = Some e -> exists tl, In (http.Multi :: tl, e) n.
Proof.
  induction n as [|[[|[s|name|] segs] e'] n IH]; cbn; intros Hm; try discriminate;
    try (destruct (IH Hm) as [tl Htl]; exists tl; now right).
  injection Hm as ->. exists segs. now left.
Qed.

Lemma emptyChild_In n e rem :
  In (rem, e) (http.emptyChild n) -> exists name, In (http.Wild name :: rem, e) n.
Proof.
  induction n as [|[[|[s|name|] segs] e'] n IH]; cbn; intros Hin; try contradiction;
    try (destruct (IH Hin) as [nm Hnm]; exists nm; now right).
  destruct Hin as [Heq|Hin].
  - injection Heq as -> ->. exists name. now left.
  - destruct (IH Hin) as [nm Hnm]. exists nm. now right.
Qed.

Lemma literalChild_In n e rem key :
  In (rem, e) (http.literalChild key n) -> In (http.Lit key :: rem, e) n.
Proof.
  induction n as [|[[|[s|name|] segs] e'] n IH]; cbn; intros Hin; try contradiction;
    try (right; now apply IH).
  destruct (String.eqb_spec s key) as [->|Hne].
  - destruct Hin as [Heq|Hin]; [injection Heq as -> ->; now left|right; now apply IH].
  - right. now apply IH.
Qed.

(** What the tree returns is registered at the node, and its pattern
    matches the path. *)
Lemma matchPath_sound (segs : list string) :
  forall n ms e ms',
    http.matchPath segs n ms = Some (e, ms') ->
    exists rem, In (rem, e) n /\ segmentsMatch rem segs = true.
Proof.
  induction segs as [|seg rest IH]; intros n ms e ms' Hm; cbn [http.matchPath] in Hm.
  - destruct (http.leaf n) as [e0|] eqn:Hl; [|discriminate].
    injection Hm as -> _. exists []. split; [now apply leaf_In|reflexivity].
  - destruct (http.matchPath rest (http.findChild seg n) ms) as [r|] eqn:Hlit.
    { injection Hm as ->. destruct (IH _ _ _ _ Hlit) as (rem & Hin & Hrem).
      unfold http.findChild in Hin.
      destruct (String.eqb_spec seg "") as [->|Hne].
      - destruct (emptyChild_In _ _ _ Hin) as [nm Hnm].
        exists (http.Wild nm :: rem). split; [assumption|]. cbn. assumption.
      - exists (http.Lit seg :: rem). split; [now apply literalChild_In|].
        cbn. now rewrite String.eqb_refl. }
    destruct (String.eqb seg "/") eqn:Hslash.
    + destruct (http.multiChild n) as [e0|] eqn:Hmulti; [|discriminate].
      injection Hm as -> _. destruct (multiChild_In _ _ Hmulti) as [tl Htl].
      exists (http.Multi :: tl). split; [assumption|reflexivity].
    + destruct (http.matchPath rest (http.emptyChild n) (ms ++ [seg])) as [r|] eqn:Hwild.
      { injection Hm as ->. destruct (IH _ _ _ _ Hwild) as (rem & Hin & Hrem).
        destruct (emptyChild_In _ _ _ Hin) as [nm Hnm].
        exists (http.Wild nm :: rem). split; [assumption|].
        cbn. now rewrite Hslash. }
      destruct (http.multiChild n) as [e0|] eqn:Hmulti; [|discriminate].
      injection Hm as -> _. destruct (multiChild_In _ _ Hmulti) as [tl Htl].
      exists (http.Multi :: tl). split; [assumption|reflexivity].
Qed.

Variable regs : list (http.pattern * H).

Lemma treeMatch_sound (p : string) (pat : http.pattern) (h : H) (ms : list string) :
  http.treeMatch regs p = Some (pat, h, ms) ->
  In (pat, h) regs /\ patternMatches pat p = true.
Proof.
  unfold http.treeMatch. intros Hm.
  destruct (matchPath_sound _ _ _ _ _ Hm) as (rem & Hin & Hrem).
  unfold http.treeOf in Hin. apply in_map_iff in Hin.
  destruct Hin as ([pat' h'] & Heq & Hin). injection Heq as <- <- <-.
  split; assumption.
Qed.

(** A request that reaches a registered handler reaches the one the
    tree matches for its escaped path: every other path is redirected. *)
Lemma findHandler_Matched (r : http.Request) (pat : http.pattern) (h : H)
    (ms : list string) :
  http.findHandler regs r = http.Matched pat h ms ->
  http.treeMatch regs (url.EscapedPath (http.URL r)) = Some (pat, h, ms).
Proof.
  unfold http.findHandler, http.matchOrRedirect.
  set (p := url.EscapedPath (http.URL r)).
  assert (Hof : forall o : option (http.pattern * H * list string),
            http.ofMatch o = http.Matched pat h ms -> o = Some (pat, h, ms)).
  { intros [[[pat' h'] ms']|]; cbn; [|discriminate]. now intros [= -> -> ->]. }
  destruct (String.eqb (http.Method r) "CONNECT").
  - destruct (negb (http.exactMatch (http.treeMatch regs p) p) &&
              negb (Strings.endsWithSlash p));
      [destruct (http.exactMatch (http.treeMatch regs (p +:+ "/")) (p +:+ "/"))|];
      cbn [fst]; try discriminate; apply Hof.
  - set (q := http.cleanPath p).
    destruct (negb (http.exactMatch (http.treeMatch regs q) q) &&
              negb (Strings.endsWithSlash q));
      [destruct (http.exactMatch (http.treeMatch regs (q +:+ "/")) (q +:+ "/"))|];
      try discriminate;
      (destruct (String.eqb_spec q p) as [->|Hne]; cbn [negb]; [apply Hof|discriminate]).
Qed.

End Routing.

(** ** The matches recorded for a wildcard pattern *)

Lemma cutAtSlash_rest (s a b : string) :
  Strings.cutAtSlash s = (a, b) ->
  (b = EmptyString \/ exists b', b = String "/" b') /\
  (String.length b <= String.length s)%nat /\
  (b = EmptyString -> a = s).
Proof.
  revert a b. induction s as [|c s IH]; intros a b Hcut; cbn [Strings.cutAtSlash] in Hcut.
  - injection Hcut as <- <-. repeat split; [now left|apply Nat.le_refl].
  - destruct (Ascii.eqb_spec c Strings.slash) as [->|Hne].
    + injection Hcut as <- <-. repeat split; [right; now eexists|apply Nat.le_refl|discriminate].
    + destruct (Strings.cutAtSlash s) as [a' b'] eqn:Hs. injection Hcut as <- <-.
      destruct (IH a' b' eq_refl) as (Hb & Hlen & Ha). repeat split.
      * assumption.
      * cbn [String.length]. now apply Nat.le_le_succ_r.
      * intros Hnil. now rewrite (Ha Hnil).
Qed.

Lemma PathUnescape_nonempty (s : string) :
  url.PathUnescape s = Some EmptyString -> s = EmptyString.
Proof.
  destruct s as [|c s]; [reflexivity|]. cbn [url.PathUnescape].
  destruct (Ascii.eqb c "%").
  - destruct s as [|a [|b s]]; try discriminate.
    destruct (url.unhex a), (url.unhex b), (url.PathUnescape s); discriminate.
  - destruct (url.PathUnescape s); discriminate.
Qed.

Lemma pathUnescape_nonempty (s : string) :
  http.pathUnescape s = EmptyString -> s = EmptyString.
Proof.
  unfold http.pathUnescape. destruct (url.PathUnescape s) as [u|] eqn:Hu.
  - intros ->. now apply PathUnescape_nonempty.
  - trivial.
Qed.

(** Below the first segment, the walk over a path never ends with an
    empty segment: an empty segment comes from two slashes in a row,
    and the second of them starts what is left of the path. *)
Lemma segmentsFrom_last (fuel : nat) :
  forall p : string,
    (String.length p <= fuel)%nat ->
    p = EmptyString \/ (exists p', p = String "/" p') ->
    last (http.segmentsFrom fuel p) <> Some EmptyString.
Proof.
  induction fuel as [|fuel IH]; intros p Hlen Hp; cbn [http.segmentsFrom].
  - discriminate.
  - destruct (String.eqb_spec p "") as [->|Hne]; [discriminate|].
    destruct Hp as [->|[p' ->]]; [contradiction|].
    unfold http.firstSegment.
    destruct (String.eqb_spec (String "/" p') "/") as [Heq|Hrest].
    + destruct fuel; cbn [http.segmentsFrom String.eqb]; discriminate.
    + destruct (Strings.cutAtSlash p') as [seg rest] eqn:Hcut.
      destruct (cutAtSlash_rest _ _ _ Hcut) as (Hr & Hl & Hseg).
      cbn [String.length] in Hlen. apply le_S_n in Hlen.
      rewrite last_cons.
      destruct (last (http.segmentsFrom fuel rest)) as [y|] eqn:Hlast.
      * intros [= ->]. apply (IH rest); [now apply (Nat.le_trans _ _ _ Hl)|assumption|assumption].
      * intros [= Hu]. apply pathUnescape_nonempty in Hu. subst seg.
        destruct Hr as [->|[r' ->]].
        -- rewrite <- (Hseg eq_refl) in Hrest. now apply Hrest.
        -- destruct fuel as [|fuel']; [cbn [String.length] in Hl; lia|].
           cbn [http.segmentsFrom] in Hlast.
           change (String.eqb (String "/" r') "") with false in Hlast.
           cbn iota in Hlast. destruct (http.firstSegment (String "/" r')) as [s0 r0].
           cbn iota in Hlast. rewrite last_cons in Hlast.
           destruct (last _); discriminate Hlast.
Qed.

Lemma pathSegments_last (p s : string) (l : list string) :
  http.pathSegments p = s :: l -> last l <> Some EmptyString.
Proof.
  unfold http.pathSegments. destruct p as [|c p']; [discriminate|].
  cbn [String.length http.segmentsFrom].
  change (String.eqb (String c p') "") with false. cbn iota.
  unfold http.firstSegment.
  destruct (String.eqb (String c p') "/").
  - intros [= <- <-]. destruct (String.length p'); cbn [http.segmentsFrom String.eqb]; discriminate.
  - destruct (Strings.cutAtSlash p') as [seg rest] eqn:Hcut.
    destruct (cutAtSlash_rest _ _ _ Hcut) as (Hr & Hl & _).
    intros [= <- <-]. now apply segmentsFrom_last.
Qed.

(** [/wait/{waitSec}] and [/hash/{mb}] are matched with exactly one
    match recorded, the second segment of the path. *)
Lemma treeMatch_waitSec (p : string) (h : Handler) (ms : list string) :
  http.treeMatch mux p = Some (patWaitSec, h, ms) ->
  exists v, http.pathSegments p = ["wait"; v] /\ ms = [v].
Proof.
  intros Hm. destruct (treeMatch_sound _ _ _ _ _ Hm) as [_ Hmatch].
  unfold patternMatches in Hmatch. unfold http.treeMatch in Hm.
  pose proof (pathSegments_last p) as Hlast.
  destruct (http.pathSegments p) as [|s1 [|x [|y segs]]];
    cbn [segmentsMatch http.segments patWaitSec] in Hmatch;
    try discriminate;
    try (destruct (String.eqb "wait" s1); discriminate);
    try (destruct (String.eqb "wait" s1), (String.eqb x "/"); discriminate).
  destruct (String.eqb_spec "wait" s1) as [<-|]; [|discriminate].
  destruct (String.eqb x "/") eqn:Hslash; [discriminate|].
  destruct (String.eqb_spec x "") as [->|Hne].
  - now destruct (Hlast _ _ eq_refl).
  - apply String.eqb_neq in Hne.
    cbn in Hm. rewrite Hslash in Hm. unfold http.findChild in Hm. rewrite Hne in Hm.
    cbn in Hm. injection Hm as _ <-. now exists x.
Qed.

Lemma treeMatch_hashMb (p : string) (h : Handler) (ms : list string) :
  http.treeMatch mux p = Some (patHashMb, h, ms) ->
  exists v, http.pathSegments p = ["hash"; v] /\ ms = [v].
Proof.
  intros Hm. destruct (treeMatch_sound _ _ _ _ _ Hm) as [_ Hmatch].
  unfold patternMatches in Hmatch. unfold http.treeMatch in Hm.
  pose proof (pathSegments_last p) as Hlast.
  destruct (http.pathSegments p) as [|s1 [|x [|y segs]]];
    cbn [segmentsMatch http.segments patHashMb] in Hmatch;
    try discriminate;
    try (destruct (String.eqb "hash" s1); discriminate);
    try (destruct (String.eqb "hash" s1), (String.eqb x "/"); discriminate).
  destruct (String.eqb_spec "hash" s1) as [<-|]; [|discriminate].
  destruct (String.eqb x "/") eqn:Hslash; [discriminate|].
  destruct (String.eqb_spec x "") as [->|Hne].
  - now destruct (Hlast _ _ eq_refl).
  - apply String.eqb_neq in Hne.
    cbn in Hm. rewrite Hslash in Hm. unfold http.findChild in Hm. rewrite Hne in Hm.
    cbn in Hm. injection Hm as _ <-. now exists x.
Qed.

(** [/hash/{mb}/{iterations}] is matched with two matches recorded, the
    second and the third segment of the path, unless the second segment
    is empty: then only the third is recorded. *)
Lemma treeMatch_hashMbIterations (p : string) (h : Handler) (ms : list string) :
  http.treeMatch mux p = Some (patHashMbIterations, h, ms) ->
  exists a b, http.pathSegments p = ["hash"; a; b] /\
              ms = if String.eqb a "" then [b] else [a; b].
Proof.
  intros Hm. destruct (treeMatch_sound _ _ _ _ _ Hm) as [_ Hmatch].
  unfold patternMatches in Hmatch. unfold http.treeMatch in Hm.
  pose proof (pathSegments_last p) as Hlast.
  destruct (http.pathSegments p) as [|s1 [|a [|b [|z segs]]]];
    cbn [segmentsMatch http.segments patHashMbIterations] in Hmatch;
    try discriminate;
    try (destruct (String.eqb "hash" s1); discriminate);
    try (destruct (String.eqb "hash" s1), (String.eqb a "/"); discriminate);
    try (destruct (String.eqb "hash" s1), (String.eqb a "/"), (String.eqb b "/");
         discriminate).
  destruct (String.eqb_spec "hash" s1) as [<-|]; [|discriminate].
  destruct (String.eqb a "/") eqn:Ha; [discriminate|].
  destruct (String.eqb b "/") eqn:Hb; [discriminate|].
  destruct (String.eqb_spec b "") as [->|Hne].
  { now destruct (Hlast _ _ eq_refl). }
  apply String.eqb_neq in Hne. exists a, b. split; [reflexivity|].
  cbn in Hm. rewrite ?Ha, ?Hb in Hm. unfold http.findChild in Hm.
  rewrite ?Hne in Hm. cbn in Hm. rewrite ?Ha, ?Hb, ?Hne in Hm.
  destruct (String.eqb a ""); cbn in Hm; rewrite ?Ha, ?Hb, ?Hne in Hm; cbn in Hm;
    injection Hm as _ <-; reflexivity.
Qed.

(** ** The collectors *)

Lemma total_empty : prometheus.total ∅ = O.
Proof. apply map_fold_empty. Qed.

Lemma total_Inc (labels : list string) (vec : prometheus.CounterVec) :
  prometheus.total (prometheus.Inc labels vec) = S (prometheus.total vec).
Proof.
  unfold prometheus.total, prometheus.Inc.
  destruct (vec !! labels) as [v|] eqn:Hl; cbn [default from_option id].
  - rewrite <- insert_delete_eq.
    rewrite map_fold_insert_L; [|intros; cbn beta; lia|apply lookup_delete_eq].
    rewrite (map_fold_delete_L _ _ labels v vec); [cbn beta; lia|intros; cbn beta; lia|assumption].
  - rewrite map_fold_insert_L; [cbn beta; lia|intros; cbn beta; lia|assumption].
Qed.

Lemma observations_Observe (labels : list string) (v : Z) (vec : prometheus.HistogramVec) :
  prometheus.observations (prometheus.Observe labels v vec) =
  S (prometheus.observations vec).
Proof.
  unfold prometheus.observations, prometheus.Observe.
  destruct (vec !! labels) as [obs|] eqn:Hl; cbn [default from_option id].
  - rewrite <- insert_delete_eq.
    rewrite map_fold_insert_L; [|intros; cbn beta; lia|apply lookup_delete_eq].
    rewrite (map_fold_delete_L _ _ labels obs vec); [cbn; lia|intros; cbn beta; lia|assumption].
  - rewrite map_fold_insert_L; [reflexivity|intros; cbn beta; lia|assumption].
Qed.

(** ** The registrations *)

(** A registered handler runs to completion unless [r.PathValue]
    panics in it. *)
Ltac run_handler :=
  unfold foundChain, InstrumentHandlerDuration, InstrumentHandlerCounter,
    foundHandler, notfoundHandler, internalErrorHandler, waitHandler, hashHandler,
    metricsHandler, returns;
  repeat match goal with
         | |- context [http.PathValue ?p ?ms ?name] =>
             destruct (http.PathValue p ms name)
         end.

(** What each of the nine registered handlers does to the collectors:
    all but the one for ["/metrics"] increment the request counter when
    they return, for the status written and the method; only the one
    for ["/"] observes a duration; a handler that panics leaves the
    collectors as they were. *)
Lemma registered_effect (p : http.pattern) (h : Handler) :
  In (p, h) mux ->
  forall (r : Ctx) (env : Env) (c : Collectors),
    version (fst (h r env c)) = version c /\
    httpRequestsTotal (fst (h r env c)) =
      match snd (h r env c) with
      | Some done =>
          if String.eqb (http.str p) "/metrics" then httpRequestsTotal c
          else prometheus.Inc [promhttp.sanitizeCode (status done);
                               promhttp.sanitizeMethod (http.Method (req r))]
                              (httpRequestsTotal c)
      | None => httpRequestsTotal c
      end /\
    httpRequestDuration (fst (h r env c)) =
      (if String.eqb (http.str p) "/" then
         prometheus.Observe ["200"; "found"; promhttp.sanitizeMethod (http.Method (req r))]
                            (sinceNow env) (httpRequestDuration c)
       else httpRequestDuration c).
Proof.
  intros Hin r env c. unfold mux in Hin. cbn [In] in Hin.
  repeat (destruct Hin as [Heq|Hin];
          [injection Heq as <- <-; run_handler; repeat split; reflexivity|]).
  contradiction.
Qed.

(** Whether a registered handler returns depends neither on the clock
    nor on the collectors. *)
Lemma registered_returns (p : http.pattern) (h : Handler) :
  In (p, h) mux ->
  forall (r : Ctx) (env : Env) (c : Collectors),
    returns h r = match snd (h r env c) with Some _ => true | None => false end.
Proof.
  intros Hin r env c. unfold mux in Hin. cbn [In] in Hin.
  repeat (destruct Hin as [Heq|Hin];
          [injection Heq as <- <-; run_handler; reflexivity|]).
  contradiction.
Qed.

(** The handler registered for ["/"], and the two registered for the
    wait route. *)
Lemma registered_root (p : http.pattern) (h : Handler) :
  In (p, h) mux -> String.eqb (http.str p) "/" = true ->
  p = patRoot /\ h = foundChain.
Proof.
  intros Hin Hstr. unfold mux in Hin. cbn [In] in Hin.
  repeat (destruct Hin as [Heq|Hin];
          [injection Heq as <- <-; first [split; reflexivity | discriminate Hstr]|]).
  contradiction.
Qed.

Lemma registered_wait (p : http.pattern) (h : Handler) :
  In (p, h) mux -> p = patWaitSec \/ p = patWait ->
  h = InstrumentHandlerCounter waitHandler.
Proof.
  intros Hin Hp. unfold mux in Hin. cbn [In] in Hin.
  repeat (destruct Hin as [Heq|Hin];
          [injection Heq as <- <-;
           first [reflexivity | destruct Hp as [Hp|Hp]; discriminate Hp]|]).
  contradiction.
Qed.

Lemma ServeHTTP_counts (r : http.Request) (env : Env) (c : Collectors) :
  prometheus.total (httpRequestsTotal (fst (ServeHTTP r env c))) =
  (prometheus.total (httpRequestsTotal c) + (if counted r then 1 else 0))%nat.
Proof.
  unfold ServeHTTP, counted.
  destruct (http.findHandler mux r) as [p h ms| |] eqn:Hf; cbn [fst]; try lia.
  apply findHandler_Matched, treeMatch_sound in Hf. destruct Hf as [Hin _].
  destruct (registered_effect p h Hin {| req := r; pat := p; matches := ms |} env c)
    as (_ & Hcnt & _).
  rewrite (registered_returns p h Hin _ env c).
  destruct (h {| req := r; pat := p; matches := ms |} env c) as [c' [done|]].
  - cbn [fst snd] in *. rewrite Hcnt.
    destruct (String.eqb (http.str p) "/metrics"); cbn [negb andb]; [lia|].
    rewrite total_Inc. lia.
  - cbn [fst snd] in *. rewrite Hcnt, andb_false_r. lia.
Qed.

Lemma serveAll_counts (rs : list (http.Request * Env)) :
  forall c : Collectors,
    prometheus.total (httpRequestsTotal (serveAll rs c)) =
    (prometheus.total (httpRequestsTotal c) +
     length (List.filter (fun x => counted (fst x)) rs))%nat.
Proof.
  induction rs as [|[r env] rs IH]; intros c; cbn [serveAll List.filter length fst].
  - lia.
  - rewrite IH, ServeHTTP_counts. destruct (counted r); cbn [length]; lia.
Qed.

(** C1 (as amended).  After any sequence of requests, the sum of
    [http_requests_total] over all its (code, method) label
    combinations is the number of requests in the sequence that were
    dispatched to a handler registered for a pattern other than
    ["/metrics"] and whose handler returned: a request to [/metrics],
    one the mux answers itself with a redirect, and one on which the
    handler panics is not counted. *)
Theorem requests_total_counts_instrumented (rs : list (http.Request * Env)) :
  prometheus.total (httpRequestsTotal (serveAll rs startup)) =
  length (List.filter (fun x => counted (fst x)) rs).
Proof.
  rewrite serveAll_counts. cbn [httpRequestsTotal startup].
  rewrite total_empty. reflexivity.
Qed.

(** C1, the claim as stated, fails for a single request to [/metrics]:
    the counter still sums to 0. *)
Lemma metrics_request_not_counted :
  prometheus.total
    (httpRequestsTotal (serveAll [(request "GET" "/metrics", env0)] startup))
  <> length [(request "GET" "/metrics", env0)].
Proof. vm_compute. discriminate. Qed.

(** C3 (as amended).  Only the chain registered for ["/"] records in
    [http_request_duration_seconds]: a request it serves adds one
    observation under code 200, handler ["found"] and the request's
    method; a request served by any other registration, or answered by
    the mux itself, leaves the histogram as it was. *)
Theorem duration_recorded_for_found_only (r : http.Request) (env : Env) (c : Collectors) :
  httpRequestDuration (fst (ServeHTTP r env c)) =
  match http.findHandler mux r with
  | http.Matched p _ _ =>
      if String.eqb (http.str p) "/" then
        prometheus.Observe ["200"; "found"; promhttp.sanitizeMethod (http.Method r)]
                           (sinceNow env) (httpRequestDuration c)
      else httpRequestDuration c
  | _ => httpRequestDuration c
  end.
Proof.
  unfold ServeHTTP.
  destruct (http.findHandler mux r) as [p h ms| |] eqn:Hf; cbn [fst]; try reflexivity.
  apply findHandler_Matched, treeMatch_sound in Hf. destruct Hf as [Hin _].
  destruct (registered_effect p h Hin {| req := r; pat := p; matches := ms |} env c)
    as (_ & _ & Hdur).
  destruct (h {| req := r; pat := p; matches := ms |} env c) as [c' res].
  exact Hdur.
Qed.

(** C3, the claim as stated, fails for the routes other than ["/"]:
    after one request to each of them the histogram has no observation. *)
Lemma other_routes_leave_histogram_empty :
  prometheus.observations
    (httpRequestDuration
       (serveAll [(request "GET" "/err", env0); (request "GET" "/internal-err", env0);
                  (request "GET" "/wait/1", env0); (request "GET" "/hash/1/1", env0);
                  (request "GET" "/metrics", env0)] startup))
  = O.
Proof. vm_compute. reflexivity. Qed.

(** C8.  A request for [/err] is answered with status 404 and an empty
    body, one for [/internal-err] with status 500 and an empty body,
    whatever the method, the query, and the state of the collectors. *)
Theorem err_routes_fixed_status
    (method decodedPath query : string) (env : Env) (c : Collectors) :
  snd (ServeHTTP {| http.Method := method;
                    http.URL := {| url.Path := decodedPath; url.EscapedPath := "/err";
                                   url.RawQuery := query |} |} env c)
  = Served patErr {| status := 404; body := Text ""; slept := []; hashed := [] |}
  /\
  snd (ServeHTTP {| http.Method := method;
                    http.URL := {| url.Path := decodedPath;
                                   url.EscapedPath := "/internal-err";
                                   url.RawQuery := query |} |} env c)
  = Served patInternalErr {| status := 500; body := Text ""; slept := []; hashed := [] |}.
Proof.
  unfold ServeHTTP, http.findHandler. cbn [http.Method http.URL url.EscapedPath].
  destruct (String.eqb method "CONNECT"); split; reflexivity.
Qed.

(** ** Parsing with a default *)

(** A syntax error comes with the value 0 (a range error does not: it
    comes with the nearest bound of [int]). *)
Lemma Atoi_syntax_zero (s : string) :
  snd (strconv.Atoi s) = Some strconv.ErrSyntax -> fst (strconv.Atoi s) = 0.
Proof.
  unfold strconv.Atoi.
  destruct ((0 <? Z.of_nat (String.length s)) && (Z.of_nat (String.length s) <? 19)).
  - destruct s as [|c rest]; [reflexivity|].
    destruct (strconv.isSign c && _); [reflexivity|].
    destruct (strconv.atoiDigits _ 0); [discriminate|reflexivity].
  - unfold strconv.ParseInt. destruct s as [|c rest]; [reflexivity|].
    destruct (strconv.ParseUint _) as [un [[]|]]; [reflexivity| |];
      repeat match goal with
             | |- context [if ?b then _ else _] => destruct b
             end; cbn; congruence.
Qed.

Lemma atoiOr5_default (s : string) : fst (strconv.Atoi s) < 1 -> atoiOr5 s = 5.
Proof. unfold atoiOr5. intros Hv. destruct (Z.ltb_spec (fst (strconv.Atoi s)) 1); lia. Qed.

Lemma atoiOr5_keeps (s : string) :
  1 <= fst (strconv.Atoi s) -> atoiOr5 s = fst (strconv.Atoi s).
Proof. unfold atoiOr5. intros Hv. destruct (Z.ltb_spec (fst (strconv.Atoi s)) 1); lia. Qed.

Lemma atoiOr5_syntax_error (s : string) :
  snd (strconv.Atoi s) = Some strconv.ErrSyntax -> atoiOr5 s = 5.
Proof. intros He. apply atoiOr5_default. rewrite (Atoi_syntax_zero s He). lia. Qed.

Lemma atoiOr5_positive (s : string) : 1 <= atoiOr5 s.
Proof. unfold atoiOr5. destruct (Z.ltb_spec (fst (strconv.Atoi s)) 1); lia. Qed.

(** ** The wait route *)

(** What the wait handler does with the parameter it is given: the
    default of 5 seconds for a missing, syntactically invalid or
    non-positive parameter, and the number of seconds parsed as long as
    the product with [time.Second] fits a [Duration]. *)
Lemma waitHandler_sleep (r : Ctx) (env : Env) (c : Collectors) (str : string) :
  http.PathValue (pat r) (matches r) "waitSec" = Some str ->
  exists res,
    snd (waitHandler r env c) = Some res /\
    slept res = [wrap64 (atoiOr5 str * time.Second)] /\
    (fst (strconv.Atoi str) < 1 -> slept res = [5 * time.Second]) /\
    (1 <= fst (strconv.Atoi str) <= 9223372036 ->
     slept res = [fst (strconv.Atoi str) * time.Second]).
Proof.
  intros Hstr. unfold waitHandler. rewrite Hstr. eexists. split; [reflexivity|].
  cbn [slept]. split; [reflexivity|]. split; intros Hv.
  - rewrite atoiOr5_default by assumption. reflexivity.
  - rewrite atoiOr5_keeps by lia. f_equal. apply wrap64_id.
    unfold MinInt64, MaxInt64, time.Second. lia.
Qed.

(** C2, at the failing inputs.  [Atoi] fails on ["99999999999999999999"]
    with a range error and the value [MaxInt64], which is not below 1:
    the handler does not fall back to 5 seconds, the duration overflows
    to -1 s and [time.Sleep] returns at once.  ["9223372037"] parses
    without error, and its duration overflows as well. *)
Theorem wait_range_error_not_defaulted :
  strconv.Atoi "99999999999999999999" = (MaxInt64, Some strconv.ErrRange) /\
  snd (ServeHTTP (request "GET" "/wait/99999999999999999999") env0 startup) =
    Served patWaitSec
      {| status := 200; body := Text "Waited for 99999999999999999999 seconds.";
         slept := [-1000000000]; hashed := [] |} /\
  time.Sleep (-1000000000) = 0 /\
  strconv.Atoi "9223372037" = (9223372037, None) /\
  snd (ServeHTTP (request "GET" "/wait/9223372037") env0 startup) =
    Served patWaitSec
      {| status := 200; body := Text "Waited for 9223372037 seconds.";
         slept := [-9223372036709551616]; hashed := [] |}.
Proof. repeat split; vm_compute; reflexivity. Qed.

(** C5.  A request dispatched to either registration of the wait route
    is answered with status 200 and the body
    ["Waited for <literal> seconds."], where [<literal>] is the value of
    the [waitSec] path parameter as the handler reads it: the second
    segment of the path for [/wait/{waitSec}], the empty string for
    [/wait/].  It is the string itself, not the number of seconds
    slept.  Reading the parameter never panics on this route. *)
Theorem wait_body_echoes_literal
    (r : http.Request) (env : Env) (c : Collectors)
    (p : http.pattern) (h : Handler) (ms : list string) :
  http.findHandler mux r = http.Matched p h ms ->
  p = patWaitSec \/ p = patWait ->
  exists literal,
    http.PathValue p ms "waitSec" = Some literal /\
    snd (ServeHTTP r env c) =
      Served p {| status := 200;
                  body := Text ("Waited for " +:+ literal +:+ " seconds.");
                  slept := [wrap64 (atoiOr5 literal * time.Second)];
                  hashed := [] |} /\
    (p = patWaitSec ->
     http.pathSegments (url.EscapedPath (http.URL r)) = ["wait"; literal]) /\
    (p = patWait -> literal = "").
Proof.
  intros Hf Hp.
  assert (Hv : exists literal,
             http.PathValue p ms "waitSec" = Some literal /\
             (p = patWaitSec ->
              http.pathSegments (url.EscapedPath (http.URL r)) = ["wait"; literal]) /\
             (p = patWait -> literal = "")).
  { destruct Hp as [->| ->].
    - destruct (treeMatch_waitSec _ _ _ (findHandler_Matched _ _ _ _ _ Hf))
        as (v & Hsegs & ->).
      exists v. split; [reflexivity|]. split; [trivial|discriminate].
    - exists "". split; [reflexivity|]. split; [discriminate|trivial]. }
  destruct Hv as (literal & Hlit & Hsegs & Hempty).
  exists literal. repeat split; try assumption.
  unfold ServeHTTP. rewrite Hf.
  apply findHandler_Matched, treeMatch_sound in Hf. destruct Hf as [Hin _].
  rewrite (registered_wait p h Hin Hp).
  unfold InstrumentHandlerCounter, waitHandler. cbn [pat matches].
  rewrite Hlit. reflexivity.
Qed.

Lemma wait_body_echoes_literal_witness :
  http.findHandler mux (request "GET" "/wait/abc") =
    http.Matched patWaitSec (InstrumentHandlerCounter waitHandler) ["abc"] /\
  snd (ServeHTTP (request "GET" "/wait/abc") env0 startup) =
    Served patWaitSec
      {| status := 200; body := Text "Waited for abc seconds.";
         slept := [5000000000]; hashed := [] |}.
Proof.
  split; [reflexivity|].
  destruct (wait_body_echoes_literal (request "GET" "/wait/abc") env0 startup
              patWaitSec (InstrumentHandlerCounter waitHandler) ["abc"]
              eq_refl (or_introl eq_refl)) as (literal & Hlit & Hres & _).
  injection Hlit as <-. exact Hres.
Defined.

(** ** The hash route *)

Lemma wrap64_multiple_of_1024 (z : Z) : wrap64 (z * 1024) <= 2 ^ 63 - 1024.
Proof.
  pose proof (wrap64_range (z * 1024)) as Hr. unfold MinInt64, MaxInt64 in Hr.
  assert (Hm : wrap64 (z * 1024) mod 1024 = 0).
  { unfold wrap64.
    pose proof (Z.div_mod (z * 1024 + 2 ^ 63) (2 ^ 64) ltac:(lia)) as Hq.
    set (q := (z * 1024 + 2 ^ 63) / 2 ^ 64) in *.
    replace ((z * 1024 + 2 ^ 63) mod 2 ^ 64 - 2 ^ 63)
      with ((z - 2 ^ 54 * q) * 1024) by lia.
    apply Z.mod_mul. lia. }
  pose proof (Z.div_mod (wrap64 (z * 1024)) 1024 ltac:(lia)) as Hd. rewrite Hm in Hd.
  assert (wrap64 (z * 1024) / 1024 < 2 ^ 53) by (apply Z.div_lt_upper_bound; lia).
  lia.
Qed.

(** Every call of [hashRandomData] that the hash handler makes returns:
    its target is a multiple of 1024, hence below the threshold above
    which the byte counter overflows. *)
Lemma hashHandler_calls_return (r : Ctx) (env : Env) (c : Collectors)
    (res : Result) (rnd : RandSource) (target : Z) :
  snd (hashHandler r env c) = Some res ->
  In target (hashed res) ->
  exists (fuel : nat) (s : string), hashRandomData fuel rnd target = Some s.
Proof.
  unfold hashHandler. cbn [snd].
  destruct (http.PathValue (pat r) (matches r) "iterations") as [iterationsStr|];
    [|discriminate].
  destruct (http.PathValue (pat r) (matches r) "mb") as [mbStr|]; [|discriminate].
  intros [= <-]. cbn [hashed]. intros Hin.
  apply repeat_spec in Hin. subst target.
  set (t := wrap64 (wrap64 (_ * 1024) * 1024)).
  pose proof (wrap64_multiple_of_1024 (wrap64 (atoiOr5 mbStr * 1024))) as Hmax.
  fold t in Hmax.
  now apply hashRandomData_returns.
Qed.

(** C4, at the failing input.  [Atoi] fails on ["99999999999999999999"]
    with a range error and the value [MaxInt64]; the handler keeps that
    value for [mb] instead of the default 5, the product
    [mb * 1024 * 1024] wraps around to -1048576, and the one call of the
    hasher processes nothing. *)
Theorem hash_range_error_not_defaulted :
  strconv.Atoi "99999999999999999999" = (MaxInt64, Some strconv.ErrRange) /\
  snd (ServeHTTP (request "GET" "/hash/99999999999999999999/1") env0 startup) =
    Served patHashMbIterations
      {| status := 200;
         body := Text ("Hashing 9223372036854775807 mb, 1 times took " +:+ elapsed env0);
         slept := []; hashed := [-1048576] |} /\
  hashRandomData 0 zeroSource (-1048576) = Some EmptyString.
Proof. repeat split; vm_compute; reflexivity. Qed.

(** ** Unmatched paths *)

Lemma countSlash_app (a b : string) :
  Strings.countSlash (a +:+ b) = (Strings.countSlash a + Strings.countSlash b)%nat.
Proof.
  induction a as [|c a IH]; [reflexivity|].
  simpl. rewrite IH. lia.
Qed.

Lemma endsWithSlash_count (s : string) :
  Strings.endsWithSlash s = true -> (1 <= Strings.countSlash s)%nat.
Proof.
  induction s as [|c s IH]; [discriminate|].
  cbn [Strings.endsWithSlash Strings.countSlash]. destruct s as [|c' s'].
  - intros ->. cbn. lia.
  - intros Hs. specialize (IH Hs). lia.
Qed.

Lemma prefix_slash_count (s : string) :
  String.prefix "/" s = true -> (1 <= Strings.countSlash s)%nat.
Proof.
  destruct s as [|a s]; [discriminate|].
  change (String.prefix "/" (String a s))
    with (if ascii_dec "/" a then String.prefix "" s else false).
  destruct (ascii_dec "/" a) as [<-|]; [intros _; cbn; lia|discriminate].
Qed.

Lemma Clean_count (p : string) : (1 <= Strings.countSlash (path.Clean p))%nat.
Proof. unfold path.Clean. rewrite countSlash_app. cbn. lia. Qed.

(** A cleaned path starts at the root, so it has a slash. *)
Lemma cleanPath_count (p : string) : (1 <= Strings.countSlash (http.cleanPath p))%nat.
Proof.
  unfold http.cleanPath. destruct p as [|c p]; [cbn; lia|].
  set (q := if Ascii.eqb c Strings.slash then String c p else "/" +:+ String c p).
  destruct (Strings.endsWithSlash q) eqn:Hq; cbn [andb]; [|apply Clean_count].
  destruct (negb (String.eqb (path.Clean q) "/")); [|apply Clean_count].
  destruct (_ && _).
  - now apply endsWithSlash_count.
  - rewrite countSlash_app. pose proof (Clean_count q). lia.
Qed.

(** The pattern ["/"] catches every path that is not empty. *)
Lemma treeMatch_mux_nonempty (p : string) :
  p <> EmptyString -> exists m, http.treeMatch mux p = Some m.
Proof.
  intros Hp. destruct p as [|c p]; [congruence|].
  unfold http.treeMatch, http.pathSegments.
  cbn [String.length http.segmentsFrom String.eqb].
  destruct (http.firstSegment (String c p)) as [seg rest].
  cbn [http.matchPath].
  destruct (http.matchPath _ (http.findChild seg (http.treeOf mux)) []) as [m|]; [eauto|].
  destruct (if String.eqb seg "/" then None else _) as [m|]; [eauto|].
  cbn. eauto.
Qed.

Lemma no_other_match (p : string) (q : http.pattern) (h : Handler) (ms : list string) :
  matchesNoOther p = true ->
  http.treeMatch mux p = Some (q, h, ms) ->
  q = patRoot /\ h = foundChain.
Proof.
  intros Hno Hm. apply treeMatch_sound in Hm. destruct Hm as [Hin Hmatch].
  unfold matchesNoOther in Hno. rewrite forallb_forall in Hno.
  specialize (Hno _ Hin). cbn [fst] in Hno. rewrite Hmatch in Hno.
  cbn [negb] in Hno. rewrite orb_false_r in Hno.
  now apply registered_root.
Qed.

(** When neither the path nor the path with a slash appended matches
    another pattern, the mux settles on the handler for ["/"] without
    a trailing-slash redirect. *)
Lemma matchOrRedirect_root (p : string) (u : option url.URL) :
  matchesNoOther p = true -> matchesNoOther (p +:+ "/") = true ->
  (1 <= Strings.countSlash p)%nat ->
  exists ms, http.matchOrRedirect mux p u = (Some (patRoot, foundChain, ms), None).
Proof.
  intros Hno Hno' Hcount.
  destruct (treeMatch_mux_nonempty p) as [[[q h] ms] Hm].
  { intros ->. cbn in Hcount. lia. }
  destruct (no_other_match _ _ _ _ Hno Hm) as [-> ->].
  exists ms. unfold http.matchOrRedirect. rewrite Hm.
  destruct u as [u|]; [|reflexivity].
  destruct (negb _ && negb _); [|reflexivity].
  destruct (http.treeMatch mux (p +:+ "/")) as [[[q' h'] ms']|] eqn:Hm'; [|reflexivity].
  destruct (no_other_match _ _ _ _ Hno' Hm') as [-> ->].
  unfold http.exactMatch. cbn [http.lastIsMulti patRoot http.segments last negb length].
  destruct (negb (Strings.endsWithSlash (p +:+ "/")) && _); [reflexivity|].
  rewrite countSlash_app. change (Strings.countSlash "/") with 1%nat.
  destruct (Nat.eqb_spec 1 (Strings.countSlash p + 1)); [lia|reflexivity].
Qed.

Lemma findHandler_never_NotFound (r : http.Request) :
  http.findHandler mux r <> http.NotFound.
Proof.
  assert (Hof : forall p, p <> EmptyString ->
                          http.ofMatch (http.treeMatch mux p) <> http.NotFound).
  { intros p Hp. destruct (treeMatch_mux_nonempty p Hp) as [[[q h] ms] ->]. discriminate. }
  unfold http.findHandler.
  set (p := url.EscapedPath (http.URL r)).
  destruct (String.eqb (http.Method r) "CONNECT").
  - destruct p as [|c p]; [vm_compute; discriminate|].
    destruct (http.matchOrRedirect mux (String c p) (Some (http.URL r)))
      as [n [[loc q]|]]; [discriminate|].
    cbn [http.matchOrRedirect fst]. now apply Hof.
  - assert (Hq : http.cleanPath p <> EmptyString).
    { intros Heq. pose proof (cleanPath_count p) as Hc. rewrite Heq in Hc. cbn in Hc. lia. }
    unfold http.matchOrRedirect.
    destruct (negb _ && negb _);
      [destruct (http.exactMatch _ _); [discriminate|]|];
      (destruct (negb (String.eqb (http.cleanPath p) p)); [discriminate|now apply Hof]).
Qed.

(** C9 (as amended).  The mux never answers with its own 404.  A
    request whose path matches no registered pattern other than ["/"]
    is either served by the root handler, with status 200 and the body
    ["Hello from example application."], or answered by the mux with a
    redirect; it is served by the root handler whenever the path is
    in canonical form and the path with a slash appended matches no
    other pattern either (which excludes [/wait] and [/hash], redirected
    to [/wait/] and [/hash/]). *)
Theorem unmatched_paths_reach_root (r : http.Request) (env : Env) (c : Collectors) :
  let p := url.EscapedPath (http.URL r) in
  snd (ServeHTTP r env c) <> NotFoundPage /\
  (matchesNoOther p = true ->
   snd (ServeHTTP r env c) = Served patRoot hello \/
   exists loc q, snd (ServeHTTP r env c) = Redirected loc q) /\
  (matchesNoOther p = true -> matchesNoOther (p +:+ "/") = true ->
   canonical r = true ->
   snd (ServeHTTP r env c) = Served patRoot hello).
Proof.
  intros p. split; [|split].
  - unfold ServeHTTP. pose proof (findHandler_never_NotFound r) as Hnf.
    destruct (http.findHandler mux r) as [q h ms|loc q|]; [|discriminate|congruence].
    destruct (h _ env c) as [c' [done|]]; discriminate.
  - intros Hno. unfold ServeHTTP.
    pose proof (findHandler_never_NotFound r) as Hnf.
    destruct (http.findHandler mux r) as [q h ms|loc q|] eqn:Hf; [|right; eauto|congruence].
    left. apply findHandler_Matched in Hf.
    destruct (no_other_match _ _ _ _ Hno Hf) as [-> ->]. reflexivity.
  - intros Hno Hno' Hcan. unfold canonical in Hcan. fold p in Hcan.
    unfold ServeHTTP, http.findHandler. fold p.
    destruct (String.eqb (http.Method r) "CONNECT").
    + assert (Hcount : (1 <= Strings.countSlash p)%nat)
        by now apply prefix_slash_count.
      destruct (matchOrRedirect_root p (Some (http.URL r)) Hno Hno' Hcount) as [ms ->].
      destruct (matchOrRedirect_root p None Hno Hno' Hcount) as [ms' ->].
      reflexivity.
    + apply String.eqb_eq in Hcan.
      assert (Hcount : (1 <= Strings.countSlash p)%nat).
      { rewrite <- Hcan. apply cleanPath_count. }
      rewrite Hcan.
      destruct (matchOrRedirect_root p (Some (http.URL r)) Hno Hno' Hcount) as [ms ->].
      rewrite String.eqb_refl. reflexivity.
Qed.

Lemma unmatched_paths_reach_root_witness :
  matchesNoOther "/no-such-route" = true /\
  matchesNoOther "/no-such-route/" = true /\
  canonical (request "GET" "/no-such-route") = true /\
  snd (ServeHTTP (request "GET" "/no-such-route") env0 startup) = Served patRoot hello.
Proof.
  split; [reflexivity|]. split; [reflexivity|]. split; [reflexivity|].
  exact (proj2 (proj2 (unmatched_paths_reach_root
                         (request "GET" "/no-such-route") env0 startup))
               eq_refl eq_refl eq_refl).
Defined.

(** C9, the claim as stated, fails for [GET /wait]: the path matches no
    registered pattern other than ["/"], yet the root handler does not
    serve it; the mux redirects it to [/wait/]. *)
Lemma wait_without_slash_redirected :
  matchesNoOther "/wait" = true /\
  snd (ServeHTTP (request "GET" "/wait") env0 startup) = Redirected "/wait/" "".
Proof. split; vm_compute; reflexivity. Qed.

(** ** The scenarios of the specification *)

Example get_wait_2 :
  snd (ServeHTTP (request "GET" "/wait/2") env0 startup) =
  Served patWaitSec {| status := 200; body := Text "Waited for 2 seconds.";
                       slept := [2 * time.Second]; hashed := [] |}.
Proof. reflexivity. Qed.

Example get_hash_1_1 :
  snd (ServeHTTP (request "GET" "/hash/1/1") env0 startup) =
  Served patHashMbIterations
    {| status := 200; body := Text ("Hashing 1 mb, 1 times took " +:+ elapsed env0);
       slept := []; hashed := [1 * 1024 * 1024] |}.
Proof. reflexivity. Qed.

Example get_hash_default :
  snd (ServeHTTP (request "GET" "/hash/") env0 startup) =
  Served patHash
    {| status := 200; body := Text ("Hashing 5 mb, 5 times took " +:+ elapsed env0);
       slept := []; hashed := repeat (5 * 1024 * 1024) 5 |}.
Proof. reflexivity. Qed.

Example get_unclean_path :
  snd (ServeHTTP (request "GET" "//err") env0 startup) = Redirected "/err" "".
Proof. reflexivity. Qed.

Example labels_after_three_requests :
  map_to_list
    (httpRequestsTotal
       (serveAll [(request "GET" "/", env0); (request "GET" "/nowhere", env0);
                  (request "PROPFIND" "/err", env0)] startup)) =
  [(["200"; "get"], 2%nat); (["404"; "unknown"], 1%nat)].
Proof. vm_compute. reflexivity. Qed.

(* ===================================================================== *)
(** * Further properties *)
(* ===================================================================== *)

(** ** Numerals as path parameters *)

Lemma digit_byte (c : ascii) :
  isDigit c = true -> 48 <= byteVal c <= 57.
Proof. unfold isDigit. intros Hd. apply andb_true_iff in Hd. lia. Qed.

Lemma digit_not_sign (c : ascii) : isDigit c = true -> strconv.isSign c = false.
Proof.
  intros Hd. apply digit_byte in Hd. unfold strconv.isSign.
  destruct (Z.eqb_spec (byteVal c) 45), (Z.eqb_spec (byteVal c) 43);
    first [reflexivity | lia].
Qed.

Lemma digitOf_digit (c : ascii) :
  isDigit c = true -> strconv.digitOf (byteVal c) = Some (byteVal c - 48).
Proof. unfold strconv.digitOf, isDigit. now intros ->. Qed.

Lemma decimalFrom_ge (s : string) :
  allChars isDigit s = true -> forall acc, 0 <= acc -> acc <= decimalFrom s acc.
Proof.
  induction s as [|c s IH]; cbn [allChars decimalFrom]; intros Hs acc Hacc; [lia|].
  apply andb_true_iff in Hs. destruct Hs as [Hc Hs]. apply digit_byte in Hc.
  specialize (IH Hs (acc * 10 + (byteVal c - 48)) ltac:(lia)). lia.
Qed.

Lemma atoiDigits_decimal (s : string) :
  allChars isDigit s = true ->
  forall acc, strconv.atoiDigits s acc = Some (decimalFrom s acc).
Proof.
  induction s as [|c s IH]; cbn [allChars decimalFrom strconv.atoiDigits];
    intros Hs acc; [reflexivity|].
  apply andb_true_iff in Hs. destruct Hs as [Hc Hs]. apply digit_byte in Hc.
  rewrite (Z.mod_small (byteVal c - 48) 256) by lia.
  destruct (Z.ltb_spec 9 (byteVal c - 48)); [lia|]. now apply IH.
Qed.

Lemma parseUintLoop_decimal (s : string) :
  allChars isDigit s = true ->
  forall acc, 0 <= acc -> decimalFrom s acc <= MaxInt64 ->
  strconv.parseUintLoop s acc = (decimalFrom s acc, None).
Proof.
  assert (Hcut : strconv.cutoff = 1844674407370955162) by reflexivity.
  assert (Hmaxv : strconv.maxVal = 18446744073709551615) by reflexivity.
  induction s as [|c s IH]; cbn [allChars decimalFrom strconv.parseUintLoop];
    intros Hs acc Hacc Hmax; [reflexivity|].
  apply andb_true_iff in Hs. destruct Hs as [Hc Hs].
  rewrite (digitOf_digit c Hc). apply digit_byte in Hc.
  pose proof (decimalFrom_ge s Hs (acc * 10 + (byteVal c - 48)) ltac:(lia)) as Hge.
  unfold MaxInt64 in Hmax.
  destruct (Z.leb_spec 10 (byteVal c - 48)); [lia|].
  rewrite Hcut. destruct (Z.leb_spec 1844674407370955162 acc); [lia|].
  unfold wrapU64. rewrite (Z.mod_small (acc * 10)) by lia.
  rewrite (Z.mod_small (acc * 10 + (byteVal c - 48))) by lia.
  rewrite Hmaxv.
  destruct (Z.ltb_spec (acc * 10 + (byteVal c - 48)) (acc * 10)); [lia|].
  destruct (Z.ltb_spec 18446744073709551615 (acc * 10 + (byteVal c - 48))); [lia|].
  cbn [orb]. apply IH; [assumption|lia|unfold MaxInt64; lia].
Qed.

(** Whatever the digits, the unsigned loop ends with a number that fits
    [uint64] or with a range error at [maxVal]; never a syntax error. *)
Lemma parseUintLoop_digits (s : string) :
  allChars isDigit s = true ->
  forall acc, 0 <= acc <= strconv.maxVal ->
  strconv.parseUintLoop s acc = (strconv.maxVal, Some strconv.ErrRange) \/
  exists v, strconv.parseUintLoop s acc = (v, None) /\ 0 <= v <= strconv.maxVal.
Proof.
  assert (Hmaxv : strconv.maxVal = 18446744073709551615) by reflexivity.
  induction s as [|c s IH]; cbn [allChars strconv.parseUintLoop]; intros Hs acc Hacc.
  - right. eauto.
  - apply andb_true_iff in Hs. destruct Hs as [Hc Hs].
    rewrite (digitOf_digit c Hc). apply digit_byte in Hc.
    destruct (Z.leb_spec 10 (byteVal c - 48)); [lia|].
    destruct (strconv.cutoff <=? acc); [now left|].
    destruct (_ || _); [now left|].
    apply IH; [assumption|]. unfold wrapU64. rewrite Hmaxv.
    pose proof (Z.mod_pos_bound (acc * 10 mod 2 ^ 64 + (byteVal c - 48)) (2 ^ 64) ltac:(lia)).
    lia.
Qed.

Lemma decimal_nonempty (s : string) :
  isDecimal s = true ->
  exists c rest, s = String c rest /\ isDigit c = true /\ allChars isDigit s = true.
Proof.
  unfold isDecimal. intros Hd. apply andb_true_iff in Hd. destruct Hd as [Hne Hs].
  destruct s as [|c rest]; [discriminate|].
  exists c, rest. split; [reflexivity|]. split; [|assumption].
  cbn [allChars] in Hs. now apply andb_true_iff in Hs.
Qed.

(** [Atoi] reads a decimal numeral that fits an [int] as the number it
    denotes, without error, through either of its two paths. *)
Lemma Atoi_of_decimal (s : string) :
  isDecimal s = true -> decimalValue s <= MaxInt64 ->
  strconv.Atoi s = (decimalValue s, None).
Proof.
  intros Hd Hmax. destruct (decimal_nonempty s Hd) as (c & rest & -> & Hc & Hs).
  pose proof (decimalFrom_ge _ Hs 0 ltac:(lia)) as Hge. fold (decimalValue (String c rest)) in Hge.
  unfold strconv.Atoi.
  destruct ((0 <? Z.of_nat (String.length (String c rest))) && _).
  - rewrite (digit_not_sign c Hc). cbn [andb].
    rewrite (atoiDigits_decimal _ Hs). apply digit_byte in Hc.
    destruct (Z.eqb_spec (byteVal c) 45); [lia|reflexivity].
  - unfold strconv.ParseInt. apply digit_byte in Hc as Hb.
    destruct (Z.eqb_spec (byteVal c) 45); [lia|].
    destruct (Z.eqb_spec (byteVal c) 43); [lia|]. cbn [orb negb andb].
    unfold strconv.ParseUint.
    rewrite (parseUintLoop_decimal _ Hs 0 ltac:(lia) Hmax).
    fold (decimalValue (String c rest)).
    unfold MaxInt64 in Hmax.
    destruct (Z.leb_spec (2 ^ 63) (decimalValue (String c rest))); [lia|].
    rewrite wrap64_id by (unfold MinInt64, MaxInt64; lia). reflexivity.
Qed.

(** X1.  The idiom [v, _ := strconv.Atoi(str); if v < 1 { v = 5 }] on a
    decimal numeral that fits an [int]: the number it denotes, or 5
    when that number is 0 (as for ["0"] and ["000"]). *)
Theorem atoiOr5_decimal (s : string) :
  isDecimal s = true -> decimalValue s <= MaxInt64 ->
  atoiOr5 s = if decimalValue s <? 1 then 5 else decimalValue s.
Proof.
  intros Hd Hmax. unfold atoiOr5. now rewrite (Atoi_of_decimal s Hd Hmax).
Qed.

Lemma atoiOr5_decimal_witness :
  isDecimal "000" = true /\ decimalValue "000" <= MaxInt64 /\
  atoiOr5 "000" = 5 /\ atoiOr5 "0042" = 42.
Proof.
  split; [reflexivity|]. split; [vm_compute; discriminate|]. split.
  - exact (atoiOr5_decimal "000" eq_refl ltac:(vm_compute; discriminate)).
  - reflexivity.
Defined.

(** X2.  A minus sign followed by any decimal numeral, however long,
    gives the default 5: where the numeral is below the range of [int],
    [Atoi] returns [MinInt64] with its range error, which is still
    below 1. *)
Theorem atoiOr5_negative (d : string) :
  isDecimal d = true -> atoiOr5 (String "-" d) = 5.
Proof.
  intros Hd. destruct (decimal_nonempty d Hd) as (c & rest & Heq & Hc & Hs).
  apply atoiOr5_default. unfold strconv.Atoi.
  destruct ((0 <? Z.of_nat (String.length (String "-" d))) && _).
  - change (strconv.isSign "-") with true. cbn iota. cbn [andb].
    replace (Z.of_nat (String.length d) <? 1) with false
      by (subst d; cbn [String.length]; symmetry; apply Z.ltb_ge; lia).
    rewrite (atoiDigits_decimal d Hs).
    change (byteVal "-" =? 45) with true. cbn [fst].
    pose proof (decimalFrom_ge d Hs 0 ltac:(lia)). lia.
  - unfold strconv.ParseInt.
    change (byteVal "-" =? 45) with true. change (byteVal "-" =? 43) with false.
    cbn [orb negb andb]. unfold strconv.ParseUint.
    replace (match d with EmptyString => (0, Some strconv.ErrSyntax)
                        | String _ _ => strconv.parseUintLoop d 0 end)
      with (strconv.parseUintLoop d 0) by (now subst d).
    assert (Hmaxv : strconv.maxVal = 18446744073709551615) by reflexivity.
    destruct (parseUintLoop_digits d Hs 0 ltac:(rewrite Hmaxv; lia))
      as [->|(v & -> & Hv)].
    + vm_compute. reflexivity.
    + rewrite Hmaxv in Hv. destruct (Z.ltb_spec (2 ^ 63) v); cbn [fst]; [lia|].
      destruct (Z.eq_dec v (2 ^ 63)) as [->|Hne]; [vm_compute; reflexivity|].
      rewrite (wrap64_id v) by (unfold MinInt64, MaxInt64; lia).
      rewrite wrap64_id by (unfold MinInt64, MaxInt64; lia). lia.
Qed.

Lemma atoiOr5_negative_witness :
  isDecimal "99999999999999999999" = true /\
  atoiOr5 "-99999999999999999999" = 5.
Proof.
  split; [reflexivity|].
  exact (atoiOr5_negative "99999999999999999999" eq_refl).
Defined.

(** ** [Itoa] and [Atoi] *)

Lemma string_of_uint_digits (d : Decimal.uint) :
  allChars isDigit (NilEmpty.string_of_uint d) = true.
Proof. induction d; cbn [NilEmpty.string_of_uint allChars]; auto. Qed.

Lemma decimalFrom_of_uint_acc (d : Decimal.uint) :
  forall acc : positive,
    decimalFrom (NilEmpty.string_of_uint d) (Z.pos acc) = Z.pos (Pos.of_uint_acc d acc).
Proof.
  induction d; intros acc; cbn [NilEmpty.string_of_uint decimalFrom Pos.of_uint_acc];
    [reflexivity|..]; rewrite <- IHd; f_equal;
    match goal with
    | |- context [byteVal ?c] =>
        let v := eval vm_compute in (byteVal c) in change (byteVal c) with v
    end; lia.
Qed.

Lemma decimalFrom_of_uint (d : Decimal.uint) :
  decimalFrom (NilEmpty.string_of_uint d) 0 = Z.of_N (Pos.of_uint d).
Proof.
  induction d; cbn [NilEmpty.string_of_uint decimalFrom Pos.of_uint];
    [reflexivity|exact IHd|..];
    cbn [Z.of_N]; rewrite <- decimalFrom_of_uint_acc; reflexivity.
Qed.

(** What [Itoa] prints for a number that is not negative is a decimal
    numeral that denotes the number. *)
Lemma Itoa_decimal (n : Z) :
  0 <= n -> isDecimal (strconv.Itoa n) = true /\ decimalValue (strconv.Itoa n) = n.
Proof.
  intros Hn. destruct n as [|p|p]; [split; reflexivity| |lia].
  unfold strconv.Itoa, isDecimal, decimalValue.
  cbn [Z.to_int NilZero.string_of_int].
  pose proof (DecimalPos.Unsigned.to_uint_nonnil p) as Hnil.
  pose proof (DecimalPos.Unsigned.of_to p) as Hof.
  unfold NilZero.string_of_uint.
  destruct (Pos.to_uint p) as [|d|d|d|d|d|d|d|d|d|d] eqn:Hp; [congruence|..];
    (split; [apply (string_of_uint_digits (_ d))|]);
    rewrite decimalFrom_of_uint, Hof; reflexivity.
Qed.

Lemma Atoi_Itoa (n : Z) : 0 <= n <= MaxInt64 -> strconv.Atoi (strconv.Itoa n) = (n, None).
Proof.
  intros Hn. destruct (Itoa_decimal n ltac:(lia)) as [Hd Hv].
  rewrite (Atoi_of_decimal _ Hd) by (rewrite Hv; lia). now rewrite Hv.
Qed.

(** ** Paths made of plain segments *)

Lemma plain_cons (s : string) :
  isPlain s = true ->
  exists c rest, s = String c rest /\ plainChar c = true /\ allChars plainChar s = true.
Proof.
  unfold isPlain. intros Hp. apply andb_true_iff in Hp. destruct Hp as [Hne Hs].
  destruct s as [|c rest]; [discriminate|]. exists c, rest.
  split; [reflexivity|]. split; [|assumption].
  cbn [allChars] in Hs. now apply andb_true_iff in Hs.
Qed.

Lemma plainChar_cases (c : ascii) :
  plainChar c = true ->
  Ascii.eqb c "/" = false /\ Ascii.eqb c "%" = false /\ Ascii.eqb c "." = false.
Proof.
  unfold plainChar. intros Hc.
  destruct (Ascii.eqb c "/"), (Ascii.eqb c "%"), (Ascii.eqb c "."); try discriminate.
  auto.
Qed.

Lemma decimal_plain (s : string) : isDecimal s = true -> isPlain s = true.
Proof.
  unfold isDecimal, isPlain. intros Hd. apply andb_true_iff in Hd.
  destruct Hd as [-> Hs]. cbn [andb]. induction s as [|c s IH]; [reflexivity|].
  cbn [allChars] in *. apply andb_true_iff in Hs. destruct Hs as [Hc Hs].
  rewrite (IH Hs), andb_true_r. apply digit_byte in Hc.
  unfold plainChar, byteVal in *.
  destruct c as [[|] [|] [|] [|] [|] [|] [|] [|]]; cbn in Hc; try lia; reflexivity.
Qed.

Lemma plain_not_special (s : string) :
  isPlain s = true ->
  String.eqb s "" = false /\ String.eqb s "/" = false /\
  String.eqb s "." = false /\ String.eqb s ".." = false.
Proof.
  intros Hp. destruct (plain_cons s Hp) as (c & rest & -> & Hc & _).
  destruct (plainChar_cases c Hc) as (Hslash & _ & Hdot).
  cbn [String.eqb]. now rewrite Hslash, Hdot.
Qed.

Lemma joinPath_head (segs : list string) :
  joinPath segs = EmptyString \/ exists r, joinPath segs = String "/" r.
Proof. destruct segs; cbn; eauto. Qed.

Lemma plain_cutAtSlash (s rest : string) :
  allChars plainChar s = true ->
  rest = EmptyString \/ (exists r, rest = String "/" r) ->
  Strings.cutAtSlash (s +:+ rest) = (s, rest).
Proof.
  intros Hs Hrest. induction s as [|c s IH]; simpl.
  - destruct Hrest as [->|[r ->]]; reflexivity.
  - cbn [allChars] in Hs. apply andb_true_iff in Hs. destruct Hs as [Hc Hs].
    destruct (plainChar_cases c Hc) as (Hslash & _). unfold Strings.slash.
    now rewrite Hslash, (IH Hs).
Qed.

Lemma plain_PathUnescape (s : string) :
  allChars plainChar s = true -> url.PathUnescape s = Some s.
Proof.
  induction s as [|c s IH]; [reflexivity|]. cbn [allChars url.PathUnescape].
  intros Hs. apply andb_true_iff in Hs. destruct Hs as [Hc Hs].
  destruct (plainChar_cases c Hc) as (_ & Hpct & _). now rewrite Hpct, (IH Hs).
Qed.

Lemma segmentsFrom_empty (fuel : nat) : http.segmentsFrom fuel EmptyString = [].
Proof. destruct fuel; reflexivity. Qed.

Lemma append_nonempty (a b : string) : a <> EmptyString -> String.eqb (a +:+ b) "" = false.
Proof. destruct a; [congruence|reflexivity]. Qed.

(** The mux sees a path of plain segments as these segments. *)
Lemma pathSegments_joinPath (segs : list string) :
  Forall (fun seg => isPlain seg = true) segs ->
  http.pathSegments (joinPath segs) = segs.
Proof.
  intros Hall. unfold http.pathSegments.
  assert (Hgen : forall fuel, (length segs <= fuel)%nat ->
                              http.segmentsFrom fuel (joinPath segs) = segs).
  { induction Hall as [|seg segs Hp _ IH]; intros fuel Hfuel.
    - apply segmentsFrom_empty.
    - destruct fuel as [|fuel]; [simpl in Hfuel; lia|].
      destruct (plain_cons seg Hp) as (c & rest & Heq & _ & Hs).
      cbn [joinPath http.segmentsFrom String.eqb]. unfold http.firstSegment.
      cbn [String.eqb Ascii.eqb Bool.eqb]. cbn [andb].
      rewrite append_nonempty by (subst seg; discriminate).
      rewrite (plain_cutAtSlash seg _ Hs (joinPath_head segs)).
      unfold http.pathUnescape. rewrite (plain_PathUnescape seg Hs).
      f_equal. apply IH. simpl in Hfuel. lia. }
  apply Hgen. clear Hgen. induction segs as [|seg segs IH]; [simpl; lia|].
  cbn [joinPath String.length length].
  inversion Hall as [|? ? Hp Hall']; subst. specialize (IH Hall').
  assert (String.length (joinPath segs) <= String.length (seg +:+ joinPath segs))%nat.
  { clear. induction seg; [apply Nat.le_refl|simpl; lia]. }
  lia.
Qed.

Lemma plain_splitSlash (segs : list string) :
  Forall (fun seg => isPlain seg = true) segs ->
  forall s, allChars plainChar s = true ->
            Strings.splitSlash (s +:+ joinPath segs) = s :: segs.
Proof.
  induction 1 as [|seg segs Hp _ IH]; intros s Hs; induction s as [|c s IHs]; simpl.
  - reflexivity.
  - cbn [allChars] in Hs. apply andb_true_iff in Hs. destruct Hs as [Hc Hs].
    destruct (plainChar_cases c Hc) as (Hslash & _). unfold Strings.slash.
    rewrite Hslash. simpl in IHs. now rewrite (IHs Hs).
  - destruct (plain_cons seg Hp) as (_ & _ & _ & _ & Hseg). now rewrite (IH seg Hseg).
  - cbn [allChars] in Hs. apply andb_true_iff in Hs. destruct Hs as [Hc Hs].
    destruct (plainChar_cases c Hc) as (Hslash & _). unfold Strings.slash.
    rewrite Hslash. simpl in IHs. now rewrite (IHs Hs).
Qed.

Lemma cleanElem_plain (segs : list string) :
  Forall (fun seg => isPlain seg = true) segs ->
  forall stack, fold_left path.cleanElem segs stack = stack ++ segs.
Proof.
  induction 1 as [|seg segs Hp _ IH]; intros stack; cbn [fold_left].
  - now rewrite app_nil_r.
  - unfold path.cleanElem at 2.
    destruct (plain_not_special seg Hp) as (-> & _ & -> & ->). cbn [orb].
    rewrite IH, <- app_assoc. reflexivity.
Qed.

Lemma append_cons (c : ascii) (a b : string) : String c a +:+ b = String c (a +:+ b).
Proof. reflexivity. Qed.

Lemma append_empty_r (s : string) : s +:+ "" = s.
Proof. induction s as [|c s IH]; [reflexivity|]. now rewrite append_cons, IH. Qed.

Lemma joinSlash_joinPath (seg : string) (segs : list string) :
  "/" +:+ Strings.joinSlash (seg :: segs) = joinPath (seg :: segs).
Proof.
  revert seg. induction segs as [|seg' segs IH]; intros seg.
  - cbn [Strings.joinSlash joinPath]. rewrite append_empty_r. reflexivity.
  - cbn [Strings.joinSlash joinPath]. specialize (IH seg'). cbn [joinPath] in IH.
    simpl in *. f_equal. f_equal. exact IH.
Qed.

Lemma endsWithSlash_app (a b : string) :
  b <> EmptyString -> Strings.endsWithSlash (a +:+ b) = Strings.endsWithSlash b.
Proof.
  intros Hb. induction a as [|c a IH]; [reflexivity|].
  rewrite append_cons. cbn [Strings.endsWithSlash].
  destruct (a +:+ b) eqn:Hab; [|exact IH].
  destruct a; [change ("" +:+ b) with b in Hab; congruence|discriminate].
Qed.

Lemma endsWithSlash_plain (a s : string) :
  isPlain s = true -> Strings.endsWithSlash (a +:+ s) = false.
Proof.
  intros Hp. destruct (plain_cons s Hp) as (c & rest & -> & _ & Hs).
  rewrite endsWithSlash_app by discriminate.
  clear Hp. revert c Hs. induction rest as [|c' rest IH]; intros c Hs.
  - cbn [allChars] in Hs. apply andb_true_iff in Hs. destruct Hs as [Hc _].
    destruct (plainChar_cases c Hc) as (Hslash & _). exact Hslash.
  - cbn [allChars] in Hs. apply andb_true_iff in Hs. destruct Hs as [_ Hs].
    exact (IH c' Hs).
Qed.

Lemma endsWithSlash_joinPath (segs : list string) :
  Forall (fun seg => isPlain seg = true) segs ->
  Strings.endsWithSlash (joinPath segs) = false.
Proof.
  induction 1 as [|seg segs Hp Hall IH]; [reflexivity|].
  cbn [joinPath]. change (String "/" (seg +:+ joinPath segs))
    with ("/" +:+ (seg +:+ joinPath segs)).
  destruct segs as [|seg' segs].
  - cbn [joinPath]. rewrite append_empty_r. now apply endsWithSlash_plain.
  - rewrite endsWithSlash_app by (destruct seg; discriminate).
    rewrite endsWithSlash_app by discriminate. exact IH.
Qed.

(** A path of plain segments is in canonical form. *)
Lemma cleanPath_joinPath (segs : list string) :
  Forall (fun seg => isPlain seg = true) segs -> segs <> [] ->
  http.cleanPath (joinPath segs) = joinPath segs.
Proof.
  intros Hall Hne. destruct segs as [|seg segs]; [congruence|].
  unfold http.cleanPath. cbn [joinPath]. cbn [Ascii.eqb Bool.eqb Strings.slash].
  change (String "/" (seg +:+ joinPath segs)) with (joinPath (seg :: segs)).
  rewrite (endsWithSlash_joinPath _ Hall). cbn [andb].
  unfold path.Clean. cbn [joinPath].
  change (String "/" (seg +:+ joinPath segs)) with ("" +:+ joinPath (seg :: segs)).
  rewrite (plain_splitSlash _ Hall "" eq_refl).
  change (fold_left path.cleanElem ("" :: seg :: segs) [])
    with (fold_left path.cleanElem (seg :: segs) (path.cleanElem [] "")).
  change (path.cleanElem [] "") with (@nil string).
  rewrite (cleanElem_plain _ Hall). cbn [app].
  apply joinSlash_joinPath.
Qed.

(** ** Cleaned paths have no empty segment *)

Lemma splitSlash_slashFree (s : string) :
  Forall (fun e => slashFree e = true) (Strings.splitSlash s).
Proof.
  induction s as [|c s IH]; cbn [Strings.splitSlash].
  - repeat constructor.
  - destruct (Ascii.eqb c Strings.slash) eqn:Hc.
    + constructor; [reflexivity|assumption].
    + destruct (Strings.splitSlash s) as [|e es].
      * repeat constructor. unfold slashFree. cbn [allChars]. now rewrite Hc.
      * inversion IH as [|? ? He Hes]; subst. constructor; [|assumption].
        unfold slashFree in *. cbn [allChars]. now rewrite Hc, He.
Qed.

Lemma removelast_Forall {A : Type} (P : A -> Prop) (l : list A) :
  Forall P l -> Forall P (removelast l).
Proof.
  induction 1 as [|x l Hx Hl IH]; cbn [removelast]; [constructor|].
  destruct l; [constructor|]. now constructor.
Qed.

Lemma fold_cleanElem_good (es : list string) :
  Forall (fun e => slashFree e = true) es ->
  forall stack, Forall (fun e => goodElem e = true) stack ->
                Forall (fun e => goodElem e = true) (fold_left path.cleanElem es stack).
Proof.
  induction 1 as [|e es He _ IH]; intros stack Hstack; cbn [fold_left]; [assumption|].
  apply IH. unfold path.cleanElem.
  destruct (String.eqb e "") eqn:Hempty; cbn [orb]; [assumption|].
  destruct (String.eqb e "."); [assumption|].
  destruct (String.eqb e ".."); [now apply removelast_Forall|].
  apply Forall_app. split; [assumption|]. repeat constructor.
  unfold goodElem. now rewrite Hempty, He.
Qed.

Lemma prefix_one_more (a b : string) :
  String.prefix a b = true -> String.length b = S (String.length a) ->
  Strings.endsWithSlash b = true -> b = a +:+ "/".
Proof.
  revert b. induction a as [|x a IH]; intros b Hpre Hlen Hends.
  - destruct b as [|y [|z b]]; try discriminate Hlen.
    cbn [Strings.endsWithSlash] in Hends. apply Ascii.eqb_eq in Hends. now subst y.
  - destruct b as [|y b]; [discriminate Hlen|].
    change (String.prefix (String x a) (String y b))
      with (if ascii_dec x y then String.prefix a b else false) in Hpre.
    destruct (ascii_dec x y) as [<-|]; [|discriminate].
    cbn [String.length] in Hlen. injection Hlen as Hlen.
    rewrite append_cons. f_equal. apply IH; [assumption|assumption|].
    destruct b as [|z b]; [discriminate Hlen|exact Hends].
Qed.

(** What [cleanPath] returns: slash-free, non-empty elements, each
    preceded by a slash, and possibly a slash at the end. *)
Lemma cleanPath_shape (p : string) :
  exists segs tail,
    Forall (fun e => goodElem e = true) segs /\
    (tail = EmptyString \/ tail = "/") /\
    http.cleanPath p = joinPath segs +:+ tail.
Proof.
  unfold http.cleanPath. destruct p as [|c p].
  { exists [], "/". repeat split; [constructor|now right]. }
  set (q := if Ascii.eqb c Strings.slash then String c p else "/" +:+ String c p).
  unfold path.Clean.
  pose proof (fold_cleanElem_good _ (splitSlash_slashFree q) [] (Forall_nil_2 _)) as Hgood.
  destruct (fold_left path.cleanElem (Strings.splitSlash q) []) as [|e es].
  { exists [], "/". split; [constructor|]. split; [now right|].
    cbn [Strings.joinSlash]. change ("/" +:+ "") with "/". cbn [String.eqb Ascii.eqb Bool.eqb negb].
    now rewrite andb_false_r. }
  rewrite joinSlash_joinPath.
  destruct (Strings.endsWithSlash q && negb (String.eqb (joinPath (e :: es)) "/")) eqn:Hguard.
  - apply andb_true_iff in Hguard. destruct Hguard as [Hends _].
    exists (e :: es), "/". split; [assumption|]. split; [now right|].
    destruct ((String.length q =? String.length (joinPath (e :: es)) + 1)%nat &&
              String.prefix (joinPath (e :: es)) q) eqn:Hsame; [|reflexivity].
    apply andb_true_iff in Hsame. destruct Hsame as [Hlen Hpre].
    apply Nat.eqb_eq in Hlen. apply prefix_one_more; [assumption|lia|assumption].
  - exists (e :: es), "". split; [assumption|]. split; [now left|].
    now rewrite append_empty_r.
Qed.

Lemma cutAtSlash_slashFree (s rest : string) :
  slashFree s = true ->
  rest = EmptyString \/ (exists r, rest = String "/" r) ->
  Strings.cutAtSlash (s +:+ rest) = (s, rest).
Proof.
  intros Hs Hrest. induction s as [|c s IH]; simpl.
  - destruct Hrest as [->|[r ->]]; reflexivity.
  - unfold slashFree in Hs. cbn [allChars] in Hs. apply andb_true_iff in Hs.
    destruct Hs as [Hc Hs]. apply negb_true_iff in Hc.
    now rewrite Hc, (IH Hs).
Qed.

Lemma append_assoc (a b c : string) : (a +:+ b) +:+ c = a +:+ (b +:+ c).
Proof. induction a as [|x a IH]; [reflexivity|]. now rewrite !append_cons, IH. Qed.

Lemma segmentsFrom_joined (segs : list string) (tail : string) :
  Forall (fun e => goodElem e = true) segs ->
  tail = EmptyString \/ tail = "/" ->
  forall fuel, ~ In EmptyString (http.segmentsFrom fuel (joinPath segs +:+ tail)).
Proof.
  intros Hgood Htail. induction Hgood as [|seg segs Hseg _ IH]; intros fuel.
  - change (joinPath [] +:+ tail) with tail.
    destruct fuel as [|fuel]; [now intros []|].
    destruct Htail as [->| ->]; [now intros []|].
    cbn [http.segmentsFrom String.eqb Ascii.eqb Bool.eqb]. unfold http.firstSegment.
    cbn [String.eqb Ascii.eqb Bool.eqb]. rewrite segmentsFrom_empty.
    intros [Heq|[]]. discriminate Heq.
  - destruct fuel as [|fuel]; [now intros []|].
    unfold goodElem in Hseg. apply andb_true_iff in Hseg. destruct Hseg as [Hne Hfree].
    apply negb_true_iff in Hne.
    cbn [joinPath]. rewrite append_cons, append_assoc.
    cbn [http.segmentsFrom String.eqb]. unfold http.firstSegment.
    cbn [String.eqb Ascii.eqb Bool.eqb]. cbn [andb].
    rewrite append_nonempty by (intros ->; discriminate Hne).
    rewrite (cutAtSlash_slashFree seg _ Hfree).
    + intros [Heq|Hin]; [|exact (IH fuel Hin)].
      apply pathUnescape_nonempty in Heq. subst seg. discriminate Hne.
    + destruct segs as [|seg' segs'].
      * change (joinPath [] +:+ tail) with tail.
        destruct Htail as [->| ->]; [now left|right; now eexists].
      * right. cbn [joinPath]. rewrite append_cons. now eexists.
Qed.

(** A request that a handler gets from the mux under a method other
    than [CONNECT] has a path without an empty segment: any other is
    redirected to its cleaned form. *)
Lemma Matched_no_empty_segment (r : http.Request) (p : http.pattern) (h : Handler)
    (ms : list string) :
  http.findHandler mux r = http.Matched p h ms ->
  String.eqb (http.Method r) "CONNECT" = false ->
  ~ In EmptyString (http.pathSegments (url.EscapedPath (http.URL r))).
Proof.
  unfold http.findHandler. intros Hf Hm. rewrite Hm in Hf.
  destruct (http.matchOrRedirect mux _ _) as [n [[loc q]|]]; [discriminate|].
  destruct (String.eqb_spec (http.cleanPath (url.EscapedPath (http.URL r)))
                            (url.EscapedPath (http.URL r))) as [Heq|]; [|discriminate].
  destruct (cleanPath_shape (url.EscapedPath (http.URL r)))
    as (segs & tail & Hgood & Htail & Hshape).
  rewrite <- Heq, Hshape. unfold http.pathSegments. now apply segmentsFrom_joined.
Qed.

(** ** Requests for the parameterised routes *)

(** A request whose path is in canonical form and matched by a pattern
    that does not end in a slash reaches the handler registered for it,
    whatever the method. *)
Lemma findHandler_exact (r : http.Request) (q : http.pattern) (h : Handler)
    (ms : list string) :
  http.cleanPath (url.EscapedPath (http.URL r)) = url.EscapedPath (http.URL r) ->
  http.treeMatch mux (url.EscapedPath (http.URL r)) = Some (q, h, ms) ->
  http.lastIsMulti q = false ->
  http.findHandler mux r = http.Matched q h ms.
Proof.
  intros Hclean Hm Hlast. unfold http.findHandler, http.matchOrRedirect.
  rewrite Hclean, Hm. unfold http.exactMatch. rewrite Hlast. cbn [negb andb fst].
  rewrite String.eqb_refl. cbn [negb].
  destruct (String.eqb (http.Method r) "CONNECT"); reflexivity.
Qed.

Lemma treeMatch_wait (s : string) :
  isPlain s = true ->
  http.treeMatch mux (joinPath ["wait"; s]) =
  Some (patWaitSec, InstrumentHandlerCounter waitHandler, [s]).
Proof.
  intros Hp. unfold http.treeMatch.
  rewrite pathSegments_joinPath by (repeat constructor; assumption).
  destruct (plain_not_special s Hp) as (Hempty & Hslash & _).
  cbn. rewrite Hslash. unfold http.findChild. rewrite Hempty. reflexivity.
Qed.

Lemma treeMatch_hash_mb (a : string) :
  isPlain a = true ->
  http.treeMatch mux (joinPath ["hash"; a]) =
  Some (patHashMb, InstrumentHandlerCounter hashHandler, [a]).
Proof.
  intros Hp. unfold http.treeMatch.
  rewrite pathSegments_joinPath by (repeat constructor; assumption).
  destruct (plain_not_special a Hp) as (Hempty & Hslash & _).
  cbn. rewrite Hslash. unfold http.findChild. rewrite Hempty. reflexivity.
Qed.

Lemma treeMatch_hash_mb_iterations (a b : string) :
  isPlain a = true -> isPlain b = true ->
  http.treeMatch mux (joinPath ["hash"; a; b]) =
  Some (patHashMbIterations, InstrumentHandlerCounter hashHandler, [a; b]).
Proof.
  intros Ha Hb. unfold http.treeMatch.
  rewrite pathSegments_joinPath by (repeat constructor; assumption).
  destruct (plain_not_special a Ha) as (Haempty & Haslash & _).
  destruct (plain_not_special b Hb) as (Hbempty & Hbslash & _).
  cbn. rewrite Haslash. unfold http.findChild. rewrite Haempty, Hbempty.
  cbn. rewrite Hbslash. reflexivity.
Qed.

Lemma joinPath_wait (s : string) : joinPath ["wait"; s] = "/wait/" +:+ s.
Proof. cbn [joinPath]. now rewrite append_empty_r. Qed.

Lemma joinPath_hash_mb (a : string) : joinPath ["hash"; a] = "/hash/" +:+ a.
Proof. cbn [joinPath]. now rewrite append_empty_r. Qed.

Lemma joinPath_hash_mb_iterations (a b : string) :
  joinPath ["hash"; a; b] = "/hash/" +:+ a +:+ "/" +:+ b.
Proof.
  cbn [joinPath]. rewrite append_empty_r.
  repeat (rewrite append_cons || f_equal).
Qed.

Lemma findHandler_wait_plain (method s decoded query : string) :
  isPlain s = true ->
  http.findHandler mux (requestFor method ("/wait/" +:+ s) decoded query) =
    http.Matched patWaitSec (InstrumentHandlerCounter waitHandler) [s].
Proof.
  intros Hp.
  apply (findHandler_exact _ patWaitSec (InstrumentHandlerCounter waitHandler) [s]).
  - cbn [requestFor http.URL url.EscapedPath]. rewrite <- joinPath_wait.
    apply cleanPath_joinPath; [repeat constructor; assumption|discriminate].
  - cbn [requestFor http.URL url.EscapedPath]. rewrite <- joinPath_wait.
    now apply treeMatch_wait.
  - reflexivity.
Qed.

(** X3.  A request for [/wait/s], with [s] a plain segment, whatever
    the method, the query and the collectors: the handler answers 200
    with the body ["Waited for s seconds."], sleeps for the duration
    computed from [s], and the request counter goes up by one under
    code 200 and the request's method; nothing else changes. *)
Theorem wait_plain_segment
    (method s decoded query : string) (env : Env) (c : Collectors) :
  isPlain s = true ->
  ServeHTTP (requestFor method ("/wait/" +:+ s) decoded query) env c =
  ({| version := version c;
      httpRequestsTotal :=
        prometheus.Inc ["200"; promhttp.sanitizeMethod method] (httpRequestsTotal c);
      httpRequestDuration := httpRequestDuration c |},
   Served patWaitSec
     {| status := 200; body := Text ("Waited for " +:+ s +:+ " seconds.");
        slept := [wrap64 (atoiOr5 s * time.Second)]; hashed := [] |}).
Proof.
  intros Hp. unfold ServeHTTP.
  rewrite (findHandler_wait_plain method s decoded query Hp). reflexivity.
Qed.

Lemma wait_plain_segment_witness :
  isPlain "soon" = true /\
  snd (ServeHTTP (requestFor "POST" "/wait/soon" "/wait/soon" "x=1") env0 startup) =
  Served patWaitSec
    {| status := 200; body := Text "Waited for soon seconds.";
       slept := [5 * time.Second]; hashed := [] |}.
Proof.
  split; [reflexivity|].
  exact (f_equal snd (wait_plain_segment "POST" "soon" "/wait/soon" "x=1" env0 startup
                        eq_refl)).
Defined.

(** X4.  A request for [/wait/n], with [n] the decimal form of a number
    from 1 to 9223372036, makes the handler sleep exactly [n] seconds
    and answer 200 with ["Waited for n seconds."]. *)
Theorem wait_sleeps_requested_seconds
    (n : Z) (method decoded query : string) (env : Env) (c : Collectors) :
  1 <= n <= 9223372036 ->
  snd (ServeHTTP (requestFor method ("/wait/" +:+ strconv.Itoa n) decoded query) env c) =
  Served patWaitSec
    {| status := 200;
       body := Text ("Waited for " +:+ strconv.Itoa n +:+ " seconds.");
       slept := [n * time.Second]; hashed := [] |} /\
  time.Sleep (n * time.Second) = n * time.Second.
Proof.
  intros Hn. destruct (Itoa_decimal n ltac:(lia)) as [Hd Hv]. split.
  - transitivity
      (Served patWaitSec
         {| status := 200;
            body := Text ("Waited for " +:+ strconv.Itoa n +:+ " seconds.");
            slept := [wrap64 (atoiOr5 (strconv.Itoa n) * time.Second)];
            hashed := [] |}).
    { unfold ServeHTTP.
      rewrite (findHandler_wait_plain method _ decoded query (decimal_plain _ Hd)).
      reflexivity. }
    rewrite (atoiOr5_keeps (strconv.Itoa n));
      rewrite Atoi_Itoa by (unfold MaxInt64; lia); cbn [fst]; [|lia].
    rewrite wrap64_id by (unfold MinInt64, MaxInt64, time.Second; lia). reflexivity.
  - unfold time.Sleep, time.Second. lia.
Qed.

Lemma wait_sleeps_requested_seconds_witness :
  1 <= 90 <= 9223372036 /\
  snd (ServeHTTP (requestFor "GET" "/wait/90" "/wait/90" "") env0 startup) =
  Served patWaitSec
    {| status := 200; body := Text "Waited for 90 seconds.";
       slept := [90000000000]; hashed := [] |}.
Proof.
  split; [lia|].
  exact (proj1 (wait_sleeps_requested_seconds 90 "GET" "/wait/90" "" env0 startup
                  ltac:(lia))).
Defined.

Lemma hashHandler_on (a b : string) (p : http.pattern) (ms : list string)
    (r : http.Request) (env : Env) (c : Collectors) :
  http.PathValue p ms "mb" = Some a -> http.PathValue p ms "iterations" = Some b ->
  hashHandler {| req := r; pat := p; matches := ms |} env c =
  (c, Some {| status := 200;
              body := Text ("Hashing " +:+ strconv.Itoa (atoiOr5 a) +:+ " mb, " +:+
                            strconv.Itoa (atoiOr5 b) +:+ " times took " +:+ elapsed env);
              slept := [];
              hashed := repeat (wrap64 (wrap64 (atoiOr5 a * 1024) * 1024))
                               (Z.to_nat (atoiOr5 b)) |}).
Proof.
  intros Ha Hb. unfold hashHandler. cbn [pat matches]. rewrite Hb, Ha. reflexivity.
Qed.

Lemma whole_mebibytes (mb : Z) :
  1 <= mb <= 8796093022207 -> wrap64 (wrap64 (mb * 1024) * 1024) = mb * 1048576.
Proof.
  intros Hmb. rewrite (wrap64_id (mb * 1024)) by (unfold MinInt64, MaxInt64; lia).
  rewrite wrap64_id by (unfold MinInt64, MaxInt64; lia). lia.
Qed.

(** X5.  A request for [/hash/mb/iterations], both in decimal, [mb]
    from 1 to 8796093022207 (the largest number of MiB whose byte count
    fits an [int]) and [iterations] from 1 on: the hasher is called
    [iterations] times, each time for [mb * 1048576] bytes, and the
    answer is 200 with a body that names both numbers and the time
    measured. *)
Theorem hash_runs_requested_work
    (mb iterations : Z) (method decoded query : string) (env : Env) (c : Collectors) :
  1 <= mb <= 8796093022207 -> 1 <= iterations <= MaxInt64 ->
  snd (ServeHTTP
         (requestFor method
            ("/hash/" +:+ strconv.Itoa mb +:+ "/" +:+ strconv.Itoa iterations)
            decoded query) env c) =
  Served patHashMbIterations
    {| status := 200;
       body := Text ("Hashing " +:+ strconv.Itoa mb +:+ " mb, " +:+
                     strconv.Itoa iterations +:+ " times took " +:+ elapsed env);
       slept := [];
       hashed := repeat (mb * 1048576) (Z.to_nat iterations) |}.
Proof.
  intros Hmb Hit.
  destruct (Itoa_decimal mb ltac:(lia)) as [Hda _].
  destruct (Itoa_decimal iterations ltac:(lia)) as [Hdb _].
  apply decimal_plain in Hda, Hdb.
  unfold ServeHTTP.
  rewrite (findHandler_exact _ patHashMbIterations (InstrumentHandlerCounter hashHandler)
             [strconv.Itoa mb; strconv.Itoa iterations]).
  - unfold InstrumentHandlerCounter.
    pose proof (hashHandler_on (strconv.Itoa mb) (strconv.Itoa iterations)
                  patHashMbIterations [strconv.Itoa mb; strconv.Itoa iterations]
                  (requestFor method
                     ("/hash/" +:+ strconv.Itoa mb +:+ "/" +:+ strconv.Itoa iterations)
                     decoded query) env c eq_refl eq_refl) as Hres.
    rewrite Hres. cbn [snd status].
    rewrite !atoiOr5_keeps; rewrite !Atoi_Itoa by (unfold MaxInt64 in *; lia);
      cbn [fst]; try lia.
    now rewrite whole_mebibytes.
  - cbn [requestFor http.URL url.EscapedPath]. rewrite <- joinPath_hash_mb_iterations.
    apply cleanPath_joinPath; [repeat constructor; assumption|discriminate].
  - cbn [requestFor http.URL url.EscapedPath]. rewrite <- joinPath_hash_mb_iterations.
    now apply treeMatch_hash_mb_iterations.
  - reflexivity.
Qed.

Lemma hash_runs_requested_work_witness :
  1 <= 2 <= 8796093022207 /\ 1 <= 3 <= MaxInt64 /\
  snd (ServeHTTP (requestFor "GET" "/hash/2/3" "/hash/2/3" "") env0 startup) =
  Served patHashMbIterations
    {| status := 200; body := Text ("Hashing 2 mb, 3 times took " +:+ elapsed env0);
       slept := []; hashed := [2097152; 2097152; 2097152] |}.
Proof.
  split; [lia|]. split; [unfold MaxInt64; lia|].
  exact (hash_runs_requested_work 2 3 "GET" "/hash/2/3" "" env0 startup
           ltac:(lia) ltac:(unfold MaxInt64; lia)).
Defined.

(** X6.  A request for [/hash/mb] alone, [mb] in decimal from 1 to
    8796093022207, runs the default 5 iterations of [mb * 1048576]
    bytes each. *)
Theorem hash_default_iterations
    (mb : Z) (method decoded query : string) (env : Env) (c : Collectors) :
  1 <= mb <= 8796093022207 ->
  snd (ServeHTTP (requestFor method ("/hash/" +:+ strconv.Itoa mb) decoded query) env c) =
  Served patHashMb
    {| status := 200;
       body := Text ("Hashing " +:+ strconv.Itoa mb +:+ " mb, 5 times took " +:+
                     elapsed env);
       slept := [];
       hashed := repeat (mb * 1048576) 5 |}.
Proof.
  intros Hmb. destruct (Itoa_decimal mb ltac:(lia)) as [Hda _].
  apply decimal_plain in Hda. unfold ServeHTTP.
  rewrite (findHandler_exact _ patHashMb (InstrumentHandlerCounter hashHandler)
             [strconv.Itoa mb]).
  - unfold InstrumentHandlerCounter.
    pose proof (hashHandler_on (strconv.Itoa mb) "" patHashMb [strconv.Itoa mb]
                  (requestFor method ("/hash/" +:+ strconv.Itoa mb) decoded query)
                  env c eq_refl eq_refl) as Hres.
    rewrite Hres. cbn [snd status].
    rewrite (atoiOr5_keeps (strconv.Itoa mb));
      rewrite Atoi_Itoa by (unfold MaxInt64; lia); cbn [fst]; [|lia].
    now rewrite whole_mebibytes.
  - cbn [requestFor http.URL url.EscapedPath]. rewrite <- joinPath_hash_mb.
    apply cleanPath_joinPath; [repeat constructor; assumption|discriminate].
  - cbn [requestFor http.URL url.EscapedPath]. rewrite <- joinPath_hash_mb.
    now apply treeMatch_hash_mb.
  - reflexivity.
Qed.

Lemma hash_default_iterations_witness :
  1 <= 7 <= 8796093022207 /\
  snd (ServeHTTP (requestFor "GET" "/hash/7" "/hash/7" "") env0 startup) =
  Served patHashMb
    {| status := 200; body := Text ("Hashing 7 mb, 5 times took " +:+ elapsed env0);
       slept := []; hashed := repeat 7340032 5 |}.
Proof.
  split; [lia|].
  exact (hash_default_iterations 7 "GET" "/hash/7" "" env0 startup ltac:(lia)).
Defined.

(** ** The hasher: rounding and the message hashed *)

Lemma wrap64_keeps_multiples (z : Z) : z mod 1024 = 0 -> wrap64 z mod 1024 = 0.
Proof.
  intros Hz. unfold wrap64.
  pose proof (Z.div_mod (z + 2 ^ 63) (2 ^ 64) ltac:(lia)) as Hq.
  pose proof (Z.div_mod z 1024 ltac:(lia)) as Hk. rewrite Hz in Hk.
  set (q := (z + 2 ^ 63) / 2 ^ 64) in *. set (k := z / 1024) in *.
  replace ((z + 2 ^ 63) mod 2 ^ 64 - 2 ^ 63) with ((k - 2 ^ 54 * q) * 1024) by lia.
  apply Z.mod_mul. lia.
Qed.

(** For a counter that is a whole number of buffers, the guard of the
    loop only depends on the target rounded up to whole buffers. *)
Lemma guard_rounds_up (b N : Z) :
  b mod 1024 = 0 -> (b <? N) = (b / 1024 <? (N + 1023) / 1024).
Proof.
  intros Hb.
  pose proof (Z.div_mod b 1024 ltac:(lia)) as Hk. rewrite Hb in Hk.
  pose proof (Z.div_mod (N + 1023) 1024 ltac:(lia)) as Hq.
  pose proof (Z.mod_pos_bound (N + 1023) 1024 ltac:(lia)) as Hr.
  destruct (Z.ltb_spec b N), (Z.ltb_spec (b / 1024) ((N + 1023) / 1024)); lia.
Qed.

Lemma hashLoop_rounds_up (rnd : RandSource) (N N' : Z) (fuel : nat) :
  (N + 1023) / 1024 = (N' + 1023) / 1024 ->
  forall st : hashState,
    bytesProcessed st mod 1024 = 0 ->
    hashLoop fuel rnd N st = hashLoop fuel rnd N' st.
Proof.
  intros Hceil. induction fuel as [|fuel IH]; intros st Hb; cbn [hashLoop];
    rewrite (guard_rounds_up _ N Hb), (guard_rounds_up _ N' Hb), Hceil;
    try reflexivity.
  destruct (_ <? _); [|reflexivity].
  apply IH. rewrite hashStep_bytesProcessed. apply wrap64_keeps_multiples.
  rewrite <- Z.add_mod_idemp_l, Hb by lia. reflexivity.
Qed.

(** X7.  The target only counts rounded up to whole 1024-byte buffers:
    two targets with the same number of buffers give the same result,
    with the same fuel and the same random bytes; asking for 1 byte
    hashes as much as asking for 1024. *)
Theorem hashRandomData_rounds_up (rnd : RandSource) (N N' : Z) (fuel : nat) :
  (N + 1023) / 1024 = (N' + 1023) / 1024 ->
  hashRandomData fuel rnd N = hashRandomData fuel rnd N'.
Proof.
  intros Hceil. unfold hashRandomData.
  now rewrite (hashLoop_rounds_up rnd N N' fuel Hceil hashInit eq_refl).
Qed.

Lemma hashRandomData_rounds_up_witness :
  (1 + 1023) / 1024 = (1024 + 1023) / 1024 /\
  hashRandomData 1 countingSource 1 = hashRandomData 1 countingSource 1024.
Proof.
  split; [reflexivity|].
  exact (hashRandomData_rounds_up countingSource 1 1024 1 eq_refl).
Defined.

Lemma blockGeneric_app (n m : nat) :
  forall (s : sha256.regs) (a b : list byte),
    length a = (n * 64)%nat ->
    sha256.blockGeneric (n + m) s (a ++ b) =
    sha256.blockGeneric m (sha256.blockGeneric n s a) b.
Proof.
  induction n as [|n IH]; intros s a b Ha.
  - destruct a; [reflexivity|discriminate].
  - cbn [Nat.add sha256.blockGeneric]. unfold sha256.chunk.
    assert (Hlen : (64 <= length a)%nat) by lia.
    rewrite firstn_app, skipn_app.
    replace (64 - length a)%nat with O by lia.
    cbn [firstn skipn]. rewrite app_nil_r.
    apply IH. rewrite length_skipn. lia.
Qed.

(** Writing whole blocks to a hasher with an empty buffer runs the
    block function over them and leaves the buffer empty. *)
Lemma Write_aligned (d : sha256.digest) (p : list byte) (n : nat) :
  sha256.x d = [] -> length p = (n * 64)%nat ->
  sha256.Write d p =
  sha256.Digest (sha256.blockGeneric n (sha256.h d) p) []
                (wrapU64 (sha256.len d + Z.of_nat (length p))).
Proof.
  intros Hx Hp. unfold sha256.Write. rewrite Hx. cbn [length Nat.ltb Nat.leb].
  unfold sha256.chunk.
  destruct n as [|n].
  - destruct p; [reflexivity|discriminate].
  - destruct (Nat.leb_spec 64 (length p)); [|lia].
    assert (Hdiv : (length p / 64 = S n)%nat) by (rewrite Hp; apply Nat.div_mul; lia).
    rewrite Hdiv, <- Hp. rewrite firstn_all, skipn_all. cbn [length Nat.ltb Nat.leb].
    unfold sha256.block, sha256.chunk. now rewrite Hdiv.
Qed.

Lemma randRead_is_slice (rnd : RandSource) (k : nat) :
  randRead rnd k = map rnd (seq (k * bufferLen) bufferLen).
Proof.
  unfold randRead. generalize bufferLen as len. intros len.
  generalize (k * len)%nat as start. intros start.
  revert start. induction len as [|len IH]; intros start; [reflexivity|].
  cbn [seq map]. rewrite Nat.add_0_r. f_equal.
  rewrite <- seq_shift, map_map. rewrite <- IH.
  apply map_ext. intros j. f_equal. lia.
Qed.

Lemma streamPrefix_S (rnd : RandSource) (k : nat) :
  streamPrefix rnd (S k * bufferLen) = streamPrefix rnd (k * bufferLen) ++ randRead rnd k.
Proof.
  unfold streamPrefix. rewrite randRead_is_slice, <- map_app. f_equal.
  replace (S k * bufferLen)%nat with (k * bufferLen + bufferLen)%nat by lia.
  apply seq_app.
Qed.

Lemma streamPrefix_length (rnd : RandSource) (n : nat) : length (streamPrefix rnd n) = n.
Proof. unfold streamPrefix. now rewrite length_map, length_seq. Qed.

(** The hasher after [k] chunks holds what one write of the first
    [1024 * k] bytes of the stream gives. *)
Lemma hasherAfter_one_write (rnd : RandSource) (k : nat) :
  hasherAfter rnd k = sha256.Write sha256.New (streamPrefix rnd (k * bufferLen)).
Proof.
  assert (Hbuf : bufferLen = (16 * 64)%nat) by reflexivity.
  assert (Hform : hasherAfter rnd k =
                  sha256.Digest
                    (sha256.blockGeneric (k * 16) sha256.init
                                         (streamPrefix rnd (k * bufferLen)))
                    [] (wrapU64 (Z.of_nat (k * bufferLen)))).
  { induction k as [|k IH]; [reflexivity|].
    unfold hasherAfter in *. rewrite seq_S, map_app, fold_left_app, IH.
    cbn [map fold_left Nat.add].
    rewrite (Write_aligned _ (randRead rnd k) 16) by
      (try reflexivity; rewrite randRead_length; exact Hbuf).
    cbn [sha256.h sha256.len]. f_equal.
    - rewrite streamPrefix_S.
      replace (S k * 16)%nat with (k * 16 + 16)%nat by lia.
      symmetry. apply blockGeneric_app. rewrite streamPrefix_length, Hbuf. lia.
    - unfold wrapU64. rewrite randRead_length, Z.add_mod_idemp_l by lia.
      f_equal. lia. }
  rewrite Hform.
  rewrite (Write_aligned sha256.New _ (k * 16)) by
    (try reflexivity; rewrite streamPrefix_length, Hbuf; lia).
  rewrite streamPrefix_length. reflexivity.
Qed.

(** The final state of a run does not depend on the fuel that sufficed. *)
Lemma hashLoop_fuel_irrelevant (rnd : RandSource) (N : Z) (f1 f2 : nat)
    (st st1 st2 : hashState) :
  hashLoop f1 rnd N st = Some st1 -> hashLoop f2 rnd N st = Some st2 -> st1 = st2.
Proof.
  intros H1 H2.
  pose proof (hashLoop_more_fuel rnd N f1 st st1 f2 H1) as H1'.
  pose proof (hashLoop_more_fuel rnd N f2 st st2 f1 H2) as H2'.
  rewrite Nat.add_comm in H2'. congruence.
Qed.

(** X8.  For a target from 1 to [2^63 - 1024], what [hashRandomData]
    returns is the hexadecimal form of the SHA-256 checksum of all the
    random bytes it read, taken as one message: the first
    [1024 * ceil(N / 1024)] bytes of the stream, not the last chunk
    alone. *)
Theorem hashRandomData_hashes_whole_stream
    (rnd : RandSource) (N : Z) (fuel : nat) (s : string) :
  1 <= N -> N <= 2 ^ 63 - 1024 ->
  hashRandomData fuel rnd N = Some s ->
  s = fmt.Sprintf_x
        (Sum256 (streamPrefix rnd (Z.to_nat ((N + 1023) / 1024) * bufferLen))).
Proof.
  intros Hpos Hmax Hret. unfold hashRandomData in Hret.
  destruct (hashLoop fuel rnd N hashInit) as [st|] eqn:Hrun; [|discriminate].
  injection Hret as <-.
  destruct (hashLoop_sound rnd N fuel _ _ Hrun) as (Hge & j & Hrd & Hh & Hzero & Hsum).
  assert (Hj : j <> O).
  { intros ->. rewrite (Hzero eq_refl) in Hge. cbn in Hge. lia. }
  cbn [reads hasher hashInit Nat.add] in Hrd, Hh.
  destruct (hashLoop_runs rnd N Hmax (Z.to_nat ((N + 1023) / 1024)) hashInit)
    as (st' & j' & Hrun' & _ & Hbp & Hrd' & Hge' & Hlt').
  { cbn. unfold MinInt64. lia. }
  { cbn [bytesProcessed hashInit]. pose proof (enough_fuel N). lia. }
  rewrite <- (hashLoop_fuel_irrelevant _ _ _ _ _ _ _ Hrun Hrun') in *.
  cbn [bytesProcessed reads hashInit Nat.add] in Hbp, Hrd'.
  assert (Hj' : j' <> O) by (intros ->; cbn in Hbp; lia).
  specialize (Hlt' Hj').
  assert (Hceil : (N + 1023) / 1024 = Z.of_nat j').
  { symmetry.
    apply (Z.div_unique (N + 1023) 1024 (Z.of_nat j') (N + 1023 - 1024 * Z.of_nat j')); lia. }
  rewrite (Hsum Hj), Hceil, Nat2Z.id. unfold Sum256.
  rewrite <- hasherAfter_one_write. fold (hasherAfter rnd j) in Hh.
  rewrite Hh. f_equal. f_equal. f_equal. lia.
Qed.

Lemma hashRandomData_hashes_whole_stream_witness :
  1 <= 1025 /\ 1025 <= 2 ^ 63 - 1024 /\
  hashRandomData 2 countingSource 1025 =
    Some (fmt.Sprintf_x (Sum256 (streamPrefix countingSource 2048))).
Proof.
  split; [lia|]. split; [lia|].
  assert (Hret : hashRandomData 2 countingSource 1025 =
                 Some "10fc3c51a152e90e5b90319b601d92ccf37290ef53c35ff92507687d8a911a08")
    by (vm_compute; reflexivity).
  rewrite Hret.
  exact (f_equal Some
           (hashRandomData_hashes_whole_stream countingSource 1025 2 _
              ltac:(lia) ltac:(lia) Hret)).
Defined.

(** ** The collectors, request by request *)

Lemma registered_status (p : http.pattern) (h : Handler) :
  In (p, h) mux ->
  forall (r : Ctx) (env : Env) (c : Collectors) (done : Result),
    snd (h r env c) = Some done -> status done = statusOf p.
Proof.
  intros Hin r env c done. unfold mux in Hin. cbn [In] in Hin.
  repeat (destruct Hin as [Heq|Hin];
          [injection Heq as <- <-; run_handler; cbn [snd];
           first [discriminate | intros [= <-]; reflexivity]|]).
  contradiction.
Qed.

Lemma ServeHTTP_collectors (r : http.Request) (env : Env) (c : Collectors) :
  version (fst (ServeHTTP r env c)) = version c /\
  httpRequestsTotal (fst (ServeHTTP r env c)) =
    match counterLabels r with
    | Some l => prometheus.Inc l (httpRequestsTotal c)
    | None => httpRequestsTotal c
    end /\
  httpRequestDuration (fst (ServeHTTP r env c)) =
    match durationLabels r with
    | Some l => prometheus.Observe l (sinceNow env) (httpRequestDuration c)
    | None => httpRequestDuration c
    end.
Proof.
  unfold ServeHTTP, counterLabels, durationLabels.
  destruct (http.findHandler mux r) as [p h ms| |] eqn:Hf; cbn [fst]; auto.
  apply findHandler_Matched, treeMatch_sound in Hf. destruct Hf as [Hin _].
  destruct (registered_effect p h Hin {| req := r; pat := p; matches := ms |} env c)
    as (Hver & Hcnt & Hdur).
  pose proof (registered_status p h Hin {| req := r; pat := p; matches := ms |} env c)
    as Hst.
  rewrite (registered_returns p h Hin _ env c).
  destruct (h {| req := r; pat := p; matches := ms |} env c) as [c' [done|]];
    cbn [fst snd req] in *; rewrite Hver, Hcnt, Hdur.
  - rewrite (Hst done eq_refl).
    destruct (String.eqb (http.str p) "/metrics"), (String.eqb (http.str p) "/");
      repeat split; reflexivity.
  - destruct (String.eqb (http.str p) "/metrics"), (String.eqb (http.str p) "/");
      repeat split; reflexivity.
Qed.

(** X9.  Whatever the request, a registered handler that runs writes
    the status fixed for its pattern: 404 for [/err], 500 for
    [/internal-err] and 200 for every other pattern; the wait and hash
    handlers answer 200 whatever their parameters are. *)
Theorem status_fixed_by_pattern
    (r : http.Request) (env : Env) (c : Collectors) (p : http.pattern) (res : Result) :
  snd (ServeHTTP r env c) = Served p res -> status res = statusOf p.
Proof.
  unfold ServeHTTP.
  destruct (http.findHandler mux r) as [q h ms| |] eqn:Hf; try discriminate.
  apply findHandler_Matched, treeMatch_sound in Hf. destruct Hf as [Hin _].
  pose proof (registered_status q h Hin {| req := r; pat := q; matches := ms |} env c)
    as Hst.
  destruct (h {| req := r; pat := q; matches := ms |} env c) as [c' [done|]];
    cbn [snd] in *; [|discriminate].
  intros [= -> ->]. now apply Hst.
Qed.

Lemma status_fixed_by_pattern_witness :
  snd (ServeHTTP (request "GET" "/wait/-1") env0 startup) =
    Served patWaitSec
      {| status := 200; body := Text "Waited for -1 seconds.";
         slept := [5000000000]; hashed := [] |} /\
  status {| status := 200; body := Text "Waited for -1 seconds.";
            slept := [5000000000]; hashed := [] |} = statusOf patWaitSec.
Proof.
  split; [reflexivity|].
  exact (status_fixed_by_pattern (request "GET" "/wait/-1") env0 startup patWaitSec _
           eq_refl).
Defined.

Lemma lookup_Inc (l key : list string) (m : prometheus.CounterVec) :
  default O (prometheus.Inc l m !! key) =
  (default O (m !! key) + (if bool_decide (l = key) then 1 else 0))%nat.
Proof.
  unfold prometheus.Inc. destruct (bool_decide_reflect (l = key)) as [->|Hne].
  - rewrite lookup_insert_eq. cbn [default from_option id]. lia.
  - rewrite lookup_insert_ne by assumption. lia.
Qed.

Lemma lookup_Observe (l key : list string) (v : Z) (m : prometheus.HistogramVec) :
  default [] (prometheus.Observe l v m !! key) =
  (if bool_decide (l = key) then [v] else []) ++ default [] (m !! key).
Proof.
  unfold prometheus.Observe. destruct (bool_decide_reflect (l = key)) as [->|Hne].
  - rewrite lookup_insert_eq. reflexivity.
  - rewrite lookup_insert_ne by assumption. reflexivity.
Qed.

Lemma serveAll_counter (rs : list (http.Request * Env)) (key : list string) :
  forall c : Collectors,
    default O (httpRequestsTotal (serveAll rs c) !! key) =
    (default O (httpRequestsTotal c !! key) +
     length (List.filter
               (fun x => bool_decide (counterLabels (fst x) = Some key)) rs))%nat.
Proof.
  induction rs as [|[r env] rs IH]; intros c; cbn [serveAll List.filter fst length].
  - lia.
  - rewrite IH. destruct (ServeHTTP_collectors r env c) as (_ & -> & _).
    destruct (counterLabels r) as [l|].
    + rewrite lookup_Inc.
      destruct (bool_decide_reflect (l = key)) as [->|Hne].
      * rewrite bool_decide_eq_true_2 by reflexivity. cbn [length]. lia.
      * rewrite bool_decide_eq_false_2 by congruence. lia.
    + rewrite bool_decide_eq_false_2 by discriminate. lia.
Qed.

(** X10.  After any sequence of requests, the counter child for a
    combination of labels holds the number of requests of the sequence
    that were counted under exactly these labels: the status fixed for
    the pattern that matched and the sanitized method, for a request
    whose handler returned; a request on which the handler panics is
    counted under no labels, and a child that no request touched reads
    as 0. *)
Theorem counter_child_counts_its_requests
    (rs : list (http.Request * Env)) (key : list string) :
  default O (httpRequestsTotal (serveAll rs startup) !! key) =
  length (List.filter (fun x => bool_decide (counterLabels (fst x) = Some key)) rs).
Proof. rewrite serveAll_counter. reflexivity. Qed.

Lemma serveAll_version (rs : list (http.Request * Env)) :
  forall c : Collectors, version (serveAll rs c) = version c.
Proof.
  induction rs as [|[r env] rs IH]; intros c; cbn [serveAll]; [reflexivity|].
  rewrite IH. now destruct (ServeHTTP_collectors r env c) as (-> & _).
Qed.

(** X11.  The collectors only accumulate: over any sequence of requests,
    from any state, no counter child goes down, no observation is
    dropped from a histogram child, and the version gauge keeps its
    value. *)
Theorem collectors_only_accumulate
    (rs : list (http.Request * Env)) (c : Collectors) (key : list string) :
  version (serveAll rs c) = version c /\
  (default O (httpRequestsTotal c !! key) <=
   default O (httpRequestsTotal (serveAll rs c) !! key))%nat /\
  exists newer, default [] (httpRequestDuration (serveAll rs c) !! key) =
                newer ++ default [] (httpRequestDuration c !! key).
Proof.
  split; [apply serveAll_version|]. split; [rewrite serveAll_counter; lia|].
  revert c. induction rs as [|[r env] rs IH]; intros c; cbn [serveAll].
  - exists []. reflexivity.
  - destruct (IH (fst (ServeHTTP r env c))) as [newer ->].
    destruct (ServeHTTP_collectors r env c) as (_ & _ & ->).
    destruct (durationLabels r) as [l|]; [|eauto].
    rewrite lookup_Observe. rewrite app_assoc. eauto.
Qed.

(** X12.  After any sequence of requests, the histogram child for a
    combination of labels holds the durations observed for the requests
    that the chain for ["/"] served with the method of these labels,
    latest first; every other child is empty. *)
Theorem histogram_child_holds_found_durations
    (rs : list (http.Request * Env)) (key : list string) :
  default [] (httpRequestDuration (serveAll rs startup) !! key) =
  rev (map (fun x => sinceNow (snd x))
           (List.filter (fun x => bool_decide (durationLabels (fst x) = Some key)) rs)).
Proof.
  assert (Hgen : forall c,
    default [] (httpRequestDuration (serveAll rs c) !! key) =
    rev (map (fun x => sinceNow (snd x))
             (List.filter (fun x => bool_decide (durationLabels (fst x) = Some key)) rs))
    ++ default [] (httpRequestDuration c !! key)).
  { induction rs as [|[r env] rs IH]; intros c; cbn [serveAll List.filter fst];
      [reflexivity|].
    rewrite IH. destruct (ServeHTTP_collectors r env c) as (_ & _ & ->).
    destruct (durationLabels r) as [l|].
    - rewrite lookup_Observe.
      destruct (bool_decide_reflect (l = key)) as [->|Hne].
      + rewrite bool_decide_eq_true_2 by reflexivity.
        cbn [map rev snd]. now rewrite <- app_assoc.
      + rewrite bool_decide_eq_false_2 by congruence. reflexivity.
    - rewrite bool_decide_eq_false_2 by discriminate. reflexivity. }
  rewrite Hgen. cbn [startup httpRequestDuration]. rewrite lookup_empty.
  apply app_nil_r.
Qed.

Lemma sanitizeMethod_known (m : string) :
  In (promhttp.sanitizeMethod m) sanitizedMethods.
Proof.
  unfold promhttp.sanitizeMethod, promhttp.knownMethods, sanitizedMethods.
  cbn [promhttp.sanitizeMethodIn].
  repeat (destruct (_ || _); [cbn; tauto|]). cbn; tauto.
Qed.

Lemma counterLabels_known (r : http.Request) (l : list string) :
  counterLabels r = Some l ->
  exists code method, l = [code; method] /\
                      In code ["200"; "404"; "500"] /\ In method sanitizedMethods.
Proof.
  unfold counterLabels. destruct (http.findHandler mux r) as [p h ms| |]; try discriminate.
  destruct (String.eqb (http.str p) "/metrics"); [discriminate|].
  destruct (returns h _); [|discriminate].
  intros [= <-]. eexists _, _. split; [reflexivity|]. split; [|apply sanitizeMethod_known].
  unfold statusOf. repeat (destruct (String.eqb _ _)); cbn; tauto.
Qed.

(** X13.  Whatever the clients send, the request counter only ever has
    children for the codes 200, 404 and 500 combined with one of the
    eleven sanitized methods (an unknown method is counted as
    ["unknown"]), so at most 33 series; and a child that exists has
    counted at least one request. *)
Theorem counter_children_bounded
    (rs : list (http.Request * Env)) (key : list string) (n : nat) :
  httpRequestsTotal (serveAll rs startup) !! key = Some n ->
  (1 <= n)%nat /\
  exists code method, key = [code; method] /\
                      In code ["200"; "404"; "500"] /\ In method sanitizedMethods.
Proof.
  assert (Hgen : forall c,
    (forall k v, httpRequestsTotal c !! k = Some v ->
                 (1 <= v)%nat /\
                 exists code method, k = [code; method] /\
                   In code ["200"; "404"; "500"] /\ In method sanitizedMethods) ->
    httpRequestsTotal (serveAll rs c) !! key = Some n ->
    (1 <= n)%nat /\
    exists code method, key = [code; method] /\
      In code ["200"; "404"; "500"] /\ In method sanitizedMethods).
  { induction rs as [|[r env] rs IH]; intros c Hc; cbn [serveAll]; [apply Hc|].
    apply IH. intros k v. destruct (ServeHTTP_collectors r env c) as (_ & -> & _).
    destruct (counterLabels r) as [l|] eqn:Hl; [|apply Hc].
    unfold prometheus.Inc. destruct (decide (l = k)) as [->|Hne].
    - rewrite lookup_insert_eq. intros [= <-]. split; [lia|].
      now apply (counterLabels_known r).
    - rewrite lookup_insert_ne by assumption. apply Hc. }
  apply Hgen. intros k v. cbn [startup httpRequestsTotal]. now rewrite lookup_empty.
Qed.

Lemma counter_children_bounded_witness :
  httpRequestsTotal
    (serveAll [(request "BREW" "/err", env0); (request "brew" "/err", env0)] startup)
    !! ["404"; "unknown"] = Some 2%nat /\
  (1 <= 2)%nat /\
  exists code method, ["404"; "unknown"] = [code; method] /\
                      In code ["200"; "404"; "500"] /\ In method sanitizedMethods.
Proof.
  split; [vm_compute; reflexivity|].
  exact (counter_children_bounded
           [(request "BREW" "/err", env0); (request "brew" "/err", env0)]
           ["404"; "unknown"] 2 ltac:(vm_compute; reflexivity)).
Defined.

(** ** The order of requests *)

Lemma Inc_comm (a b : list string) (m : prometheus.CounterVec) :
  prometheus.Inc a (prometheus.Inc b m) = prometheus.Inc b (prometheus.Inc a m).
Proof.
  apply map_eq. intros k. unfold prometheus.Inc.
  destruct (decide (a = b)) as [->|Hab]; [reflexivity|].
  rewrite !(lookup_insert_ne _ _ _ _ Hab).
  assert (Hba : b <> a) by congruence.
  rewrite !(lookup_insert_ne _ _ _ _ Hba).
  destruct (decide (a = k)) as [->|Hak].
  - rewrite lookup_insert_eq, lookup_insert_ne, lookup_insert_eq by assumption.
    reflexivity.
  - rewrite (lookup_insert_ne _ a k) by assumption.
    destruct (decide (b = k)) as [->|Hbk].
    + now rewrite !lookup_insert_eq.
    + now rewrite !lookup_insert_ne by assumption.
Qed.

Lemma serveAll_counter_fold (rs : list (http.Request * Env)) :
  forall c : Collectors,
    httpRequestsTotal (serveAll rs c) =
    fold_left (fun m x => match counterLabels (fst x) with
                          | Some l => prometheus.Inc l m
                          | None => m
                          end) rs (httpRequestsTotal c).
Proof.
  induction rs as [|[r env] rs IH]; intros c; cbn [serveAll fold_left fst];
    [reflexivity|].
  rewrite IH. now destruct (ServeHTTP_collectors r env c) as (_ & -> & _).
Qed.

(** X14.  The request counter does not depend on the order in which the
    requests complete: two sequences with the same requests, in any
    order, leave the same counter vector. *)
Theorem counter_ignores_order
    (rs rs' : list (http.Request * Env)) (c : Collectors) :
  Permutation.Permutation rs rs' ->
  httpRequestsTotal (serveAll rs c) = httpRequestsTotal (serveAll rs' c).
Proof.
  intros Hperm. rewrite !serveAll_counter_fold.
  generalize (httpRequestsTotal c) as m.
  induction Hperm as [|x rs rs' _ IH|x y rs|rs1 rs2 rs3 _ IH1 _ IH2]; intros m.
  - reflexivity.
  - cbn [fold_left]. apply IH.
  - cbn [fold_left]. f_equal.
    destruct (counterLabels (fst y)), (counterLabels (fst x)); try reflexivity.
    apply Inc_comm.
  - now rewrite IH1.
Qed.

Lemma counter_ignores_order_witness :
  Permutation.Permutation
    [(request "GET" "/", env0); (request "GET" "/err", env0)]
    [(request "GET" "/err", env0); (request "GET" "/", env0)] /\
  httpRequestsTotal
    (serveAll [(request "GET" "/", env0); (request "GET" "/err", env0)] startup) =
  httpRequestsTotal
    (serveAll [(request "GET" "/err", env0); (request "GET" "/", env0)] startup).
Proof.
  split; [apply Permutation.perm_swap|].
  exact (counter_ignores_order _ _ startup (Permutation.perm_swap _ _ [])).
Defined.

(** ** The root and the metrics routes *)

(** X15.  A request for [/metrics], whatever its method and query, is
    answered 200 with the exposition of the collectors as they are when
    it arrives, and leaves them as they are: a scrape shows every
    earlier request and never itself. *)
Theorem metrics_scrape_reads_only
    (method decoded query : string) (env : Env) (c : Collectors) :
  ServeHTTP (requestFor method "/metrics" decoded query) env c =
  (c, Served patMetrics
        {| status := 200; body := Exposition c; slept := []; hashed := [] |}).
Proof.
  unfold ServeHTTP, http.findHandler. cbn [requestFor http.Method http.URL url.EscapedPath].
  destruct (String.eqb method "CONNECT"); reflexivity.
Qed.

(** X16.  A request for [/], whatever its method and query, is answered
    200 with the greeting; it is counted under code 200 and its method,
    and its duration is observed under code 200, handler ["found"] and
    its method. *)
Theorem root_served_counted_and_timed
    (method decoded query : string) (env : Env) (c : Collectors) :
  ServeHTTP (requestFor method "/" decoded query) env c =
  ({| version := version c;
      httpRequestsTotal :=
        prometheus.Inc ["200"; promhttp.sanitizeMethod method] (httpRequestsTotal c);
      httpRequestDuration :=
        prometheus.Observe ["200"; "found"; promhttp.sanitizeMethod method]
                           (sinceNow env) (httpRequestDuration c) |},
   Served patRoot hello).
Proof.
  unfold ServeHTTP, http.findHandler. cbn [requestFor http.Method http.URL url.EscapedPath].
  destruct (String.eqb method "CONNECT"); reflexivity.
Qed.

(** ** The command line *)

(** X17.  Without arguments, and whenever the first argument is not a
    flag (it is shorter than two bytes, does not start with a minus
    sign, or is [--]), the flags keep their defaults: the server
    listens on [:8080] and serves the mux without h2c. *)
Theorem no_flags_means_defaults (args : list string) :
  match args with
  | [] => True
  | s :: _ => flag.flagText s = None
  end ->
  serverFor args = inr {| Addr := ":8080"; h2cHandler := false |}.
Proof.
  unfold serverFor. destruct args as [|s rest]; [reflexivity|].
  intros Hs. cbn [Parse]. rewrite Hs. reflexivity.
Qed.

Lemma no_flags_means_defaults_witness :
  flag.flagText "serve" = None /\
  serverFor ["serve"; "-bind"; ":9090"] = inr {| Addr := ":8080"; h2cHandler := false |}.
Proof.
  split; [reflexivity|].
  exact (no_flags_means_defaults ["serve"; "-bind"; ":9090"] eq_refl).
Defined.

(** X18.  The [-bind] flag sets the listen address to any string given,
    as the next argument or after an equals sign, with one or two minus
    signs, and whether [-h2c] comes before or after it; [-h2c] alone
    switches the handler and keeps the default address. *)
Theorem bind_flag_sets_address (a : string) :
  serverFor ["-bind"; a] = inr {| Addr := a; h2cHandler := false |} /\
  serverFor ["--bind"; a] = inr {| Addr := a; h2cHandler := false |} /\
  serverFor ["-bind=" +:+ a] = inr {| Addr := a; h2cHandler := false |} /\
  serverFor ["-h2c"; "-bind"; a] = inr {| Addr := a; h2cHandler := true |} /\
  serverFor ["-bind"; a; "-h2c"] = inr {| Addr := a; h2cHandler := true |} /\
  serverFor ["-h2c"] = inr {| Addr := ":8080"; h2cHandler := true |}.
Proof. repeat split; reflexivity. Qed.

(** ** Redirects *)

(** X19.  A request for [/wait] or [/hash], without the slash of the
    subtree pattern, runs no handler: whatever its method, the mux
    redirects it to the path with the slash appended and keeps the
    query; the collectors are unchanged, so the request is not counted. *)
Theorem subtree_roots_redirected
    (method decoded query : string) (env : Env) (c : Collectors) :
  ServeHTTP (requestFor method "/wait" decoded query) env c =
    (c, Redirected (http.cleanPath decoded +:+ "/") query) /\
  ServeHTTP (requestFor method "/hash" decoded query) env c =
    (c, Redirected (http.cleanPath decoded +:+ "/") query).
Proof.
  unfold ServeHTTP, http.findHandler. cbn [requestFor http.Method http.URL url.EscapedPath].
  destruct (String.eqb method "CONNECT"); split; reflexivity.
Qed.

(** X20.  A request, other than [CONNECT], whose path is not in
    canonical form (it has an empty segment, a [.] or a [..]) never
    reaches a handler: the mux answers with a redirect that keeps the
    query, and the collectors are unchanged. *)
Theorem noncanonical_path_redirected (r : http.Request) (env : Env) (c : Collectors) :
  String.eqb (http.Method r) "CONNECT" = false ->
  http.cleanPath (url.EscapedPath (http.URL r)) <> url.EscapedPath (http.URL r) ->
  exists loc, ServeHTTP r env c = (c, Redirected loc (url.RawQuery (http.URL r))).
Proof.
  intros Hm Hp. unfold ServeHTTP, http.findHandler. rewrite Hm.
  apply String.eqb_neq in Hp.
  unfold http.matchOrRedirect.
  destruct (negb _ && negb _);
    [destruct (http.exactMatch _ _); [eexists; reflexivity|]|];
    rewrite Hp; cbn [negb]; eexists; reflexivity.
Qed.

Lemma noncanonical_path_redirected_witness :
  String.eqb "GET" "CONNECT" = false /\
  http.cleanPath "/a/../err" <> "/a/../err" /\
  exists loc,
    ServeHTTP (requestFor "GET" "/a/../err" "/a/../err" "x=1") env0 startup =
      (startup, Redirected loc "x=1").
Proof.
  split; [reflexivity|]. split; [discriminate|].
  exact (noncanonical_path_redirected
           (requestFor "GET" "/a/../err" "/a/../err" "x=1") env0 startup
           eq_refl ltac:(discriminate)).
Defined.

(** ** The hash route, whatever the parameters *)

Lemma registered_hash (p : http.pattern) (h : Handler) :
  In (p, h) mux -> p = patHashMbIterations \/ p = patHashMb \/ p = patHash ->
  h = InstrumentHandlerCounter hashHandler.
Proof.
  intros Hin Hp. unfold mux in Hin. cbn [In] in Hin.
  repeat (destruct Hin as [Heq|Hin];
          [injection Heq as <- <-;
           first [reflexivity | destruct Hp as [Hp|[Hp|Hp]]; discriminate Hp]|]).
  contradiction.
Qed.

(** The values that the hash handler reads, or the one way in which
    reading them fails: under [/hash/{mb}/{iterations}] with an empty
    second segment, only the third segment was recorded as a match. *)
Lemma hash_values (r : http.Request) (p : http.pattern) (h : Handler)
    (ms : list string) :
  http.findHandler mux r = http.Matched p h ms ->
  p = patHashMbIterations \/ p = patHashMb \/ p = patHash ->
  (exists b, p = patHashMbIterations /\
             http.pathSegments (url.EscapedPath (http.URL r)) = ["hash"; ""; b] /\
             ms = [b]) \/
  (exists mbStr iterationsStr,
     http.PathValue p ms "mb" = Some mbStr /\
     http.PathValue p ms "iterations" = Some iterationsStr /\
     (p = patHashMbIterations ->
      http.pathSegments (url.EscapedPath (http.URL r)) = ["hash"; mbStr; iterationsStr]) /\
     (p = patHashMb ->
      http.pathSegments (url.EscapedPath (http.URL r)) = ["hash"; mbStr] /\
      iterationsStr = "") /\
     (p = patHash -> mbStr = "" /\ iterationsStr = "")).
Proof.
  intros Hf Hp. apply findHandler_Matched in Hf. destruct Hp as [->|[->| ->]].
  - destruct (treeMatch_hashMbIterations _ _ _ Hf) as (a & b & Hsegs & Hms).
    destruct (String.eqb_spec a "") as [->|Hne]; subst ms.
    + left. exists b. auto.
    + right. exists a, b. split; [reflexivity|]. split; [reflexivity|].
      split; [trivial|]. split; discriminate.
  - destruct (treeMatch_hashMb _ _ _ Hf) as (v & Hsegs & ->).
    right. exists v, "". split; [reflexivity|]. split; [reflexivity|].
    split; [discriminate|]. split; [auto|discriminate].
  - right. exists "", "". split; [reflexivity|]. split; [reflexivity|].
    split; [discriminate|]. split; [discriminate|auto].
Qed.

(** X21.  A request dispatched to any of the three registrations of the
    hash route either makes the handler panic or is answered 200.  It
    panics, in [r.PathValue("iterations")], when the pattern is
    [/hash/{mb}/{iterations}] and the second segment of the path is
    empty, which only a [CONNECT] request can bring about: nothing is
    written, the hasher is not called and the collectors are unchanged.
    Otherwise the two parameters are read independently, each through
    the default-to-5 idiom; the hasher is called [iterations] times, at
    least once, always for the same target; the body names the two
    numbers after defaulting.  Under [/hash/{mb}] the iterations are 5,
    under [/hash/] both numbers are. *)
Theorem hash_route_runs_hasher
    (r : http.Request) (env : Env) (c : Collectors)
    (p : http.pattern) (h : Handler) (ms : list string) :
  http.findHandler mux r = http.Matched p h ms ->
  p = patHashMbIterations \/ p = patHashMb \/ p = patHash ->
  (exists b,
     p = patHashMbIterations /\
     http.pathSegments (url.EscapedPath (http.URL r)) = ["hash"; ""; b] /\
     http.Method r = "CONNECT" /\
     ServeHTTP r env c = (c, Panicked p)) \/
  (exists mbStr iterationsStr,
     http.PathValue p ms "mb" = Some mbStr /\
     http.PathValue p ms "iterations" = Some iterationsStr /\
     let mb := atoiOr5 mbStr in
     let iterations := atoiOr5 iterationsStr in
     let target := wrap64 (wrap64 (mb * 1024) * 1024) in
     snd (ServeHTTP r env c) =
       Served p {| status := 200;
                   body := Text ("Hashing " +:+ strconv.Itoa mb +:+ " mb, " +:+
                                 strconv.Itoa iterations +:+ " times took " +:+
                                 elapsed env);
                   slept := [];
                   hashed := repeat target (Z.to_nat iterations) |} /\
     (1 <= length (repeat target (Z.to_nat iterations)))%nat /\
     (p = patHashMbIterations ->
      http.pathSegments (url.EscapedPath (http.URL r)) = ["hash"; mbStr; iterationsStr]) /\
     (p = patHashMb ->
      http.pathSegments (url.EscapedPath (http.URL r)) = ["hash"; mbStr] /\
      iterations = 5) /\
     (p = patHash -> mb = 5 /\ iterations = 5)).
Proof.
  intros Hf Hp.
  pose proof (findHandler_Matched _ _ _ _ _ Hf) as Hm.
  apply treeMatch_sound in Hm. destruct Hm as [Hin _].
  pose proof (registered_hash p h Hin Hp) as ->.
  destruct (hash_values r p _ ms Hf Hp)
    as [(b & -> & Hsegs & ->)|(mbStr & iterationsStr & Hmb & Hit & H3 & H2 & H1)].
  - left. exists b. split; [reflexivity|]. split; [assumption|]. split.
    + destruct (String.eqb_spec (http.Method r) "CONNECT") as [Heq|Hne]; [assumption|].
      apply String.eqb_neq in Hne.
      destruct (Matched_no_empty_segment r _ _ _ Hf Hne). rewrite Hsegs. cbn [In]. auto.
    + unfold ServeHTTP. rewrite Hf. reflexivity.
  - right. exists mbStr, iterationsStr. split; [assumption|]. split; [assumption|].
    cbn zeta. split; [|split; [|split; [|split]]].
    + unfold ServeHTTP. rewrite Hf. unfold InstrumentHandlerCounter.
      rewrite (hashHandler_on mbStr iterationsStr p ms r env c Hmb Hit). reflexivity.
    + rewrite repeat_length. pose proof (atoiOr5_positive iterationsStr). lia.
    + assumption.
    + intros Heq. destruct (H2 Heq) as [Hsegs ->]. split; [assumption|reflexivity].
    + intros Heq. destruct (H1 Heq) as [-> ->]. split; reflexivity.
Qed.

Lemma hash_route_runs_hasher_witness :
  http.findHandler mux (request "CONNECT" "/hash//2") =
    http.Matched patHashMbIterations (InstrumentHandlerCounter hashHandler) ["2"] /\
  ServeHTTP (request "CONNECT" "/hash//2") env0 startup =
    (startup, Panicked patHashMbIterations) /\
  http.findHandler mux (request "GET" "/hash/x/y/z") =
    http.Matched patHash (InstrumentHandlerCounter hashHandler) [] /\
  snd (ServeHTTP (request "GET" "/hash/x/y/z") env0 startup) =
    Served patHash
      {| status := 200; body := Text ("Hashing 5 mb, 5 times took " +:+ elapsed env0);
         slept := []; hashed := repeat 5242880 5 |}.
Proof.
  split; [reflexivity|]. split; [|split; [reflexivity|]].
  - destruct (hash_route_runs_hasher (request "CONNECT" "/hash//2") env0 startup
                patHashMbIterations (InstrumentHandlerCounter hashHandler) ["2"]
                eq_refl (or_introl eq_refl))
      as [(b & _ & _ & _ & Hres)|(mbStr & iterationsStr & _ & Hit & _)].
    + exact Hres.
    + discriminate Hit.
  - destruct (hash_route_runs_hasher (request "GET" "/hash/x/y/z") env0 startup
                patHash (InstrumentHandlerCounter hashHandler) []
                eq_refl (or_intror (or_intror eq_refl)))
      as [(b & Hp & _)|(mbStr & iterationsStr & Hmb & Hit & Hres & _)].
    + discriminate Hp.
    + injection Hmb as <-. injection Hit as <-. exact Hres.
Defined.

(** ** Panics *)

(** How a registered handler can panic: in [r.PathValue], for the
    parameter of the wait route or for one of the hash route; the
    collectors are then as they were. *)
Lemma handler_panics (p : http.pattern) (h : Handler) :
  In (p, h) mux ->
  forall (ctx : Ctx) (env : Env) (c : Collectors),
    snd (h ctx env c) = None ->
    fst (h ctx env c) = c /\
    (((p = patWaitSec \/ p = patWait) /\
      http.PathValue (pat ctx) (matches ctx) "waitSec" = None) \/
     ((p = patHashMbIterations \/ p = patHashMb \/ p = patHash) /\
      (http.PathValue (pat ctx) (matches ctx) "iterations" = None \/
       http.PathValue (pat ctx) (matches ctx) "mb" = None))).
Proof.
  intros Hin ctx env c. unfold mux in Hin. cbn [In] in Hin.
  repeat (destruct Hin as [Heq|Hin];
          [injection Heq as <- <-;
           unfold foundChain, InstrumentHandlerDuration, InstrumentHandlerCounter,
             foundHandler, notfoundHandler, internalErrorHandler, waitHandler,
             hashHandler, metricsHandler;
           try destruct (http.PathValue (pat ctx) (matches ctx) "waitSec") eqn:Hw;
           try destruct (http.PathValue (pat ctx) (matches ctx) "iterations") eqn:Hi;
           try destruct (http.PathValue (pat ctx) (matches ctx) "mb") eqn:Hm;
           cbn [fst snd mbind option_bind]; intros Hnone; try discriminate Hnone;
           (split; [reflexivity|auto 8])|]).
  contradiction.
Qed.

(** A handler that the mux runs panics only under
    [/hash/{mb}/{iterations}], for a [CONNECT] request whose second
    path segment is empty. *)
Lemma Matched_panic (r : http.Request) (q : http.pattern) (h : Handler)
    (ms : list string) (env : Env) (c : Collectors) :
  http.findHandler mux r = http.Matched q h ms ->
  snd (h {| req := r; pat := q; matches := ms |} env c) = None ->
  q = patHashMbIterations /\
  http.Method r = "CONNECT" /\
  (exists b, http.pathSegments (url.EscapedPath (http.URL r)) = ["hash"; ""; b]) /\
  fst (h {| req := r; pat := q; matches := ms |} env c) = c.
Proof.
  intros Hf Hnone.
  pose proof (findHandler_Matched _ _ _ _ _ Hf) as Hm.
  pose proof (treeMatch_sound _ _ _ _ _ Hm) as [Hin _].
  destruct (handler_panics q h Hin _ env c Hnone) as [Hc [[Hq Hv]|[Hq Hv]]];
    cbn [pat matches] in Hv.
  - exfalso. destruct Hq as [->| ->].
    + destruct (treeMatch_waitSec _ _ _ Hm) as (v & _ & ->). discriminate Hv.
    + discriminate Hv.
  - destruct (hash_values r q h ms Hf Hq)
      as [(b & -> & Hsegs & ->)|(mbStr & iterationsStr & Hmb & Hit & _)].
    + split; [reflexivity|]. split; [|split; [eauto|assumption]].
      destruct (String.eqb_spec (http.Method r) "CONNECT") as [Heq|Hne]; [assumption|].
      apply String.eqb_neq in Hne.
      destruct (Matched_no_empty_segment r _ _ _ Hf Hne). rewrite Hsegs. cbn [In]. auto.
    + destruct Hv as [Hv|Hv]; congruence.
Qed.

(** Under a method other than [CONNECT], every request dispatched to a
    handler registered for a pattern other than ["/metrics"] is
    counted. *)
Lemma counted_without_connect (r : http.Request) :
  String.eqb (http.Method r) "CONNECT" = false ->
  counted r = match http.findHandler mux r with
              | http.Matched p _ _ => negb (String.eqb (http.str p) "/metrics")
              | _ => false
              end.
Proof.
  intros Hmethod. unfold counted.
  destruct (http.findHandler mux r) as [p h ms| |] eqn:Hf; try reflexivity.
  unfold returns.
  destruct (snd (h {| req := r; pat := p; matches := ms |} env0 startup)) eqn:Hs;
    [apply andb_true_r|].
  destruct (Matched_panic r p h ms env0 startup Hf Hs) as (_ & Hm & _).
  rewrite Hm in Hmethod. discriminate Hmethod.
Qed.

(** The request [CONNECT /hash//2]: the handler panics, and the request
    is not counted. *)
Example connect_hash_empty_mb :
  ServeHTTP (request "CONNECT" "/hash//2") env0 startup =
    (startup, Panicked patHashMbIterations) /\
  counted (request "CONNECT" "/hash//2") = false /\
  counterLabels (request "CONNECT" "/hash//2") = None /\
  prometheus.total
    (httpRequestsTotal (serveAll [(request "CONNECT" "/hash//2", env0)] startup)) = O.
Proof. repeat split; vm_compute; reflexivity. Qed.

(** X22.  The only requests on which a handler panics: a [CONNECT]
    request whose path has the segments [hash], the empty segment and
    one more (as [/hash//2] has), dispatched to
    [/hash/{mb}/{iterations}].  No request under another method, and no
    request to another route, makes a handler panic; and a panic leaves
    the collectors as they were. *)
Theorem panic_only_on_connect_hash
    (r : http.Request) (env : Env) (c : Collectors) (p : http.pattern) :
  snd (ServeHTTP r env c) = Panicked p ->
  p = patHashMbIterations /\
  http.Method r = "CONNECT" /\
  (exists b, http.pathSegments (url.EscapedPath (http.URL r)) = ["hash"; ""; b]) /\
  fst (ServeHTTP r env c) = c.
Proof.
  unfold ServeHTTP.
  destruct (http.findHandler mux r) as [q h ms| |] eqn:Hf; try discriminate.
  pose proof (Matched_panic r q h ms env c Hf) as Hpanic.
  destruct (h {| req := r; pat := q; matches := ms |} env c) as [c' [done|]];
    cbn [fst snd] in *; [discriminate|].
  intros [= <-]. now apply Hpanic.
Qed.

Lemma panic_only_on_connect_hash_witness :
  snd (ServeHTTP (request "CONNECT" "/hash//2") env0 startup) =
    Panicked patHashMbIterations /\
  http.Method (request "CONNECT" "/hash//2") = "CONNECT" /\
  (exists b, http.pathSegments "/hash//2" = ["hash"; ""; b]) /\
  fst (ServeHTTP (request "CONNECT" "/hash//2") env0 startup) = startup.
Proof.
  split; [reflexivity|].
  exact (proj2 (panic_only_on_connect_hash (request "CONNECT" "/hash//2") env0 startup
                  patHashMbIterations eq_refl)).
Defined.
